(** * Web search tool: a shallow embedding of [src/background/tools/web_search.ts]

    The development follows the source file top-down:
    - [JsString]: the string primitives the file calls ([indexOf], [substring],
      [endsWith], [trim], [encodeURI], [encodeURIComponent]) over sequences of
      UTF-16 code units;
    - [Adapter]: the [deepSearchInjects] table and [buildDeepSearchUrl];
    - [Crawl]: [WebSearch.execute], [deepSearch], [doDetailLinkGroups] and
      [doPageContent] as a labelled transition system, one transition per
      block of code that runs between two [await]s; the browser chooses the
      labels, so every interleaving of tabs, replies and timeouts is a run;
    - [Session]: what the log of a run says about one listener, and the
      invariant on the life of a listener;
    - [Aggregate]: the invariant on the counters of [searchInfo];
    - [Scenario]: concrete requests and schedules;
    - [Accounting]: what the latches, the counters and the log of a task
      add up to;
    - [UrlShape]: the alphabet and the prefixes of the search URLs;
    - [ComputerUse]: the computer-use tool of the same file, its messages
      to the relay extension in a state and error monad.
    The facts come after the definitions: the strings, the listeners and
    the counters, the statements about the specification, then the books
    of a task, the search URLs and the computer-use tool. *)

From Stdlib Require Import ZArith String Ascii Lia Bool.
From stdpp Require Import base tactics option list.

Local Open Scope Z_scope.

(** ** JavaScript strings *)

Module JsString.

(** A string is its sequence of UTF-16 code units. *)
Definition jstring := list Z.

Definition js (s : string) : jstring :=
  map (fun a => Z.of_N (N_of_ascii a)) (list_ascii_of_string s).

Definition len (s : jstring) : Z := Z.of_nat (length s).

Fixpoint eqb (a b : jstring) : bool :=
  match a, b with
  | [], [] => true
  | x :: a', y :: b' => (x =? y) && eqb a' b'
  | _, _ => false
  end.

Fixpoint starts_with (pat s : jstring) : bool :=
  match pat, s with
  | [], _ => true
  | p :: pat', c :: s' => (p =? c) && starts_with pat' s'
  | _ :: _, [] => false
  end.

(** [index_from pat s k]: first match of [pat] in [s], where [s] starts at
    absolute position [k]; [-1] when there is none. *)
Fixpoint index_from (pat s : jstring) (k : Z) : Z :=
  if starts_with pat s then k
  else match s with
       | [] => -1
       | _ :: s' => index_from pat s' (k + 1)
       end.

Definition clamp (n : Z) (s : jstring) : Z := Z.min (Z.max n 0) (len s).

(** [s.indexOf(pat, from)] *)
Definition indexOf (s pat : jstring) (from : Z) : Z :=
  let start := clamp from s in
  index_from pat (drop (Z.to_nat start) s) start.

(** [s.substring(a, b)] *)
Definition substring (s : jstring) (a b : Z) : jstring :=
  let a' := clamp a s in
  let b' := clamp b s in
  let lo := Z.min a' b' in
  let hi := Z.max a' b' in
  take (Z.to_nat (hi - lo)) (drop (Z.to_nat lo) s).

(** [s.substring(a)] *)
Definition substring_from (s : jstring) (a : Z) : jstring :=
  substring s a (len s).

(** [s.endsWith(suffix)] *)
Definition endsWith (s suffix : jstring) : bool :=
  (length suffix <=? length s)%nat
  && eqb (drop (length s - length suffix)%nat s) suffix.

(** [pat] occurs somewhere in [s] ([s.includes(pat)]). *)
Definition includes (s pat : jstring) : bool := 0 <=? indexOf s pat 0.

(** White space and line terminators, as [String.prototype.trim] strips. *)
Definition is_space (c : Z) : bool :=
  (c =? 9) || (c =? 10) || (c =? 11) || (c =? 12) || (c =? 13) || (c =? 32)
  || (c =? 160) || (c =? 5760) || ((8192 <=? c) && (c <=? 8202))
  || (c =? 8232) || (c =? 8233) || (c =? 8239) || (c =? 8287)
  || (c =? 12288) || (c =? 65279).

Fixpoint trim_start (s : jstring) : jstring :=
  match s with
  | c :: s' => if is_space c then trim_start s' else s
  | [] => []
  end.

Definition trim (s : jstring) : jstring :=
  rev (trim_start (rev (trim_start s))).

(** *** [encodeURI] and [encodeURIComponent] *)

Definition is_alpha (c : Z) : bool :=
  ((65 <=? c) && (c <=? 90)) || ((97 <=? c) && (c <=? 122)).

Definition is_digit (c : Z) : bool := (48 <=? c) && (c <=? 57).

Definition one_of (set : string) (c : Z) : bool :=
  existsb (Z.eqb c) (js set).

(** uriUnreserved: letters, digits and [-_.!~*'()] *)
Definition uri_unreserved (c : Z) : bool :=
  is_alpha c || is_digit c || one_of "-_.!~*'()" c.

(** uriReserved plus [#]: [;/?:@&=+$,#] *)
Definition uri_reserved_hash (c : Z) : bool := one_of ";/?:@&=+$,#" c.

Definition hex_digit (d : Z) : Z := if d <? 10 then 48 + d else 55 + d.

Definition percent (byte : Z) : jstring :=
  [37; hex_digit (byte / 16); hex_digit (byte mod 16)].

Definition utf8 (cp : Z) : list Z :=
  if cp <? 128 then [cp]
  else if cp <? 2048 then
    [Z.lor 192 (Z.shiftr cp 6); Z.lor 128 (Z.land cp 63)]
  else if cp <? 65536 then
    [Z.lor 224 (Z.shiftr cp 12);
     Z.lor 128 (Z.land (Z.shiftr cp 6) 63);
     Z.lor 128 (Z.land cp 63)]
  else
    [Z.lor 240 (Z.shiftr cp 18);
     Z.lor 128 (Z.land (Z.shiftr cp 12) 63);
     Z.lor 128 (Z.land (Z.shiftr cp 6) 63);
     Z.lor 128 (Z.land cp 63)].

Definition is_lead (c : Z) : bool := (55296 <=? c) && (c <=? 56319).
Definition is_trail (c : Z) : bool := (56320 <=? c) && (c <=? 57343).

Definition escape (cp : Z) : jstring := concat (map percent (utf8 cp)).

(** The abstract operation Encode: [None] is the URIError thrown for an
    unpaired surrogate. *)
Fixpoint encode (unescaped : Z -> bool) (s : jstring) : option jstring :=
  match s with
  | [] => Some []
  | c :: rest =>
      if unescaped c then option_map (cons c) (encode unescaped rest)
      else if is_trail c then None
      else if is_lead c then
        match rest with
        | d :: rest' =>
            if is_trail d then
              option_map
                (app (escape ((c - 55296) * 1024 + (d - 56320) + 65536)))
                (encode unescaped rest')
            else None
        | [] => None
        end
      else option_map (app (escape c)) (encode unescaped rest)
  end.

Definition encodeURIComponent (s : jstring) : option jstring :=
  encode uri_unreserved s.

Definition encodeURI (s : jstring) : option jstring :=
  encode (fun c => uri_unreserved c || uri_reserved_hash c) s.

(** Decimal digits of a non-negative integer, as [i + ""] gives them. *)
Fixpoint decimal_go (fuel n : nat) (acc : jstring) : jstring :=
  match fuel with
  | O => acc
  | S fuel' =>
      let acc' := Z.of_nat (48 + n mod 10) :: acc in
      if (n <? 10)%nat then acc' else decimal_go fuel' (n / 10) acc'
  end.

Definition decimal (n : nat) : jstring := decimal_go (S n) n [].

(** The number a string of decimal digits stands for. *)
Definition digit_value (ds : jstring) : nat :=
  fold_left (fun a d => (10 * a + (Z.to_nat d - 48))%nat) ds 0%nat.

End JsString.

Import JsString.

(** ** The site adapters *)

Module Adapter.

(** One value of the [deepSearchInjects] object. [buildSearchUrl] returns
    [None] when the encoding function throws. *)
Record Inject := {
  filename : jstring;
  buildSearchUrl : jstring -> jstring -> option jstring
}.

Definition bing : Inject := {|
  filename := js "bing.js";
  buildSearchUrl := fun _ keyword =>
    option_map (app (js "https://bing.com/search?q=")) (encodeURI keyword)
|}.

Definition duckduckgo : Inject := {|
  filename := js "duckduckgo.js";
  buildSearchUrl := fun _ keyword =>
    option_map (app (js "https://duckduckgo.com/?q=")) (encodeURI keyword)
|}.

Definition google : Inject := {|
  filename := js "google.js";
  buildSearchUrl := fun _ keyword =>
    option_map (app (js "https://www.google.com/search?q="))
               (encodeURI keyword)
|}.

(** The host the default adapter scopes its query to (lines 79-87). *)
Definition default_host (url : jstring) : jstring :=
  let url := trim url in
  let idx := indexOf url (js "//") 0 in
  let url := if -1 <? idx then substring_from url (idx + 2) else url in
  let idx := indexOf url (js "/") 2 in
  if -1 <? idx then substring url 0 idx else url.

Definition default : Inject := {|
  filename := js "google.js";
  buildSearchUrl := fun url keyword =>
    let keyword := js "site:" ++ default_host url ++ js " " ++ keyword in
    option_map (app (js "https://www.google.com/search?q="))
               (encodeURIComponent keyword)
|}.

(** The object literal, in the order of its keys ([Object.keys] lists
    string keys in insertion order). *)
Definition deepSearchInjects : list (jstring * Inject) :=
  [ (js "bing.com", bing);
    (js "duckduckgo.com", duckduckgo);
    (js "google.com", google);
    (js "default", default) ].

(** [baseUrl] of [buildDeepSearchUrl] (lines 95-96). *)
Definition baseUrl (url : jstring) : jstring :=
  let idx := indexOf url (js "/") (indexOf url (js "//") 0 + 2) in
  if -1 <? idx then substring url 0 idx else url.

Definition matches (baseUrl domain : jstring) : bool :=
  eqb baseUrl domain
  || endsWith baseUrl (js "." ++ domain)
  || endsWith baseUrl (js "/" ++ domain).

(** The [for] loop over the keys (lines 99-109): the first matching entry. *)
Fixpoint find_inject (table : list (jstring * Inject)) (baseUrl : jstring)
  : option Inject :=
  match table with
  | [] => None
  | (domain, inject) :: table' =>
      if matches baseUrl domain then Some inject
      else find_inject table' baseUrl
  end.

(** Lines 95-112: the adapter [buildDeepSearchUrl] settles on. *)
Definition resolveInject (url : jstring) : Inject :=
  match find_inject deepSearchInjects (baseUrl url) with
  | Some inject => inject
  | None => default
  end.

(** [buildDeepSearchUrl]: the pair [(filename, url)], or [None] when
    building the URL throws. *)
Definition buildDeepSearchUrl (url keyword : jstring)
  : option (jstring * jstring) :=
  let inject := resolveInject url in
  option_map (pair (filename inject)) (buildSearchUrl inject url keyword).

(** Resolution as the specification words it: the known hosts in table
    order, the default adapter when none matches. *)
Definition known_hosts : list (jstring * Inject) :=
  [ (js "bing.com", bing);
    (js "duckduckgo.com", duckduckgo);
    (js "google.com", google) ].

Definition candidate_matches (candidate host : jstring) : bool :=
  eqb candidate host
  || endsWith candidate (js "." ++ host)
  || endsWith candidate (js "/" ++ host).

Definition resolve_spec (url : jstring) : Inject :=
  let candidate := baseUrl url in
  match List.find (fun e => candidate_matches candidate (fst e)) known_hosts with
  | Some e => snd e
  | None => default
  end.

End Adapter.

Import Adapter.

(** ** The two-phase crawl *)

Module Crawl.

(** *** Data *)

(** A detail link [{ title, url, content?, page_title? }]; an absent field is
    [None]. *)
Record DetailLink := {
  link_title : jstring;
  link_url : jstring;
  link_content : option jstring;
  link_page_title : option jstring
}.

(** An element [{ url, links, filename }] of [detailLinkGroups]. *)
Record LinkGroup := {
  group_url : jstring;
  group_links : list DetailLink;
  group_filename : jstring
}.

(** An element [{ url, keyword }] of [searchs]. *)
Record SearchRequest := {
  search_url : jstring;
  search_keyword : jstring
}.

(** The object [searchInfo] of [doPageContent]. Its field [result] is the
    array [detailLinkGroups] itself, which lives in the state below;
    [failedLinks] holds references to link objects: the pair [(i, j)] is
    [detailLinkGroups[i].links[j]]. *)
Record SearchInfo := {
  total : Z;
  running : Z;
  succeed : Z;
  failed : Z;
  failedLinks : list (nat * nat)
}.

(** What a content script answers to [chrome.tabs.sendMessage]:
    [{ links }] for "page:getDetailLinks", [{ title, content }] for
    "page:getContent"; any field may be absent. *)
Record Reply := {
  reply_links : option (list DetailLink);
  reply_title : option jstring;
  reply_content : option jstring
}.

(** How the awaits of a "complete" branch settle: [utils.injectScript]
    rejects, [chrome.tabs.sendMessage] rejects, or the message is answered
    ([None]: no response object). *)
Inductive Outcome :=
| InjectFailed
| SendFailed
| Replied (r : option Reply).

(** [changeInfo.status] of a [chrome.tabs.onUpdated] event. *)
Inductive Status := Complete | Unloaded | OtherStatus.

(** The argument of [execute]: a value whose [typeof] is not "object",
    [null], or an object. The properties carry the types the tool's
    [input_schema] declares; an absent property is [None]. *)
Record Props := {
  prop_url : option jstring;
  prop_query : option jstring;
  prop_maxResults : option Z
}.

Inductive JsValue :=
| NotAnObject
| Null
| Object (p : Props).

(** The listener ids: [taskId + "_" + i] in link discovery and
    [taskId + "_" + i + "_" + j] in content extraction. For one task the
    strings are distinct exactly when the indices are ([eventKey_inj]
    below); the ids keep the indices. *)
Inductive EventId :=
| Ev1 (i : nat)
| Ev2 (i j : nat).

(** The key under which a listener is registered:
    [taskId + "_" + i] and [taskId + "_" + i + "_" + j]. *)
Definition eventKey (taskId : jstring) (e : EventId) : jstring :=
  match e with
  | Ev1 i => taskId ++ js "_" ++ decimal i
  | Ev2 i j => taskId ++ js "_" ++ decimal i ++ js "_" ++ decimal j
  end.

Definition eid_eqb (a b : EventId) : bool :=
  match a, b with
  | Ev1 i, Ev1 i' => Nat.eqb i i'
  | Ev2 i j, Ev2 i' j' => Nat.eqb i i' && Nat.eqb j j'
  | _, _ => false
  end.

(** The closure passed to [tabsUpdateEvent.addListener], by the variables
    it captures. *)
Inductive Listener :=
| DetailLinks (tab : Z) (i : nat) (filename url : jstring)
| PageContent (tab : Z) (i j : nat) (filename : jstring).

Definition eventId (l : Listener) : EventId :=
  match l with
  | DetailLinks _ i _ _ => Ev1 i
  | PageContent _ i j _ => Ev2 i j
  end.

Inductive Error :=
| InvalidParameters
| WindowsCreateRejected
| TabsCreateRejected.

(** Where [execute] is suspended. *)
Inductive Pc :=
| AwaitWindow
| AwaitTab1 (i : nat) (filename url : jstring)
| AwaitLatch1
| AwaitTab2 (i j : nat)
| AwaitLatch2
| Returned (links : list DetailLink)
| Thrown (err : Error).

(** The calls and branch entries of a run, the latest first. A call made
    inside a listener carries the listener's id. *)
Inductive Effect :=
| WindowsCreate
| WindowsRemove (window : Z)
| TabsCreate (url : jstring)
| TabsRemove (e : EventId) (tab : Z)
| InjectScript (e : EventId) (tab : Z) (filename : jstring)
| SendMessage (e : EventId) (tab : Z)
| CountDown (e : option EventId)
| RemoveListener (e : EventId) (found : bool)
| Branch (e : EventId) (st : Status)
| Rejected (e : EventId).

Record State := {
  pc : Pc;
  searchs : list SearchRequest;
  detailsMaxNum : Z;
  window : Z;
  listeners : list (EventId * Listener);
  suspended : list (Listener);
  detailLinkGroups : list LinkGroup;
  discoveryLatch : nat;
  contentLatch : nat;
  searchInfo : SearchInfo;
  log : list Effect
}.

Definition set_pc (v : Pc) (s : State) : State :=
  {| pc := v; searchs := searchs s; detailsMaxNum := detailsMaxNum s;
     window := window s; listeners := listeners s; suspended := suspended s;
     detailLinkGroups := detailLinkGroups s;
     discoveryLatch := discoveryLatch s; contentLatch := contentLatch s;
     searchInfo := searchInfo s; log := log s |}.

Definition set_window (v : Z) (s : State) : State :=
  {| pc := pc s; searchs := searchs s; detailsMaxNum := detailsMaxNum s;
     window := v; listeners := listeners s; suspended := suspended s;
     detailLinkGroups := detailLinkGroups s;
     discoveryLatch := discoveryLatch s; contentLatch := contentLatch s;
     searchInfo := searchInfo s; log := log s |}.

Definition set_listeners (v : list (EventId * Listener)) (s : State) : State :=
  {| pc := pc s; searchs := searchs s; detailsMaxNum := detailsMaxNum s;
     window := window s; listeners := v; suspended := suspended s;
     detailLinkGroups := detailLinkGroups s;
     discoveryLatch := discoveryLatch s; contentLatch := contentLatch s;
     searchInfo := searchInfo s; log := log s |}.

Definition set_suspended (v : list Listener) (s : State) : State :=
  {| pc := pc s; searchs := searchs s; detailsMaxNum := detailsMaxNum s;
     window := window s; listeners := listeners s; suspended := v;
     detailLinkGroups := detailLinkGroups s;
     discoveryLatch := discoveryLatch s; contentLatch := contentLatch s;
     searchInfo := searchInfo s; log := log s |}.

Definition set_detailLinkGroups (v : list LinkGroup) (s : State) : State :=
  {| pc := pc s; searchs := searchs s; detailsMaxNum := detailsMaxNum s;
     window := window s; listeners := listeners s; suspended := suspended s;
     detailLinkGroups := v;
     discoveryLatch := discoveryLatch s; contentLatch := contentLatch s;
     searchInfo := searchInfo s; log := log s |}.

Definition set_discoveryLatch (v : nat) (s : State) : State :=
  {| pc := pc s; searchs := searchs s; detailsMaxNum := detailsMaxNum s;
     window := window s; listeners := listeners s; suspended := suspended s;
     detailLinkGroups := detailLinkGroups s;
     discoveryLatch := v; contentLatch := contentLatch s;
     searchInfo := searchInfo s; log := log s |}.

Definition set_contentLatch (v : nat) (s : State) : State :=
  {| pc := pc s; searchs := searchs s; detailsMaxNum := detailsMaxNum s;
     window := window s; listeners := listeners s; suspended := suspended s;
     detailLinkGroups := detailLinkGroups s;
     discoveryLatch := discoveryLatch s; contentLatch := v;
     searchInfo := searchInfo s; log := log s |}.

Definition set_searchInfo (v : SearchInfo) (s : State) : State :=
  {| pc := pc s; searchs := searchs s; detailsMaxNum := detailsMaxNum s;
     window := window s; listeners := listeners s; suspended := suspended s;
     detailLinkGroups := detailLinkGroups s;
     discoveryLatch := discoveryLatch s; contentLatch := contentLatch s;
     searchInfo := v; log := log s |}.

Definition emit (e : Effect) (s : State) : State :=
  {| pc := pc s; searchs := searchs s; detailsMaxNum := detailsMaxNum s;
     window := window s; listeners := listeners s; suspended := suspended s;
     detailLinkGroups := detailLinkGroups s;
     discoveryLatch := discoveryLatch s; contentLatch := contentLatch s;
     searchInfo := searchInfo s; log := e :: log s |}.

Notation "s |> f" := (f s) (at level 50, left associativity, only parsing).

(** *** JavaScript helpers *)

(** Truthiness of an optional string: absent and empty are falsy. *)
Definition truthy (v : option jstring) : bool :=
  match v with
  | Some (_ :: _) => true
  | _ => false
  end.

(** [l.slice(0, n)]: a negative [n] counts from the end. *)
Definition slice0 {A} (l : list A) (n : Z) : list A :=
  if n <? 0 then take (Z.to_nat (Z.max (Z.of_nat (length l) + n) 0)) l
  else take (Z.to_nat n) l.

(** *** [utils.MsgEvent] *)

(** Modelled from the spec: [utils.MsgEvent] is not part of the source
    given. [addListener] registers one handler under the caller's id,
    [removeListener] removes it and does nothing when it is absent,
    [publish] delivers the event to every handler registered when it is
    called. A handler that fails is reported and affects nobody else. *)
Definition removeListener (id : EventId) (bus : list (EventId * Listener))
  : list (EventId * Listener) :=
  List.filter (fun p => negb (eid_eqb (fst p) id)) bus.

Definition has_listener (id : EventId) (bus : list (EventId * Listener))
  : bool :=
  existsb (fun p => eid_eqb (fst p) id) bus.

Definition addListener (l : Listener) (id : EventId)
    (bus : list (EventId * Listener)) : list (EventId * Listener) :=
  removeListener id bus ++ [(id, l)].

Definition subscribe (l : Listener) (s : State) : State :=
  set_listeners (addListener l (eventId l) (listeners s)) s.

Definition unsubscribe (id : EventId) (s : State) : State :=
  s |> emit (RemoveListener id (has_listener id (listeners s)))
    |> set_listeners (removeListener id (listeners s)).

(** *** [utils.CountDownLatch] *)

(** Modelled from the spec: [utils.CountDownLatch] is not part of the source
    given. [countDown] decrements the count, floored at zero; [await]
    returns once the count is zero or the timeout has elapsed and never
    throws. *)
Definition countDown1 (e : option EventId) (s : State) : State :=
  s |> emit (CountDown e)
    |> set_discoveryLatch (Nat.pred (discoveryLatch s)).

Definition countDown2 (e : option EventId) (s : State) : State :=
  s |> emit (CountDown e)
    |> set_contentLatch (Nat.pred (contentLatch s)).

(** *** Mutations of [searchInfo] and of the links *)

Definition add_running (d : Z) (s : State) : State :=
  let si := searchInfo s in
  set_searchInfo
    {| total := total si; running := running si + d; succeed := succeed si;
       failed := failed si; failedLinks := failedLinks si |} s.

Definition incr_succeed (s : State) : State :=
  let si := searchInfo s in
  set_searchInfo
    {| total := total si; running := running si; succeed := succeed si + 1;
       failed := failed si; failedLinks := failedLinks si |} s.

(** [searchInfo.failed++; searchInfo.failedLinks.push(link)] *)
Definition record_failure (i j : nat) (s : State) : State :=
  let si := searchInfo s in
  set_searchInfo
    {| total := total si; running := running si; succeed := succeed si;
       failed := failed si + 1;
       failedLinks := failedLinks si ++ [(i, j)] |} s.

Definition set_content (content title : option jstring) (l : DetailLink)
  : DetailLink :=
  {| link_title := link_title l; link_url := link_url l;
     link_content := content; link_page_title := title |}.

Definition alter_links (f : list DetailLink -> list DetailLink)
    (g : LinkGroup) : LinkGroup :=
  {| group_url := group_url g; group_links := f (group_links g);
     group_filename := group_filename g |}.

(** [link.content = result.content; link.page_title = result.title] on the
    link object [detailLinkGroups[i].links[j]]. *)
Definition write_link (i j : nat) (r : Reply) (s : State) : State :=
  set_detailLinkGroups
    (alter (alter_links (alter (set_content (reply_content r) (reply_title r)) j))
           i (detailLinkGroups s)) s.


(** *** The listeners *)

(** The part of a listener that runs when an event is delivered, up to its
    first [await] (lines 196-203 and 219-223; 274-281 and 304-309). *)
Definition on_updated (l : Listener) (tabId : Z) (status : Status)
    (s : State) : State :=
  match l with
  | DetailLinks tab i filename url =>
      if negb (tabId =? tab) then s
      else match status with
           | Complete =>
               s |> emit (Branch (Ev1 i) Complete)
                 |> unsubscribe (Ev1 i)
                 |> emit (InjectScript (Ev1 i) tab filename)
                 |> set_suspended (suspended s ++ [l])
           | Unloaded =>
               s |> emit (Branch (Ev1 i) Unloaded)
                 |> countDown1 (Some (Ev1 i))
                 |> emit (TabsRemove (Ev1 i) tab)
                 |> unsubscribe (Ev1 i)
           | OtherStatus => s
           end
  | PageContent tab i j filename =>
      if negb (tabId =? tab) then s
      else match status with
           | Complete =>
               s |> emit (Branch (Ev2 i j) Complete)
                 |> unsubscribe (Ev2 i j)
                 |> emit (InjectScript (Ev2 i j) tab filename)
                 |> set_suspended (suspended s ++ [l])
           | Unloaded =>
               s |> emit (Branch (Ev2 i j) Unloaded)
                 |> add_running (-1)
                 |> countDown2 (Some (Ev2 i j))
                 |> emit (TabsRemove (Ev2 i j) tab)
                 |> unsubscribe (Ev2 i j)
           | OtherStatus => s
           end
  end.

(** The [finally] block of lines 298-303. *)
Definition page_finally (tab : Z) (i j : nat) (s : State) : State :=
  s |> add_running (-1)
    |> countDown2 (Some (Ev2 i j))
    |> emit (TabsRemove (Ev2 i j) tab)
    |> unsubscribe (Ev2 i j).

(** The rest of a "complete" branch, once its awaits
    ([injectScript], [sleep(1000)], [sendMessage]) have settled: no shared
    variable is read or written between them (lines 204-218 and 288-303). *)
Definition resume (l : Listener) (o : Outcome) (s : State) : State :=
  match l with
  | DetailLinks tab i filename url =>
      match o with
      | InjectFailed => s |> emit (Rejected (Ev1 i))
      | SendFailed =>
          s |> emit (SendMessage (Ev1 i) tab) |> emit (Rejected (Ev1 i))
      | Replied r =>
          let links :=
            match r with
            | Some {| reply_links := Some links |} => links
            | _ => []
            end in
          let links := slice0 links (detailsMaxNum s) in
          s |> emit (SendMessage (Ev1 i) tab)
            |> set_detailLinkGroups
                 (detailLinkGroups s ++
                  [{| group_url := url; group_links := links;
                      group_filename := filename |}])
            |> countDown1 (Some (Ev1 i))
            |> emit (TabsRemove (Ev1 i) tab)
      end
  | PageContent tab i j filename =>
      match o with
      | InjectFailed =>
          s |> record_failure i j |> page_finally tab i j
      | SendFailed | Replied None =>
          s |> emit (SendMessage (Ev2 i j) tab)
            |> record_failure i j |> page_finally tab i j
      | Replied (Some r) =>
          s |> emit (SendMessage (Ev2 i j) tab)
            |> write_link i j r |> incr_succeed |> page_finally tab i j
      end
  end.

(** [tabsUpdateEvent.publish]: every listener registered at the call gets
    the event. *)
Definition publish (tabId : Z) (status : Status) (s : State) : State :=
  fold_left (fun s p => on_updated (snd p) tabId status s) (listeners s) s.

(** *** [doDetailLinkGroups] *)

(** The loop of lines 181-229 from index [i] on ([rest] is what is left of
    [searchs]), up to the next [await chrome.tabs.create]. A throwing
    [buildDeepSearchUrl] lands in the [catch]. *)
Fixpoint discovery_loop (rest : list SearchRequest) (i : nat) (s : State) : State :=
  match rest with
  | [] => set_pc AwaitLatch1 s
  | search :: rest' =>
      match buildDeepSearchUrl (search_url search) (search_keyword search) with
      | Some (filename, url) =>
          s |> emit (TabsCreate url) |> set_pc (AwaitTab1 i filename url)
      | None =>
          discovery_loop rest' (S i) (countDown1 None s)
      end
  end.

Definition doDetailLinkGroups (s : State) : State :=
  s |> set_detailLinkGroups []
    |> set_discoveryLatch (length (searchs s))
    |> discovery_loop (searchs s) 0.

(** [chrome.tabs.create] of line 189 has settled. *)
Definition tab1_created (i : nat) (filename url : jstring) (r : option Z)
    (s : State) : State :=
  let s :=
    match r with
    | Some tab => subscribe (DetailLinks tab i filename url) s
    | None => countDown1 None s
    end in
  discovery_loop (drop (S i) (searchs s)) (S i) s.

(** *** [doPageContent] *)

(** The loops of lines 260-312 from [(i, j)] on ([groups] is
    [detailLinkGroups] from index [i]), up to the next
    [await chrome.tabs.create]. *)
Fixpoint content_loop (groups : list LinkGroup) (i j : nat) (s : State)
  : State :=
  match groups with
  | [] => set_pc AwaitLatch2 s
  | g :: groups' =>
      match group_links g !! j with
      | Some link =>
          s |> emit (TabsCreate (link_url link)) |> set_pc (AwaitTab2 i j)
      | None => content_loop groups' (S i) 0 s
      end
  end.

Definition count_links (groups : list LinkGroup) : Z :=
  fold_left (fun n g => n + Z.of_nat (length (group_links g))) groups 0.

Definition doPageContent (s : State) : State :=
  let n := count_links (detailLinkGroups s) in
  s |> set_searchInfo
         {| total := n; running := 0; succeed := 0; failed := 0;
            failedLinks := [] |}
    |> set_contentLatch (Z.to_nat n)
    |> content_loop (detailLinkGroups s) 0 0.

(** [chrome.tabs.create] of line 266 has settled; nothing catches its
    rejection. *)
Definition tab2_created (i j : nat) (r : option Z) (s : State) : State :=
  match r with
  | Some tab =>
      let filename :=
        match detailLinkGroups s !! i with
        | Some g => group_filename g
        | None => []
        end in
      s |> add_running 1
        |> subscribe (PageContent tab i j filename)
        |> content_loop (drop i (detailLinkGroups s)) i (S j)
  | None => set_pc (Thrown TabsCreateRejected) s
  end.

(** *** [deepSearch] and [execute] *)

(** Lines 158-161 and 50-51: the window is closed and the links of the
    first group that have content are returned. *)
Definition response (groups : list LinkGroup) : list DetailLink :=
  let links :=
    match groups !! 0%nat with
    | Some g => group_links g
    | None => []
    end in
  List.filter (fun l => truthy (link_content l)) links.

Definition finish (s : State) : State :=
  s |> emit (WindowsRemove (window s))
    |> set_pc (Returned (response (detailLinkGroups s))).

Definition deepSearch (searchs : list SearchRequest) (detailsMaxNum : Z) : State :=
  {| pc := AwaitWindow; searchs := searchs; detailsMaxNum := detailsMaxNum;
     window := 0; listeners := []; suspended := [];
     detailLinkGroups := []; discoveryLatch := 0; contentLatch := 0;
     searchInfo := {| total := 0; running := 0; succeed := 0; failed := 0;
                      failedLinks := [] |};
     log := [WindowsCreate] |}.

Definition throw (err : Error) : State :=
  {| pc := Thrown err; searchs := []; detailsMaxNum := 0;
     window := 0; listeners := []; suspended := [];
     detailLinkGroups := []; discoveryLatch := 0; contentLatch := 0;
     searchInfo := {| total := 0; running := 0; succeed := 0; failed := 0;
                      failedLinks := [] |};
     log := [] |}.

(** [execute], up to its first [await] (lines 38-49). *)
Definition execute (params : JsValue) : State :=
  match params with
  | Object {| prop_url := url; prop_query := Some query;
              prop_maxResults := maxResults |} =>
      let url :=
        match url with
        | Some u => if truthy url then u else js "https://google.com"
        | None => js "https://google.com"
        end in
      let searchs := [{| search_url := url; search_keyword := query |}] in
      let detailsMaxNum :=
        match maxResults with
        | Some n => if n =? 0 then 5 else n
        | None => 5
        end in
      deepSearch searchs detailsMaxNum
  | _ => throw InvalidParameters
  end.

(** *** The transition system *)

(** What the browser does next: a pending [create] call settles ([None]:
    it rejects), a tab changes status, the awaits of the [k]-th suspended
    listener settle, the awaited latch reaches zero, or its timeout
    elapses. *)
Inductive Label :=
| WindowCreated (r : option Z)
| TabCreated (r : option Z)
| TabUpdated (tabId : Z) (status : Status)
| Settled (k : nat) (o : Outcome)
| LatchReleased
| TimedOut.

(** One transition. A label that does not apply to the state leaves it
    as it is. *)
Definition step (l : Label) (s : State) : State :=
  match l with
  | WindowCreated r =>
      match pc s with
      | AwaitWindow =>
          match r with
          | Some w => s |> set_window w |> doDetailLinkGroups
          | None => set_pc (Thrown WindowsCreateRejected) s
          end
      | _ => s
      end
  | TabCreated r =>
      match pc s with
      | AwaitTab1 i filename url => tab1_created i filename url r s
      | AwaitTab2 i j => tab2_created i j r s
      | _ => s
      end
  | TabUpdated tabId status => publish tabId status s
  | Settled k o =>
      match suspended s !! k with
      | Some l => resume l o (set_suspended (delete k (suspended s)) s)
      | None => s
      end
  | LatchReleased =>
      match pc s with
      | AwaitLatch1 =>
          if Nat.eqb (discoveryLatch s) 0 then doPageContent s else s
      | AwaitLatch2 =>
          if Nat.eqb (contentLatch s) 0 then finish s else s
      | _ => s
      end
  | TimedOut =>
      match pc s with
      | AwaitLatch1 => doPageContent s
      | AwaitLatch2 => finish s
      | _ => s
      end
  end.

Definition run (labels : list Label) (s : State) : State :=
  fold_left (fun s l => step l s) labels s.

End Crawl.

(** ** What a run did for one listener *)

Module Session.

Import Crawl.

Definition count_by {A} (p : A -> bool) (l : list A) : nat :=
  length (List.filter p l).

Definition is_branch (e : EventId) (x : Effect) : bool :=
  match x with Branch e' _ => eid_eqb e e' | _ => false end.

Definition is_close (e : EventId) (x : Effect) : bool :=
  match x with TabsRemove e' _ => eid_eqb e e' | _ => false end.

Definition is_countdown (e : EventId) (x : Effect) : bool :=
  match x with CountDown (Some e') => eid_eqb e e' | _ => false end.

Definition is_removal (e : EventId) (x : Effect) : bool :=
  match x with RemoveListener e' true => eid_eqb e e' | _ => false end.

Definition is_rejection (e : EventId) (x : Effect) : bool :=
  match x with Rejected e' => eid_eqb e e' | _ => false end.

(** Listeners registered under [e]; suspended "complete" branches of [e]. *)
Definition registered (e : EventId) (s : State) : nat :=
  count_by (fun p => eid_eqb e (fst p)) (listeners s).

Definition in_flight (e : EventId) (s : State) : nat :=
  count_by (fun l => eid_eqb e (eventId l)) (suspended s).

(** Entries into the "complete" or "unloaded" branch, tabs closed, latch
    decrements, listeners removed and rejections by the listener [e]. *)
Definition branches (e : EventId) (s : State) : nat :=
  count_by (is_branch e) (log s).

Definition closes (e : EventId) (s : State) : nat :=
  count_by (is_close e) (log s).

Definition countdowns (e : EventId) (s : State) : nat :=
  count_by (is_countdown e) (log s).

Definition removals (e : EventId) (s : State) : nat :=
  count_by (is_removal e) (log s).

Definition rejections (e : EventId) (s : State) : nat :=
  count_by (is_rejection e) (log s).

(** The listener [e] has been created by the time [execute] is at [p]. *)
Definition created (p : Pc) (e : EventId) : Prop :=
  match p, e with
  | AwaitWindow, _ => False
  | AwaitTab1 k _ _, Ev1 i => (i < k)%nat
  | AwaitTab1 _ _ _, Ev2 _ _ => False
  | AwaitLatch1, Ev1 _ => True
  | AwaitLatch1, Ev2 _ _ => False
  | AwaitTab2 _ _, Ev1 _ => True
  | AwaitTab2 a b, Ev2 i j => (i < a)%nat \/ (i = a /\ (j < b)%nat)
  | _, _ => True
  end.

(** The life of a listener: not there yet, registered, inside its
    "complete" branch, or finished; a listener of link discovery may also
    have finished by rejecting. *)
Inductive Stage := Idle | Registered | InFlight | Finished | Failed.

Definition at_stage (e : EventId) (s : State) (st : Stage) : Prop :=
  match st with
  | Idle =>
      registered e s = 0%nat /\ in_flight e s = 0%nat /\ branches e s = 0%nat
      /\ closes e s = 0%nat /\ countdowns e s = 0%nat
      /\ removals e s = 0%nat /\ rejections e s = 0%nat
  | Registered =>
      registered e s = 1%nat /\ in_flight e s = 0%nat /\ branches e s = 0%nat
      /\ closes e s = 0%nat /\ countdowns e s = 0%nat
      /\ removals e s = 0%nat /\ rejections e s = 0%nat
  | InFlight =>
      registered e s = 0%nat /\ in_flight e s = 1%nat /\ branches e s = 1%nat
      /\ closes e s = 0%nat /\ countdowns e s = 0%nat
      /\ removals e s = 1%nat /\ rejections e s = 0%nat
  | Finished =>
      registered e s = 0%nat /\ in_flight e s = 0%nat /\ branches e s = 1%nat
      /\ closes e s = 1%nat /\ countdowns e s = 1%nat
      /\ removals e s = 1%nat /\ rejections e s = 0%nat
  | Failed =>
      registered e s = 0%nat /\ in_flight e s = 0%nat /\ branches e s = 1%nat
      /\ closes e s = 0%nat /\ countdowns e s = 0%nat
      /\ removals e s = 1%nat /\ rejections e s = 1%nat
      /\ exists i, e = Ev1 i
  end.

Definition keyed (s : State) : Prop :=
  Forall (fun p => eventId (snd p) = fst p) (listeners s).

Definition staged (s : State) : Prop :=
  forall e,
    (exists st, at_stage e s st) /\ (~ created (pc s) e -> at_stage e s Idle).

Definition Inv (s : State) : Prop := keyed s /\ staged s.

(** Operations that touch neither the listeners nor the counted effects. *)
Definition same_obs (s s' : State) : Prop :=
  listeners s' = listeners s /\ suspended s' = suspended s
  /\ forall e, branches e s' = branches e s /\ closes e s' = closes e s
               /\ countdowns e s' = countdowns e s
               /\ removals e s' = removals e s
               /\ rejections e s' = rejections e s.

(** [staged] with the position of [execute] given apart. *)
Definition staged_at (p : Pc) (s : State) : Prop :=
  forall e,
    (exists st, at_stage e s st) /\ (~ created p e -> at_stage e s Idle).

(** The log of [s'] extends the log of [s]. *)
Definition log_extends (s s' : State) : Prop :=
  exists ext, log s' = ext ++ log s.

End Session.

(** ** The aggregate of a task started by [execute] *)

Module Aggregate.

Import Crawl Session.

Definition is_detail (e : EventId) : bool :=
  match e with Ev1 _ => true | Ev2 _ _ => false end.

Definition is_page (e : EventId) : bool :=
  match e with Ev1 _ => false | Ev2 _ _ => true end.

(** Listeners of one phase that are registered or inside their "complete"
    branch. *)
Definition live (k : EventId -> bool) (s : State) : Z :=
  Z.of_nat (count_by (fun p => k (fst p)) (listeners s))
  + Z.of_nat (count_by (fun l => k (eventId l)) (suspended s)).

Fixpoint links_from (groups : list LinkGroup) : Z :=
  match groups with
  | [] => 0
  | g :: groups' =>
      Z.of_nat (length (group_links g)) + links_from groups'
  end.

(** Links whose tab the loops of [doPageContent] have yet to open. *)
Definition todo (s : State) : Z :=
  match pc s with
  | AwaitTab2 i j => links_from (drop i (detailLinkGroups s)) - Z.of_nat j
  | _ => 0
  end.

(** The counters of [searchInfo]. *)
Definition counted (s : State) : Prop :=
  let si := searchInfo s in
  Z.of_nat (length (failedLinks si)) = failed si
  /\ 0 <= succeed si /\ 0 <= failed si
  /\ succeed si + failed si + live is_page s + todo s <= total si
  /\ live is_detail s + Z.of_nat (length (detailLinkGroups s)) <= 1.

(** What the position of [execute] tells. *)
Definition placed (s : State) : Prop :=
  match pc s with
  | AwaitWindow =>
      live is_detail s = 0 /\ live is_page s = 0 /\ detailLinkGroups s = []
  | AwaitTab1 i _ _ =>
      i = 0%nat /\ live is_detail s = 0 /\ live is_page s = 0
      /\ detailLinkGroups s = []
  | AwaitLatch1 => live is_page s = 0
  | AwaitTab2 i j =>
      exists g link,
        detailLinkGroups s !! i = Some g /\ group_links g !! j = Some link
  | _ => True
  end.

Definition single (s : State) : Prop :=
  (length (searchs s) <= 1)%nat /\ counted s /\ placed s.

(** Every group holds at most [detailsMaxNum] links. *)
Definition capped (s : State) : Prop :=
  Forall (fun g => Z.of_nat (length (group_links g)) <= detailsMaxNum s)
         (detailLinkGroups s).

Definition same_groups (s s' : State) : Prop :=
  detailLinkGroups s' = detailLinkGroups s
  /\ detailsMaxNum s' = detailsMaxNum s.

End Aggregate.

(** ** Concrete tasks *)

Module Scenario.

Import Crawl.

(** [execute({ query: "ai" })] *)
Definition query_ai : JsValue :=
  Object {| prop_url := None; prop_query := Some (js "ai");
            prop_maxResults := None |}.

(** [execute({ query: "ai", maxResults: n })] *)
Definition query_ai_max (n : Z) : JsValue :=
  Object {| prop_url := None; prop_query := Some (js "ai");
            prop_maxResults := Some n |}.

Definition candidate (name : string) : DetailLink :=
  {| link_title := js name; link_url := js "https://example.org/" ++ js name;
     link_content := None; link_page_title := None |}.

Definition candidates5 : list DetailLink :=
  map candidate ["a"; "b"; "c"; "d"; "e"]%string.

Definition candidates10 : list DetailLink :=
  map candidate ["a"; "b"; "c"; "d"; "e"; "f"; "g"; "h"; "i"; "j"]%string.

Definition links_reply (links : list DetailLink) : Outcome :=
  Replied (Some {| reply_links := Some links; reply_title := None;
                   reply_content := None |}).

Definition page_reply (name : string) : Outcome :=
  Replied (Some {| reply_links := None; reply_title := Some (js name);
                   reply_content := Some (js "text of " ++ js name) |}).

(** The link [name] once its page has answered. *)
Definition fetched (name : string) : DetailLink :=
  {| link_title := js name; link_url := js "https://example.org/" ++ js name;
     link_content := Some (js "text of " ++ js name);
     link_page_title := Some (js name) |}.

(** The window opens, the search tab (id 100) loads and answers with
    [links]; link discovery ends. *)
Definition discovery (links : list DetailLink) : list Label :=
  [WindowCreated (Some 7); TabCreated (Some 100); TabUpdated 100 Complete;
   Settled 0 (links_reply links)].

(** Five detail tabs (ids 1-5) open and load; the third one gives no
    response, the others answer. *)
Definition five_tabs_one_missing : list Label :=
  discovery candidates5 ++
  [LatchReleased;
   TabCreated (Some 1); TabCreated (Some 2); TabCreated (Some 3);
   TabCreated (Some 4); TabCreated (Some 5);
   TabUpdated 1 Complete; TabUpdated 2 Complete; TabUpdated 3 Complete;
   TabUpdated 4 Complete; TabUpdated 5 Complete;
   Settled 0 (page_reply "a"); Settled 0 (page_reply "b");
   Settled 0 (Replied None);
   Settled 0 (page_reply "d"); Settled 0 (page_reply "e")].

(** The argument of [execute] is an object with a "query" property. *)
Definition well_formed (params : JsValue) : bool :=
  match params with
  | Object p =>
      match prop_query p with
      | Some _ => true
      | None => false
      end
  | _ => false
  end.

(** The search tab loads, then [utils.injectScript] rejects. *)
Definition injection_fails : list Label :=
  [WindowCreated (Some 7); TabCreated (Some 100); TabUpdated 100 Complete;
   Settled 0 InjectFailed].

(** Link discovery finds one link; opening its tab is rejected. *)
Definition detail_tab_rejected : list Label :=
  discovery [candidate "a"] ++ [LatchReleased; TabCreated None].

(** The search list [execute] builds for [{ query: "ai" }]. *)
Definition search_ai : list SearchRequest :=
  [{| search_url := js "https://google.com"; search_keyword := js "ai" |}].

(** The search tab of [{ query: "ai" }] has loaded. *)
Definition search_tab_loaded : State :=
  run [WindowCreated (Some 7); TabCreated (Some 100);
       TabUpdated 100 Complete] (execute query_ai).


(** One link was found; its tab is about to be opened. *)
Definition detail_tab_pending : State :=
  run (discovery [candidate "a"] ++ [LatchReleased]) (execute query_ai).

Definition five_tabs_done : State :=
  run five_tabs_one_missing (execute query_ai).



(** [maxResults = -1] and a response of 10 candidate links. *)
Definition negative_limit : State :=
  run (discovery candidates10) (execute (query_ai_max (-1))).

(** Two searches, as [deepSearch] accepts them and [execute] never passes
    them. The first search answers in time; the second one answers after
    the timeout of link discovery, while [doPageContent] is opening tabs. *)
Definition two_searches : list SearchRequest :=
  [{| search_url := js "https://google.com"; search_keyword := js "ai" |};
   {| search_url := js "https://bing.com"; search_keyword := js "ai" |}].

Definition late_group : list Label :=
  [WindowCreated (Some 7); TabCreated (Some 100); TabCreated (Some 101);
   TabUpdated 100 Complete; Settled 0 (links_reply [candidate "a"]);
   TabUpdated 101 Complete; TimedOut;
   Settled 0 (links_reply [candidate "b"; candidate "c"]);
   TabCreated (Some 1); TabCreated (Some 2); TabCreated (Some 3);
   TabUpdated 1 Complete; TabUpdated 2 Complete; TabUpdated 3 Complete;
   Settled 0 (page_reply "a"); Settled 0 (page_reply "b");
   Settled 0 (page_reply "c")].

End Scenario.

(** ** The books of a task *)

Module Accounting.

Import Crawl Session Aggregate.

(** [execute] has returned or thrown. *)
Definition final (p : Pc) : bool :=
  match p with
  | Returned _ | Thrown _ => true
  | _ => false
  end.

(** [doDetailLinkGroups] has been entered. *)
Definition started (p : Pc) : bool :=
  match p with
  | AwaitWindow | Thrown WindowsCreateRejected | Thrown InvalidParameters =>
      false
  | _ => true
  end.

Definition is_window_remove (x : Effect) : bool :=
  match x with WindowsRemove _ => true | _ => false end.

Definition is_window_create (x : Effect) : bool :=
  match x with WindowsCreate => true | _ => false end.

Definition is_rejected (x : Effect) : bool :=
  match x with Rejected _ => true | _ => false end.

Definition is_page_unloaded (x : Effect) : bool :=
  match x with Branch (Ev2 _ _) Unloaded => true | _ => false end.

(** A call of [chrome.windows.remove] on another window than [w0]. *)
Definition is_foreign_remove (w0 : Z) (x : Effect) : bool :=
  match x with WindowsRemove w => negb (w =? w0) | _ => false end.

(** What the loops of [doDetailLinkGroups] and [doPageContent] do
    themselves. *)
Definition loop_effect (x : Effect) : bool :=
  match x with
  | CountDown None | TabsCreate _ => true
  | _ => false
  end.


Definition rejected (s : State) : Z :=
  Z.of_nat (count_by is_rejected (log s)).

Definition unloaded (s : State) : Z :=
  Z.of_nat (count_by is_page_unloaded (log s)).


(** Searches whose tab the loop of [doDetailLinkGroups] has yet to see
    settle. *)
Definition remaining (s : State) : Z :=
  match pc s with
  | AwaitTab1 i _ _ => Z.of_nat (length (searchs s)) - Z.of_nat i
  | _ => 0
  end.

(** The latch of link discovery stands for the searches not yet settled:
    those still to come, those whose listener is registered or inside its
    "complete" branch, and those whose handler rejected. *)
Definition discovery_books (s : State) : Prop :=
  if started (pc s) then
    Z.of_nat (discoveryLatch s) = remaining s + live is_detail s + rejected s
    /\ Z.of_nat (length (detailLinkGroups s)) + Z.of_nat (discoveryLatch s)
       <= Z.of_nat (length (searchs s))
    /\ match pc s with
       | AwaitTab1 i _ _ => (i < length (searchs s))%nat
       | _ => True
       end
  else listeners s = [] /\ suspended s = [] /\ rejected s = 0.

(** [running] is the number of listeners of content extraction that are
    registered or inside their "complete" branch. *)
Definition running_books (s : State) : Prop :=
  running (searchInfo s) = live is_page s.

(** The books of content extraction, while [execute] has not thrown. *)
Definition content_books (s : State) : Prop :=
  match pc s with
  | Thrown _ => True
  | _ =>
      let si := searchInfo s in
      succeed si + failed si + unloaded s + running si + todo s = total si
      /\ Z.of_nat (contentLatch s) = running si + todo s
  end.

(** The three invariants of a task started by [execute], together. *)
Definition books (s : State) : Prop :=
  single s /\ running_books s /\ content_books s.

(** Before the window exists the task holds no listener and no group. *)
Definition pristine (s : State) : Prop :=
  pc s = AwaitWindow ->
  detailLinkGroups s = [] /\ suspended s = [] /\ listeners s = [].



(** What content extraction leaves of a link and of a group. *)
Definition link_key (l : DetailLink) : jstring * jstring :=
  (link_title l, link_url l).

Definition group_key (g : LinkGroup)
  : jstring * jstring * list (jstring * jstring) :=
  (group_url g, group_filename g, map link_key (group_links g)).

(** The groups of [s'] are those of [s], content apart, and later ones. *)
Definition groups_extend (s s' : State) : Prop :=
  exists ext,
    map group_key (detailLinkGroups s')
    = map group_key (detailLinkGroups s) ++ ext.

End Accounting.

(** ** The shape of a search URL *)

Module UrlShape.

(** A UTF-16 code unit; a byte; an upper-case hexadecimal digit. *)
Definition code_unit (c : Z) : bool := (0 <=? c) && (c <? 65536).

Definition is_byte (b : Z) : bool := (0 <=? b) && (b <? 256).

Definition is_hex (c : Z) : bool :=
  is_digit c || ((65 <=? c) && (c <=? 70)).

Definition is_surrogate (c : Z) : bool := is_lead c || is_trail c.

(** What [encodeURI] leaves or produces, and what [encodeURIComponent]
    does. *)
Definition uri_char (c : Z) : bool :=
  uri_unreserved c || uri_reserved_hash c || (c =? 37).

Definition component_char (c : Z) : bool := uri_unreserved c || (c =? 37).

(** The script and the URL prefix of each search engine. *)
Definition engines : list (jstring * jstring) :=
  [ (js "bing.js", js "https://bing.com/search?q=");
    (js "duckduckgo.js", js "https://duckduckgo.com/?q=");
    (js "google.js", js "https://www.google.com/search?q=") ].

End UrlShape.

(** ** The computer-use tool *)

Module ComputerUse.

(** A value in the [args] array of a message to the relay extension: a
    number, a string, a member of [Object.prototype] reached through
    [mapping[k]] (a function or an object, named by its key), or
    [undefined]. *)
Inductive Arg :=
| Num (n : Z)
| Str (s : jstring)
| Inherited (name : jstring)
| Undefined.

(** The message [{ func, args }] of [runComputeruseCommand]; [args] is
    [None] when the caller passes [undefined]. *)
Record Command := {
  func : jstring;
  args : option (list Arg)
}.

(** The [result] property of a response: [undefined] or [null]; a string;
    any other value, given by its [coordinate] property ([None]:
    [undefined]). *)
Inductive Result :=
| Nullish
| Text (s : jstring)
| Position (coordinate : option (list Z)).

(** How [chrome.runtime.sendMessage] settles: it rejects, it resolves with
    [undefined], or it resolves with a response object. *)
Inductive Answer :=
| Rejects
| NoResponse
| Response (result : Result).

(** The relay extension: its answer to the latest message, given all the
    messages sent so far (the latest first). *)
Definition Relay := list Command -> Answer.

Inductive Failure :=
| InvalidParameters
| InvalidAction (action : jstring)
| TypeError
| SendRejected
| TabIdRejected.

(** A computation that sends messages to the relay and returns or throws;
    the state is the list of messages sent so far, the latest first. *)
Definition M (A : Type) : Type :=
  Relay -> list Command -> list Command * (Failure + A).

#[export] Instance M_ret : MRet M := fun A a _ sent => (sent, inr a).

#[export] Instance M_bind : MBind M := fun A B k m relay sent =>
  match m relay sent with
  | (sent', inr a) => k a relay sent'
  | (sent', inl e) => (sent', inl e)
  end.

Definition throw {A} (e : Failure) : M A := fun _ sent => (sent, inl e).

(** [runComputeruseCommand] (lines 603-611): the response, [None] when
    there is none. *)
Definition runComputeruseCommand (f : jstring) (a : option (list Arg))
  : M (option Result) :=
  fun relay sent =>
    let sent' := {| func := f; args := a |} :: sent in
    match relay sent' with
    | Rejects => (sent', inl SendRejected)
    | NoResponse => (sent', inr None)
    | Response r => (sent', inr (Some r))
    end.

(** [response.result] *)
Definition result_of (response : option Result) : M Result :=
  match response with
  | Some r => mret r
  | None => throw TypeError
  end.

(** [cursor_position] (lines 581-592); [tabId] is not used. *)
Definition cursor_position (tabId : Z) : M Result :=
  response ← runComputeruseCommand (js "position") None;
  result_of response.

(** [(await cursor_position(tabId)).coordinate] *)
Definition position_coordinate (tabId : Z) : M (option (list Z)) :=
  r ← cursor_position tabId;
  match r with
  | Nullish => throw TypeError
  | Text _ => mret None
  | Position c => mret c
  end.

(** [if (!coordinate) coordinate = (await cursor_position(tabId)).coordinate]:
    an array is truthy. *)
Definition or_position (tabId : Z) (coordinate : option (list Z))
  : M (option (list Z)) :=
  match coordinate with
  | Some c => mret (Some c)
  | None => position_coordinate tabId
  end.

(** [mouse_move] (lines 494-496): the coordinate array is the [args]. *)
Definition mouse_move (tabId : Z) (coordinate : option (list Z)) : M unit :=
  runComputeruseCommand (js "moveTo") (option_map (map Num) coordinate);;
  mret tt.

(** The object literal [mapping] of [key] (lines 461-468). *)
Definition mapping : list (jstring * jstring) :=
  [ (js "space", js " ");
    (js "escape", js "esc");
    (js "return", js "enter");
    (js "page_up", js "pageup");
    (js "page_down", js "pagedown");
    (js "back_space", js "backspace") ].

(** The properties an object literal inherits from [Object.prototype]. *)
Definition object_prototype : list jstring :=
  map js
    [ "constructor"; "hasOwnProperty"; "isPrototypeOf";
      "propertyIsEnumerable"; "toLocaleString"; "toString"; "valueOf";
      "__proto__"; "__defineGetter__"; "__defineSetter__";
      "__lookupGetter__"; "__lookupSetter__" ]%string.

Fixpoint own (table : list (jstring * jstring)) (k : jstring)
  : option jstring :=
  match table with
  | [] => None
  | (k', v) :: table' => if eqb k k' then Some v else own table' k
  end.

(** [mapping[k] || k] *)
Definition mapped (k : jstring) : Arg :=
  match own mapping k with
  | Some (c :: v) => Str (c :: v)
  | Some [] => Str k
  | None => if existsb (eqb k) object_prototype then Inherited k else Str k
  end.

(** [s.replace(/\s+/g, " ")]; [in_run]: the previous character was white
    space. *)
Fixpoint collapse (in_run : bool) (s : jstring) : jstring :=
  match s with
  | [] => []
  | c :: s' =>
      if is_space c then
        if in_run then collapse true s' else 32 :: collapse true s'
      else c :: collapse false s'
  end.

(** [s.split(sep)] for a separator of one character. *)
Fixpoint split (sep : Z) (s : jstring) : list jstring :=
  match s with
  | [] => [[]]
  | c :: s' =>
      if c =? sep then [] :: split sep s'
      else match split sep s' with
           | piece :: pieces => (c :: piece) :: pieces
           | [] => [[c]]
           end
  end.

(** The body of the loop of lines 470-480 for one element of [keys];
    [utils.sleep(100)] only waits. *)
Definition press_key (k : jstring) : M unit :=
  (if -1 <? indexOf k (js "+") 0 then
     runComputeruseCommand (js "hotkey") (Some (map mapped (split 43 k)))
   else runComputeruseCommand (js "press") (Some [mapped k]));;
  mret tt.

Fixpoint press_keys (keys : list jstring) : M unit :=
  match keys with
  | [] => mret tt
  | k :: keys' => press_key k;; press_keys keys'
  end.

(** [key] (lines 452-481). A [text] that is [undefined] makes
    [key.replace] throw, after the mouse has moved. *)
Definition key (tabId : Z) (text : option jstring)
    (coordinate : option (list Z)) : M unit :=
  coordinate ← or_position tabId coordinate;
  mouse_move tabId coordinate;;
  match text with
  | Some k => press_keys (split 32 (collapse false k))
  | None => throw TypeError
  end.

(** [type] (lines 483-492) *)
Definition type (tabId : Z) (text : option jstring)
    (coordinate : option (list Z)) : M unit :=
  match coordinate with
  | Some c => mouse_move tabId (Some c)
  | None => mret tt
  end;;
  runComputeruseCommand (js "write")
    (Some [match text with Some t => Str t | None => Undefined end]);;
  mret tt.

(** [coordinate[i]] *)
Definition at_index (coordinate : list Z) (i : nat) : Arg :=
  match coordinate !! i with
  | Some n => Num n
  | None => Undefined
  end.

(** [left_click], [right_click] and [double_click] (lines 498-548) differ
    in the number of clicks and in the button. Reading [coordinate[0]] of
    [undefined] throws. *)
Definition click (clicks : Z) (button : string) (tabId : Z)
    (coordinate : option (list Z)) : M unit :=
  coordinate ← or_position tabId coordinate;
  match coordinate with
  | Some c =>
      runComputeruseCommand (js "click")
        (Some [at_index c 0; at_index c 1; Num clicks; Num 0; Str (js button)]);;
      mret tt
  | None => throw TypeError
  end.

Definition left_click := click 1 "left".
Definition right_click := click 1 "right".
Definition double_click := click 2 "left".

(** [left_click_drag] (lines 511-516) *)
Definition left_click_drag (tabId : Z) (coordinate : option (list Z))
  : M unit :=
  match coordinate with
  | Some c =>
      runComputeruseCommand (js "dragTo")
        (Some [at_index c 0; at_index c 1; Num 0]);;
      mret tt
  | None => throw TypeError
  end.

(** [scroll] (lines 599-601) *)
Definition scroll (tabId : Z) (coordinate : option (list Z)) : M unit :=
  runComputeruseCommand (js "scroll") (Some [Num 2]);;
  mret tt.

(** The [image] of [screenshot] (lines 558-578). *)
Record Image := {
  media_type : jstring;
  data : jstring
}.

Definition screenshot_image (screenshot : jstring) : Image :=
  let dataUrl :=
    if starts_with (js "data:") screenshot then screenshot
    else js "data:image/png;base64," ++ screenshot in
  {| media_type :=
       if -1 <? indexOf dataUrl (js "png") 0 then js "image/png"
       else js "image/jpeg";
     data := substring_from dataUrl (indexOf dataUrl (js "base64,") 0 + 7) |}.

(** [screenshot] (lines 550-579); its argument [windowId] is not used.
    [startsWith] is a method of strings only. *)
Definition screenshot : M Image :=
  response ← runComputeruseCommand (js "screenshot") None;
  r ← result_of response;
  match r with
  | Text s => mret (screenshot_image s)
  | _ => throw TypeError
  end.

(** The argument of [execute]; the properties carry the types the tool's
    [input_schema] declares, an absent property is [None]. *)
Record Input := {
  action : option jstring;
  coordinate : option (list Z);
  text : option jstring
}.

Inductive Params :=
| NotAnObject
| Null
| Object (p : Input).

(** What [execute] spreads after [success: true]: nothing, the image, or
    the result of the "position" message. *)
Inductive Payload :=
| Plain
| WithImage (image : Image)
| Spread (r : Result).

(** [getTabId] (lines 443-449): [this.tabId] when it is truthy, else what
    [utils.getCurrentTabId] resolves with; [current] is [None] when it
    rejects. *)
Definition getTabId (own_tab : option Z) (current : option Z) : M Z :=
  match own_tab with
  | Some t => if t =? 0 then
                match current with
                | Some c => mret c
                | None => throw TabIdRejected
                end
              else mret t
  | None => match current with
            | Some c => mret c
            | None => throw TabIdRejected
            end
  end.

Definition plain (m : M unit) : M Payload := m;; mret Plain.

(** [execute] (lines 391-441) *)
Definition execute (own_tab current : option Z) (params : Params)
  : M Payload :=
  match params with
  | Object {| action := Some a; coordinate := c; text := t |} =>
      tabId ← getTabId own_tab current;
      if eqb a (js "key") then plain (key tabId t c)
      else if eqb a (js "type") then plain (type tabId t c)
      else if eqb a (js "mouse_move") then plain (mouse_move tabId c)
      else if eqb a (js "left_click") then plain (left_click tabId c)
      else if eqb a (js "left_click_drag") then
        plain (left_click_drag tabId c)
      else if eqb a (js "right_click") then plain (right_click tabId c)
      else if eqb a (js "double_click") then plain (double_click tabId c)
      else if eqb a (js "screenshot") then
        image ← screenshot; mret (WithImage image)
      else if eqb a (js "cursor_position") then
        r ← cursor_position tabId; mret (Spread r)
      else if eqb a (js "scroll") then plain (scroll tabId c)
      else throw (InvalidAction a)
  | _ => throw InvalidParameters
  end.


(** A string argument that names a key: a space, or a name without white
    space and without "+" that is none of the aliases of [mapping]. *)
Definition key_name (a : Arg) : bool :=
  match a with
  | Str s =>
      eqb s (js " ")
      || (forallb (fun c => negb (is_space c) && negb (c =? 43)) s
          && negb (existsb (eqb s) (map fst mapping)))
  | _ => true
  end.

Definition key_names (c : Command) : bool :=
  match args c with
  | Some l => forallb key_name l
  | None => true
  end.

(** Whatever [m] sends satisfies [P]. *)
Definition sends {A} (P : Command -> bool) (m : M A) : Prop :=
  forall relay sent,
    forallb P sent = true -> forallb P (fst (m relay sent)) = true.


(** The names of the [action] enumeration. *)
Definition actions : list jstring :=
  map js
    [ "key"; "type"; "mouse_move"; "left_click"; "left_click_drag";
      "right_click"; "double_click"; "screenshot"; "cursor_position";
      "scroll" ]%string.

End ComputerUse.

Import Crawl Session Aggregate Scenario.

(** * Strings and adapters *)

Lemma clamp_0 (s : jstring) : clamp 0 s = 0.
Proof. unfold clamp, len. lia. Qed.

Lemma indexOf_0 (s pat : jstring) : indexOf s pat 0 = index_from pat s 0.
Proof. unfold indexOf. rewrite clamp_0. reflexivity. Qed.

Lemma find_inject_known (b : jstring) :
  match find_inject deepSearchInjects b with
  | Some inject => inject
  | None => default
  end
  = match List.find (fun e => candidate_matches b (fst e)) known_hosts with
    | Some e => snd e
    | None => default
    end.
Proof.
  unfold deepSearchInjects, known_hosts.
  cbn [find_inject List.find fst snd].
  change (candidate_matches b) with (matches b).
  repeat (destruct (matches b _); [reflexivity|]).
  reflexivity.
Qed.

Lemma resolveInject_spec (url : jstring) : resolveInject url = resolve_spec url.
Proof. apply find_inject_known. Qed.

(** Encoding goes through a prefix that has no lead surrogate. *)
Lemma encode_app (f : Z -> bool) (a b : jstring) :
  forall ea,
  forallb (fun c => negb (is_lead c)) a = true ->
  encode f a = Some ea ->
  encode f (a ++ b) = option_map (app ea) (encode f b).
Proof.
  induction a as [|c a IH]; intros ea Hlead Ha.
  - injection Ha as <-. cbn [app]. destruct (encode f b); reflexivity.
  - cbn [forallb] in Hlead. apply andb_true_iff in Hlead as [Hc Hlead].
    apply negb_true_iff in Hc.
    cbn [encode app] in *. rewrite Hc in *.
    destruct (f c).
    + destruct (encode f a) as [ea'|] eqn:E; [|discriminate].
      injection Ha as <-. rewrite (IH ea') by auto.
      destruct (encode f b); reflexivity.
    + destruct (is_trail c); [discriminate|].
      destruct (encode f a) as [ea'|] eqn:E; [|discriminate].
      injection Ha as <-. rewrite (IH ea') by auto.
      destruct (encode f b); cbn; [rewrite app_assoc|]; reflexivity.
Qed.

Lemma starts_with_app (pat a b : jstring) :
  starts_with pat a = true -> starts_with pat (a ++ b) = true.
Proof.
  revert a. induction pat as [|p pat IH]; intros [|c a] H; cbn in *;
    try reflexivity; try discriminate.
  apply andb_true_iff in H as [-> H]. cbn. auto.
Qed.

Lemma index_from_app (pat a b : jstring) (k : Z) :
  0 <= k -> 0 <= index_from pat a k -> 0 <= index_from pat (a ++ b) k.
Proof.
  revert k. induction a as [|c a IH]; intros k Hk H; cbn [index_from] in H.
  - destruct (starts_with pat []) eqn:E; [|lia].
    destruct pat; [|discriminate]. destruct b; cbn; lia.
  - cbn [app index_from].
    destruct (starts_with pat (c :: a)) eqn:E.
    + change (c :: a ++ b) with ((c :: a) ++ b).
      rewrite (starts_with_app _ _ _ E). lia.
    + destruct (starts_with pat (c :: a ++ b)); [lia|].
      apply IH; [lia|assumption].
Qed.

Lemma includes_app (a b pat : jstring) :
  includes a pat = true -> includes (a ++ b) pat = true.
Proof.
  unfold includes. rewrite (indexOf_0 a), (indexOf_0 (a ++ b)). intros H.
  apply Z.leb_le in H. apply Z.leb_le.
  apply index_from_app; [lia|exact H].
Qed.

Ltac decide_match :=
  match goal with
  | |- context [matches ?b ?d] =>
      let r := eval vm_compute in (matches b d) in
      replace (matches b d) with r by (vm_compute; reflexivity);
      cbv iota
  end.

Lemma resolve_example_org : resolveInject (js "https://example.org") = default.
Proof.
  unfold resolveInject, deepSearchInjects. cbn [find_inject].
  repeat decide_match. reflexivity.
Qed.

Lemma resolve_google_www :
  resolveInject (js "https://www.google.com/x") = google.
Proof.
  unfold resolveInject, deepSearchInjects. cbn [find_inject].
  repeat decide_match. reflexivity.
Qed.

Lemma resolve_google_bare : resolveInject (js "https://google.com") = google.
Proof.
  unfold resolveInject, deepSearchInjects. cbn [find_inject].
  repeat decide_match. reflexivity.
Qed.

Lemma default_host_example_org :
  default_host (js "https://example.org") = js "example.org".
Proof. vm_compute. reflexivity. Qed.

Lemma site_keyword (keyword : jstring) :
  js "site:" ++ js "example.org" ++ js " " ++ keyword
  = js "site:example.org " ++ keyword.
Proof.
  rewrite !app_assoc; f_equal; try (vm_compute; reflexivity).
Qed.

Lemma default_url_example (keyword : jstring) :
  match buildDeepSearchUrl (js "https://example.org") keyword with
  | Some (f, u) =>
      f = js "google.js" /\ includes u (js "site%3Aexample.org") = true
  | None => encodeURIComponent keyword = None
  end.
Proof.
  unfold buildDeepSearchUrl. rewrite resolve_example_org.
  cbn [default buildSearchUrl filename].
  rewrite default_host_example_org.
  rewrite site_keyword.
  unfold encodeURIComponent.
  rewrite (encode_app _ _ _ (js "site%3Aexample.org%20")).
  - destruct (encode uri_unreserved keyword) as [e|]; cbn [option_map];
      [|reflexivity].
    split; [reflexivity|].
    rewrite app_assoc. apply includes_app. vm_compute. reflexivity.
  - vm_compute. reflexivity.
  - vm_compute. reflexivity.
Qed.

(** ** The candidate of well-formed URLs *)

Lemma index_from_skip (p : Z) (pat a b : jstring) (k : Z) :
  Forall (fun c => c <> p) a ->
  index_from (p :: pat) (a ++ b) k = index_from (p :: pat) b (k + len a).
Proof.
  intros Ha. revert k. induction Ha as [|c a Hc Ha IH]; intros k.
  - cbn [app]. unfold len. cbn [length]. f_equal. lia.
  - cbn [app index_from starts_with].
    destruct (Z.eqb_spec p c) as [->|_]; [contradiction|]. cbn [andb].
    rewrite IH. f_equal. unfold len. cbn [length]. lia.
Qed.

Lemma index_from_here (pat b : jstring) (k : Z) :
  starts_with pat b = true -> index_from pat b k = k.
Proof. intros H. destruct b; cbn [index_from]; rewrite H; reflexivity. Qed.

Lemma indexOf_at (s pat : jstring) (a b : jstring) :
  s = a ++ b ->
  indexOf s pat (len a) = index_from pat b (len a).
Proof.
  intros ->. unfold indexOf, clamp, len. rewrite length_app.
  replace (Z.min (Z.max (Z.of_nat (length a)) 0)
             (Z.of_nat (length a + length b)))
    with (Z.of_nat (length a)) by lia.
  rewrite Nat2Z.id, drop_app_length. reflexivity.
Qed.

Lemma substring_prefix (a b : jstring) :
  substring (a ++ b) 0 (len a) = a.
Proof.
  unfold substring, clamp, len. rewrite length_app.
  replace (Z.min (Z.max 0 0) (Z.of_nat (length a + length b))) with 0 by lia.
  replace (Z.min (Z.max (Z.of_nat (length a)) 0)
             (Z.of_nat (length a + length b)))
    with (Z.of_nat (length a)) by lia.
  rewrite Z.min_l, Z.max_r by lia. cbn [Z.to_nat drop].
  rewrite Z.sub_0_r, Nat2Z.id. apply take_app_length.
Qed.

(** For [scheme://host/path] and [scheme://host] the candidate is
    [scheme://host]: the URL up to the first slash of the path. *)
Lemma baseUrl_scheme_host (scheme host path : jstring) :
  Forall (fun c => c <> 47) scheme ->
  Forall (fun c => c <> 47) host ->
  baseUrl (scheme ++ js "://" ++ host ++ js "/" ++ path)
  = scheme ++ js "://" ++ host
  /\ baseUrl (scheme ++ js "://" ++ host) = scheme ++ js "://" ++ host.
Proof.
  intros Hs Hh. unfold baseUrl. change (js "://") with [58; 47; 47].
  change (js "/") with [47]. change (js "//") with [47; 47].
  assert (Hsep : forall rest,
             indexOf (scheme ++ [58; 47; 47] ++ rest) [47; 47] 0
             = len scheme + 1).
  { intros rest. rewrite indexOf_0, index_from_skip by exact Hs.
    cbn [app index_from starts_with Z.eqb andb Pos.eqb]. lia. }
  assert (Hpre : forall rest,
             scheme ++ [58; 47; 47] ++ rest
             = (scheme ++ [58; 47; 47]) ++ rest).
  { intros rest. rewrite <- app_assoc. reflexivity. }
  assert (Hlen : len (scheme ++ [58; 47; 47]) = len scheme + 1 + 2).
  { unfold len. rewrite length_app. cbn [length]. lia. }
  split; rewrite Hsep, <- Hlen.
  - rewrite (indexOf_at _ _ _ _ (Hpre (host ++ [47] ++ path))).
    rewrite index_from_skip by exact Hh.
    rewrite index_from_here by reflexivity.
    assert (Hpos : (-1 <? len (scheme ++ [58; 47; 47]) + len host) = true)
      by (apply Z.ltb_lt; unfold len; lia).
    rewrite Hpos.
    replace (len (scheme ++ [58; 47; 47]) + len host)
      with (len ((scheme ++ [58; 47; 47]) ++ host))
      by (unfold len; rewrite !length_app; lia).
    rewrite Hpre, app_assoc, substring_prefix, <- app_assoc. reflexivity.
  - rewrite (indexOf_at _ _ _ _ (Hpre host)).
    rewrite <- (app_nil_r host) at 1.
    rewrite index_from_skip by exact Hh. reflexivity.
Qed.

(** * Listener keys *)

Lemma digit_value_snoc (ds : jstring) (d : Z) :
  digit_value (ds ++ [d])
  = (10 * digit_value ds + (Z.to_nat d - 48))%nat.
Proof. unfold digit_value. rewrite fold_left_app. reflexivity. Qed.

Lemma decimal_go_spec (fuel n : nat) (acc : jstring) :
  (n < fuel)%nat ->
  exists ds,
    decimal_go fuel n acc = ds ++ acc
    /\ Forall (fun c => is_digit c = true) ds
    /\ digit_value ds = n.
Proof.
  revert n acc. induction fuel as [|fuel IH]; intros n acc Hn; [lia|].
  cbn [decimal_go].
  assert (Hd : is_digit (Z.of_nat (48 + n mod 10)) = true).
  { pose proof (Nat.mod_upper_bound n 10). unfold is_digit.
    apply andb_true_iff. split; apply Z.leb_le; lia. }
  destruct (Nat.ltb_spec n 10) as [Hlt|Hge].
  - exists [Z.of_nat (48 + n mod 10)]. split; [reflexivity|].
    split; [constructor; [exact Hd|constructor]|].
    rewrite Nat.mod_small by exact Hlt. cbn. lia.
  - destruct (IH (n / 10)%nat (Z.of_nat (48 + n mod 10) :: acc))
      as (ds & Hgo & Hds & Hval).
    { pose proof (Nat.div_lt n 10). lia. }
    exists (ds ++ [Z.of_nat (48 + n mod 10)]). split; [|split].
    + rewrite Hgo, <- app_assoc. reflexivity.
    + apply Forall_app. split; [exact Hds|]. constructor; [exact Hd|constructor].
    + rewrite digit_value_snoc, Hval.
      pose proof (Nat.div_mod_eq n 10). lia.
Qed.

Lemma decimal_spec (n : nat) :
  Forall (fun c => is_digit c = true) (decimal n)
  /\ digit_value (decimal n) = n.
Proof.
  destruct (decimal_go_spec (S n) n [] ltac:(lia)) as (ds & Hgo & Hds & Hval).
  unfold decimal. rewrite Hgo, app_nil_r. split; assumption.
Qed.

Lemma decimal_inj (n m : nat) : decimal n = decimal m -> n = m.
Proof.
  intros H. rewrite <- (proj2 (decimal_spec n)), <- (proj2 (decimal_spec m)).
  rewrite H. reflexivity.
Qed.

(** Two strings of digits followed by an underscore can be told apart at
    the underscore. *)
Lemma digits_split (a b x y : jstring) :
  Forall (fun c => is_digit c = true) a ->
  Forall (fun c => is_digit c = true) b ->
  a ++ 95 :: x = b ++ 95 :: y -> a = b /\ x = y.
Proof.
  intros Ha. revert b. induction Ha as [|c a Hc Ha IH]; intros b Hb H.
  - destruct Hb as [|d b Hd Hb]; cbn in H.
    + injection H as ->. auto.
    + injection H as <- _. discriminate.
  - destruct Hb as [|d b Hd Hb]; cbn in H.
    + injection H as -> _. discriminate.
    + injection H as -> H. destruct (IH b Hb H) as [-> ->]. auto.
Qed.

Lemma digits_no_underscore (a b x : jstring) :
  Forall (fun c => is_digit c = true) a ->
  Forall (fun c => is_digit c = true) b ->
  a <> b ++ 95 :: x.
Proof.
  intros Ha. revert b. induction Ha as [|c a Hc Ha IH]; intros b Hb H.
  - destruct b; discriminate.
  - destruct Hb as [|d b Hd Hb]; cbn in H.
    + injection H as -> _. discriminate.
    + injection H as _ H. exact (IH b Hb H).
Qed.

(** For one task, the keys of two listeners are equal only when their
    indices are: the ids of the model stand for the keys of the source. *)
Lemma eventKey_inj (taskId : jstring) (e e' : EventId) :
  eventKey taskId e = eventKey taskId e' -> e = e'.
Proof.
  destruct e as [i|i j], e' as [i'|i' j']; cbn [eventKey]; intros H;
    apply app_inv_head in H; change (js "_") with [95] in H;
    cbn [app] in H; injection H as H;
    pose proof (proj1 (decimal_spec i)) as Hi;
    pose proof (proj1 (decimal_spec i')) as Hi'.
  - f_equal. apply decimal_inj. exact H.
  - exfalso. exact (digits_no_underscore _ _ _ Hi Hi' H).
  - exfalso. symmetry in H. exact (digits_no_underscore _ _ _ Hi' Hi H).
  - destruct (digits_split _ _ _ _ Hi Hi' H) as [Ha Hb].
    apply decimal_inj in Ha, Hb. congruence.
Qed.

Example eventKey_example :
  eventKey (js "1730486400000") (Ev2 0 12) = js "1730486400000_0_12".
Proof. vm_compute. reflexivity. Qed.

(** * Listeners, one by one *)

Lemma eid_eqb_spec (a b : EventId) : reflect (a = b) (eid_eqb a b).
Proof.
  destruct a as [i|i j], b as [i'|i' j']; cbn; try (constructor; congruence).
  - destruct (Nat.eqb_spec i i'); constructor; congruence.
  - destruct (Nat.eqb_spec i i'), (Nat.eqb_spec j j'); constructor; congruence.
Qed.

Lemma eid_eqb_refl (a : EventId) : eid_eqb a a = true.
Proof. destruct (eid_eqb_spec a a); congruence. Qed.

Lemma eid_eqb_sym (a b : EventId) : eid_eqb a b = eid_eqb b a.
Proof. destruct (eid_eqb_spec a b), (eid_eqb_spec b a); congruence. Qed.

Lemma eid_eqb_neq (a b : EventId) : a <> b -> eid_eqb a b = false.
Proof. destruct (eid_eqb_spec a b); congruence. Qed.

Section Counting.
Context {A : Type} (p : A -> bool).

Lemma count_by_nil : count_by p [] = 0%nat.
Proof. reflexivity. Qed.

Lemma count_by_cons (x : A) (l : list A) :
  count_by p (x :: l) = ((if p x then 1 else 0) + count_by p l)%nat.
Proof. unfold count_by. cbn. destruct (p x); reflexivity. Qed.

Lemma count_by_app (l l' : list A) :
  count_by p (l ++ l') = (count_by p l + count_by p l')%nat.
Proof. unfold count_by. rewrite List.filter_app, length_app. reflexivity. Qed.

Lemma count_by_elem (x : A) (l : list A) :
  x ∈ l -> p x = true -> (1 <= count_by p l)%nat.
Proof.
  induction 1 as [x l|x y l _ IH]; intros Hp; rewrite count_by_cons.
  - rewrite Hp. lia.
  - specialize (IH Hp). lia.
Qed.

Lemma count_by_delete (k : nat) (x : A) (l : list A) :
  l !! k = Some x ->
  count_by p l = ((if p x then 1 else 0) + count_by p (delete k l))%nat.
Proof.
  unfold delete.
  revert k. induction l as [|y l IH]; intros [|k] H; try discriminate.
  - injection H as ->. cbn [list_delete]. apply count_by_cons.
  - cbn in H. cbn [list_delete]. unfold delete. rewrite !count_by_cons.
    rewrite (IH k H). lia.
Qed.

End Counting.

Lemma count_removeListener (e e0 : EventId) (bus : list (EventId * Listener)) :
  count_by (fun p => eid_eqb e (fst p)) (removeListener e0 bus)
  = if eid_eqb e e0 then 0%nat
    else count_by (fun p => eid_eqb e (fst p)) bus.
Proof.
  induction bus as [|[e1 l1] bus IH].
  - cbn. destruct (eid_eqb e e0); reflexivity.
  - cbn [removeListener List.filter fst]. fold (removeListener e0 bus).
    destruct (eid_eqb_spec e1 e0) as [->|Hne]; cbn [negb].
    + rewrite IH. destruct (eid_eqb e e0) eqn:E; [reflexivity|].
      rewrite count_by_cons. cbn [fst]. rewrite E. reflexivity.
    + rewrite !count_by_cons, IH. cbn [fst].
      destruct (eid_eqb_spec e e0) as [->|Hne']; [|reflexivity].
      rewrite (eid_eqb_neq e0 e1) by congruence. reflexivity.
Qed.

Lemma has_listener_count (e : EventId) (bus : list (EventId * Listener)) :
  has_listener e bus
  = negb (Nat.eqb (count_by (fun p => eid_eqb e (fst p)) bus) 0).
Proof.
  induction bus as [|[e1 l1] bus IH]; [reflexivity|].
  cbn [has_listener existsb fst]. fold (has_listener e bus).
  rewrite count_by_cons, IH. cbn [fst]. rewrite (eid_eqb_sym e1 e).
  destruct (eid_eqb e e1); reflexivity.
Qed.

Lemma has_listener_cases (e : EventId) (bus : list (EventId * Listener)) :
  (has_listener e bus = true
   /\ (1 <= count_by (fun p => eid_eqb e (fst p)) bus)%nat)
  \/ (has_listener e bus = false
      /\ count_by (fun p => eid_eqb e (fst p)) bus = 0%nat).
Proof.
  rewrite has_listener_count.
  destruct (Nat.eqb_spec (count_by (fun p => eid_eqb e (fst p)) bus) 0);
    cbn [negb]; [right|left]; split; auto; lia.
Qed.

Lemma keyed_removeListener (e : EventId) (bus : list (EventId * Listener)) :
  Forall (fun p => eventId (snd p) = fst p) bus ->
  Forall (fun p => eventId (snd p) = fst p) (removeListener e bus).
Proof.
  intros H. unfold removeListener. 
  induction H as [|p bus Hp H IH]; cbn; [constructor|].
  destruct (negb _); [constructor|]; assumption.
Qed.

Ltac unfold_obs :=
  unfold registered, in_flight, branches, closes, countdowns, removals,
    rejections in *.

Ltac proj_norm :=
  cbn [pc searchs detailsMaxNum window listeners suspended detailLinkGroups
       discoveryLatch contentLatch searchInfo log
       total running succeed failed failedLinks
       page_finally unsubscribe subscribe countDown1 countDown2
       add_running incr_succeed record_failure write_link
       emit set_pc set_window set_listeners set_suspended
       set_detailLinkGroups set_discoveryLatch set_contentLatch
       set_searchInfo].

Ltac obs_norm :=
  proj_norm;
  rewrite ?count_by_app, ?count_by_cons, ?count_by_nil,
    ?count_removeListener;
  cbn [is_branch is_close is_countdown is_removal is_rejection
       fst snd eventId].

(** Settle the stage of [e] after an operation of a listener, from its
    stage before. *)
Ltac stage_norm :=
  unfold at_stage; unfold_obs; obs_norm;
  repeat match goal with
         | H : has_listener _ _ = _ |- _ => rewrite H; clear H
         end;
  repeat match goal with
         | |- context [eid_eqb ?a ?b] => destruct (eid_eqb_spec a b); subst
         end.

Ltac stage_solve := repeat split; solve [lia | congruence | eauto].

Ltac restage := stage_norm; stage_solve.

Ltac pick_stage :=
  stage_norm;
  first [ exists Idle; stage_solve | exists Registered; stage_solve
        | exists InFlight; stage_solve | exists Finished; stage_solve
        | exists Failed; stage_solve ].

Lemma on_updated_Inv (s : State) (l : Listener) (e0 : EventId) (tabId : Z) (status : Status) :
  Inv s -> (e0, l) ∈ listeners s -> Inv (on_updated l tabId status s).
Proof.
  intros [Hk Hs] Hin.
  assert (He0 : eventId l = e0).
  { unfold keyed in Hk. rewrite Forall_forall in Hk. apply (Hk _ Hin). }
  assert (Hreg : (1 <= registered e0 s)%nat).
  { unfold registered. eapply count_by_elem; [exact Hin|]. cbn. apply eid_eqb_refl. }
  split.
  - unfold keyed in *. destruct l; unfold on_updated; destruct (negb _); try assumption;
    destruct status; try assumption; proj_norm; 
    apply keyed_removeListener; assumption.
  - intros e. specialize (Hs e). destruct Hs as [[st Hst] Hfresh].
    assert (Hpc : pc (on_updated l tabId status s) = pc s).
    { destruct l; unfold on_updated; destruct (negb _); try reflexivity;
      destruct status; reflexivity. }
    rewrite Hpc.
    destruct (has_listener_cases e0 (listeners s)) as [[Hh Hc]|[Hh Hc]].
    all: destruct l; cbn [eventId] in *; subst e0;
    unfold on_updated; destruct (negb _); try (split; eauto; fail);
    destruct status; try (split; eauto; fail).
    all: unfold at_stage in Hst, Hfresh; unfold_obs.
    all: split; [|intros Hnc; specialize (Hfresh Hnc)]. 
    all: try restage.
    all: match goal with
         | |- context [Ev1 ?i] => destruct (eid_eqb_spec e (Ev1 i))
         | |- context [Ev2 ?i ?j] => destruct (eid_eqb_spec e (Ev2 i j))
         end; subst.
    all: destruct st; destruct_and?.
    all: try lia.
    all: pick_stage.
Qed.

Lemma on_updated_pc (l : Listener) (tabId : Z) (status : Status) (s : State) :
  pc (on_updated l tabId status s) = pc s.
Proof.
  destruct l; unfold on_updated; destruct (negb _); try reflexivity;
    destruct status; reflexivity.
Qed.

Lemma on_updated_listeners (l : Listener) (tabId : Z) (status : Status)
    (s : State) :
  listeners (on_updated l tabId status s) = listeners s
  \/ listeners (on_updated l tabId status s)
     = removeListener (eventId l) (listeners s).
Proof.
  destruct l; unfold on_updated; destruct (negb _); auto;
    destruct status; auto.
Qed.

Lemma Inv_registered_once (s : State) (e : EventId) :
  Inv s -> (registered e s <= 1)%nat.
Proof.
  intros [_ Hs]. destruct (Hs e) as [[st Hst] _].
  destruct st; unfold at_stage in Hst; lia.
Qed.

Lemma elem_of_removeListener (p : EventId * Listener) (e : EventId)
    (bus : list (EventId * Listener)) :
  p ∈ bus -> fst p <> e -> p ∈ removeListener e bus.
Proof.
  intros Hin Hne. unfold removeListener.
  apply list_elem_of_In, List.filter_In. split.
  - apply list_elem_of_In. exact Hin.
  - rewrite (eid_eqb_neq _ _ Hne). reflexivity.
Qed.

(** Delivery to a snapshot of the listeners: whatever every listener of a
    well-formed state preserves, [publish] preserves. *)
Lemma publish_preserves (Q : State -> Prop) (tabId : Z) (status : Status) :
  (forall s p, Inv s -> Q s -> p ∈ listeners s ->
               Q (on_updated (snd p) tabId status s)) ->
  forall s, Inv s -> Q s ->
            Inv (publish tabId status s) /\ Q (publish tabId status s).
Proof.
  intros HQ s HI Hq. unfold publish.
  assert (Hnd : NoDup (map fst (listeners s))).
  { destruct HI as [_ Hs]. clear -Hs.
    assert (H : forall e, (registered e s <= 1)%nat).
    { intros e. destruct (Hs e) as [[st Hst] _].
      destruct st; unfold at_stage in Hst; lia. }
    unfold registered in H. induction (listeners s) as [|[e l] bus IH].
    - constructor.
    - cbn [map fst]. constructor.
      + intros Hin. apply list_elem_of_fmap in Hin as [[e' l'] [He Hin]].
        cbn in He. subst e'.
        specialize (H e). rewrite count_by_cons in H. cbn [fst] in H.
        rewrite eid_eqb_refl in H.
        pose proof (count_by_elem (fun p => eid_eqb e (fst p)) _ _ Hin
                      (eid_eqb_refl e)). lia.
      + apply IH. intros e'. specialize (H e').
        rewrite count_by_cons in H. lia. }
  assert (Hsub : forall p, p ∈ listeners s -> p ∈ listeners s) by auto.
  revert Hnd Hsub. generalize (listeners s) at 1 2 4 5 as snapshot.
  intros snapshot. revert s HI Hq.
  induction snapshot as [|p snapshot IH]; intros s HI Hq Hnd Hsub.
  - split; assumption.
  - cbn [fold_left]. 
    assert (Hp : p ∈ listeners s) by (apply Hsub; left).
    apply IH.
    + destruct p as [e l]. eapply on_updated_Inv; eauto.
    + apply HQ; auto.
    + inversion Hnd; assumption.
    + intros q Hq'. 
      assert (Hqs : q ∈ listeners s) by (apply Hsub; right; exact Hq').
      destruct (on_updated_listeners (snd p) tabId status s) as [->| ->];
        [exact Hqs|].
      apply elem_of_removeListener; [exact Hqs|].
      destruct HI as [Hk _]. unfold keyed in Hk. rewrite Forall_forall in Hk.
      rewrite (Hk p Hp). inversion Hnd as [|? ? Hnotin _]; subst.
      intros Heq. apply Hnotin. rewrite <- Heq.
      apply list_elem_of_fmap. exists q. split; [reflexivity|exact Hq'].
Qed.

Lemma publish_Inv (tabId : Z) (status : Status) (s : State) :
  Inv s -> Inv (publish tabId status s).
Proof.
  intros HI.
  apply (publish_preserves (fun _ => True) tabId status); auto.
Qed.

Lemma same_obs_refl (s : State) : same_obs s s.
Proof. unfold same_obs. repeat split; reflexivity. Qed.

Lemma same_obs_trans (s s' s'' : State) :
  same_obs s s' -> same_obs s' s'' -> same_obs s s''.
Proof.
  intros (Hl & Hu & Hc) (Hl' & Hu' & Hc'). unfold same_obs.
  split; [congruence|]. split; [congruence|].
  intros e. specialize (Hc e). specialize (Hc' e). intuition congruence.
Qed.

Lemma same_obs_stage (s s' : State) (e : EventId) (st : Stage) :
  same_obs s s' -> at_stage e s st -> at_stage e s' st.
Proof.
  intros (Hl & Hu & Hc). specialize (Hc e).
  destruct st; unfold at_stage, registered, in_flight;
    rewrite Hl, Hu; intuition congruence.
Qed.

Ltac quiet :=
  unfold same_obs; unfold_obs; obs_norm;
  (split; [reflexivity|split; [reflexivity|intros ?; repeat split; reflexivity]]).

Lemma discovery_loop_obs (rest : list SearchRequest) (i : nat) (s : State) :
  same_obs s (discovery_loop rest i s).
Proof.
  revert i s. induction rest as [|search rest IH]; intros i s;
    cbn [discovery_loop].
  - quiet.
  - destruct (buildDeepSearchUrl _ _) as [[f u]|].
    + quiet.
    + eapply same_obs_trans; [|apply IH]. quiet.
Qed.

Lemma content_loop_obs (groups : list LinkGroup) (i j : nat) (s : State) :
  same_obs s (content_loop groups i j s).
Proof.
  revert i j s. induction groups as [|g groups IH]; intros i j s;
    cbn [content_loop].
  - quiet.
  - destruct (group_links g !! j); [quiet|apply IH].
Qed.

Lemma discovery_loop_pc (rest : list SearchRequest) (i : nat) (s : State) :
  pc (discovery_loop rest i s) = AwaitLatch1
  \/ exists k f u, (i <= k)%nat /\ pc (discovery_loop rest i s) = AwaitTab1 k f u.
Proof.
  revert i s. induction rest as [|search rest IH]; intros i s;
    cbn [discovery_loop].
  - left. reflexivity.
  - destruct (buildDeepSearchUrl _ _) as [[f u]|].
    + right. exists i, f, u. split; [lia|reflexivity].
    + destruct (IH (S i) (countDown1 None s)) as [H|(k & f & u & Hk & H)];
        [left; exact H|].
      right. exists k, f, u. split; [lia|exact H].
Qed.

Lemma content_loop_pc (groups : list LinkGroup) (i j : nat) (s : State) :
  pc (content_loop groups i j s) = AwaitLatch2
  \/ pc (content_loop groups i j s) = AwaitTab2 i j
  \/ exists i' j', (i < i')%nat /\ pc (content_loop groups i j s) = AwaitTab2 i' j'.
Proof.
  revert i j s. induction groups as [|g groups IH]; intros i j s;
    cbn [content_loop].
  - left. reflexivity.
  - destruct (group_links g !! j).
    + right. left. reflexivity.
    + destruct (IH (S i) 0%nat s) as [H|[H|(i' & j' & Hi & H)]].
      * left. exact H.
      * right. right. exists (S i), 0%nat. split; [lia|exact H].
      * right. right. exists i', j'. split; [lia|exact H].
Qed.

Lemma staged_at_mono (p p' : Pc) (s s' : State) :
  (forall e, created p e -> created p' e) ->
  same_obs s s' -> staged_at p s -> staged_at p' s'.
Proof.
  intros Hc Ho Hs e. destruct (Hs e) as [[st Hst] Hfresh]. split.
  - exists st. eapply same_obs_stage; eauto.
  - intros Hn. eapply same_obs_stage; eauto.
Qed.

Lemma keyed_same (s s' : State) : same_obs s s' -> keyed s -> keyed s'.
Proof. intros (Hl & _). unfold keyed. rewrite Hl. auto. Qed.

Lemma resume_Inv (s : State) (k : nat) (l : Listener) (o : Outcome) :
  Inv s -> suspended s !! k = Some l ->
  Inv (resume l o (set_suspended (delete k (suspended s)) s)).
Proof.
  intros [Hk Hs] Hl. split.
  - unfold keyed in *. destruct l, o as [| |[r|]]; cbn [resume]; proj_norm;
      try assumption; apply keyed_removeListener; assumption.
  - intros e. specialize (Hs e). destruct Hs as [[st Hst] Hfresh].
    assert (Hpc : pc (resume l o (set_suspended (delete k (suspended s)) s))
                  = pc s).
    { destruct l, o as [| |[r|]]; reflexivity. }
    rewrite Hpc.
    pose proof (count_by_delete (fun l => eid_eqb e (eventId l)) _ _ _ Hl)
      as Hdel.
    pose proof (count_by_delete
                  (fun l0 => eid_eqb (eventId l) (eventId l0)) _ _ _ Hl)
      as Hdel0.
    cbn beta in Hdel, Hdel0. rewrite eid_eqb_refl in Hdel0.
    destruct (has_listener_cases (eventId l) (listeners s))
      as [[Hh Hc]|[Hh Hc]].
    all: unfold at_stage in Hst, Hfresh; unfold_obs.
    all: split; [|intros Hnc; specialize (Hfresh Hnc)].
    all: destruct (eid_eqb_spec e (eventId l)); subst.
    all: destruct l, o as [| |[r|]]; cbn [resume eventId] in *.
    all: try (rewrite eid_eqb_neq in Hdel by assumption).
    all: try (rewrite eid_eqb_refl in Hdel).
    all: try (destruct st; destruct_and?).
    all: try lia.
    all: try restage.
    all: pick_stage.
Qed.

Lemma subscribe_Inv (p p' : Pc) (l : Listener) (s : State) :
  keyed s -> staged_at p s -> ~ created p (eventId l) ->
  (forall e, created p e \/ e = eventId l -> created p' e) ->
  keyed (subscribe l s) /\ staged_at p' (subscribe l s).
Proof.
  intros Hk Hs Hnew Hmono. split.
  - unfold keyed, subscribe, addListener in *. proj_norm.
    apply Forall_app. split; [apply keyed_removeListener; assumption|].
    constructor; [reflexivity|constructor].
  - intros e. destruct (Hs e) as [[st Hst] Hfresh].
    destruct (eid_eqb_spec e (eventId l)) as [->|Hne].
    + specialize (Hfresh Hnew). split.
      * exists Registered. unfold at_stage in *. unfold subscribe, addListener.
        unfold_obs. obs_norm. rewrite eid_eqb_refl. repeat split; lia.
      * intros Hn. exfalso. apply Hn, Hmono. right. reflexivity.
    + assert (Hsame : forall st', at_stage e s st' ->
                                  at_stage e (subscribe l s) st').
      { intros st'. unfold subscribe, addListener.
        destruct st'; unfold at_stage; unfold_obs; obs_norm;
          rewrite (eid_eqb_neq _ _ Hne); rewrite ?Nat.add_0_r; auto. }
      split; [exists st; auto|].
      intros Hn. apply Hsame, Hfresh. intros Hc. apply Hn, Hmono. left. exact Hc.
Qed.

Lemma Inv_intro (s : State) : keyed s -> staged_at (pc s) s -> Inv s.
Proof. intros. split; assumption. Qed.

Lemma tab1_created_Inv (i : nat) (f u : jstring) (r : option Z) (s : State) :
  Inv s -> pc s = AwaitTab1 i f u -> Inv (tab1_created i f u r s).
Proof.
  intros [Hk Hs] Hpc. unfold staged in Hs. rewrite Hpc in Hs.
  unfold tab1_created.
  set (s1 := match r with
             | Some tab => subscribe (DetailLinks tab i f u) s
             | None => countDown1 None s
             end).
  assert (H1 : keyed s1 /\ staged_at (AwaitTab1 (S i) f u) s1).
  { subst s1. destruct r as [tab|].
    - apply (subscribe_Inv (AwaitTab1 i f u)); auto.
      + cbn. lia.
      + intros [k|a b]; cbn; intros [H| H]; try lia; try discriminate.
        injection H as ->. lia.
    - split; [exact Hk|].
      eapply staged_at_mono; [| |exact Hs]; [|quiet].
      intros [k|a b]; cbn; lia. }
  destruct H1 as [Hk1 Hs1].
  pose proof (discovery_loop_obs (drop (S i) (searchs s1)) (S i) s1) as Ho.
  apply Inv_intro; [eapply keyed_same; eauto|].
  eapply staged_at_mono; [|exact Ho|exact Hs1].
  destruct (discovery_loop_pc (drop (S i) (searchs s1)) (S i) s1)
    as [->|(k & f' & u' & Hk' & ->)]; intros [a|a b]; cbn; lia.
Qed.

Lemma doDetailLinkGroups_Inv (w : Z) (s : State) :
  Inv s -> pc s = AwaitWindow -> Inv (doDetailLinkGroups (set_window w s)).
Proof.
  intros [Hk Hs] Hpc. unfold staged in Hs. rewrite Hpc in Hs.
  unfold doDetailLinkGroups.
  match goal with
  | |- Inv (discovery_loop ?r ?i ?s1) =>
      pose proof (discovery_loop_obs r i s1) as Ho;
      pose proof (discovery_loop_pc r i s1) as Hp;
      assert (Ho1 : same_obs s s1) by quiet
  end.
  apply Inv_intro; [eapply keyed_same; [|exact Hk]; eapply same_obs_trans; eauto|].
  eapply staged_at_mono; [|eapply same_obs_trans; eauto|exact Hs].
  intros e []. 
Qed.

Lemma doPageContent_Inv (s : State) :
  Inv s -> pc s = AwaitLatch1 -> Inv (doPageContent s).
Proof.
  intros [Hk Hs] Hpc. unfold staged in Hs. rewrite Hpc in Hs.
  unfold doPageContent.
  match goal with
  | |- Inv (content_loop ?r ?i ?j ?s1) =>
      pose proof (content_loop_obs r i j s1) as Ho;
      pose proof (content_loop_pc r i j s1) as Hp;
      assert (Ho1 : same_obs s s1) by quiet
  end.
  apply Inv_intro; [eapply keyed_same; [|exact Hk]; eapply same_obs_trans; eauto|].
  eapply staged_at_mono; [|eapply same_obs_trans; eauto|exact Hs].
  destruct Hp as [->|[->|(i' & j' & Hi & ->)]]; intros [a|a b]; cbn; tauto.
Qed.

Lemma tab2_created_Inv (i j : nat) (r : option Z) (s : State) :
  Inv s -> pc s = AwaitTab2 i j -> Inv (tab2_created i j r s).
Proof.
  intros [Hk Hs] Hpc. unfold staged in Hs. rewrite Hpc in Hs.
  unfold tab2_created. destruct r as [tab|].
  - set (f := match detailLinkGroups s !! i with
              | Some g => group_filename g
              | None => []
              end).
    assert (Hk0 : keyed (add_running 1 s)) by exact Hk.
    assert (Hs0 : staged_at (AwaitTab2 i j) (add_running 1 s)).
    { eapply staged_at_mono; [| |exact Hs]; [auto|quiet]. }
    destruct (subscribe_Inv (AwaitTab2 i j) (AwaitTab2 i (S j))
                (PageContent tab i j f) _ Hk0 Hs0) as [Hk1 Hs1].
    { cbn. lia. }
    { intros [k|a b]; cbn; intros [H|H]; try tauto; try discriminate; try lia.
      injection H as -> ->. lia. }
    match goal with
    | |- Inv (content_loop ?r ?i ?j ?s1) =>
        pose proof (content_loop_obs r i j s1) as Ho;
        pose proof (content_loop_pc r i j s1) as Hp
    end.
    apply Inv_intro; [eapply keyed_same; eauto|].
    eapply staged_at_mono; [|exact Ho|exact Hs1].
    destruct Hp as [->|[->|(i' & j' & Hi & ->)]]; intros [a|a b]; cbn;
      try tauto; lia.
  - apply Inv_intro; [exact Hk|].
    eapply staged_at_mono; [| |exact Hs]; [|quiet].
    intros e _. destruct e; exact I.
Qed.

Lemma finish_Inv (s : State) : Inv s -> Inv (finish s).
Proof.
  intros [Hk Hs]. apply Inv_intro; [exact Hk|].
  eapply staged_at_mono; [| |exact Hs]; [|quiet].
  intros e _. destruct e; exact I.
Qed.

Lemma step_Inv (l : Label) (s : State) : Inv s -> Inv (step l s).
Proof.
  intros HI. destruct l as [r|r|tabId status|k o| |]; cbn [step].
  - destruct (pc s) eqn:Hpc; try exact HI. destruct r as [w|].
    + apply doDetailLinkGroups_Inv; assumption.
    + destruct HI as [Hk Hs]. apply Inv_intro; [exact Hk|].
      eapply staged_at_mono; [| |exact Hs]; [|quiet].
      intros e _. destruct e; exact I.
  - destruct (pc s) eqn:Hpc; try exact HI.
    + apply tab1_created_Inv; assumption.
    + apply tab2_created_Inv; assumption.
  - apply publish_Inv. exact HI.
  - destruct (suspended s !! k) as [l|] eqn:Hl; [|exact HI].
    apply resume_Inv; assumption.
  - destruct (pc s) eqn:Hpc; try exact HI.
    + destruct (Nat.eqb _ _); [|exact HI]. apply doPageContent_Inv; assumption.
    + destruct (Nat.eqb _ _); [|exact HI]. apply finish_Inv; assumption.
  - destruct (pc s) eqn:Hpc; try exact HI.
    + apply doPageContent_Inv; assumption.
    + apply finish_Inv; assumption.
Qed.


Lemma deepSearch_Inv (searchs : list SearchRequest) (n : Z) : Inv (deepSearch searchs n).
Proof.
  split; [constructor|].
  intros e. split; [exists Idle|intros _]; cbn; repeat split; reflexivity.
Qed.


(** * The counters of a task started by [execute] *)

Lemma count_links_from_acc (groups : list LinkGroup) (n : Z) :
  fold_left (fun n g => n + Z.of_nat (length (group_links g))) groups n
  = n + links_from groups.
Proof.
  revert n.
  induction groups as [|g groups IH]; intros n; cbn [fold_left links_from].
  - lia.
  - rewrite IH. lia.
Qed.

Lemma count_links_from (groups : list LinkGroup) :
  count_links groups = links_from groups.
Proof. unfold count_links. rewrite count_links_from_acc. lia. Qed.

Lemma links_from_nonneg (groups : list LinkGroup) : 0 <= links_from groups.
Proof. induction groups; cbn [links_from]; lia. Qed.

Lemma drop_lookup_cons {A} (l : list A) (i : nat) (x : A) (rest : list A) :
  drop i l = x :: rest -> l !! i = Some x /\ drop (S i) l = rest.
Proof.
  revert i. induction l as [|y l IH]; intros [|i] H; cbn in *;
    try discriminate.
  - injection H as -> ->. split; [reflexivity|]. apply drop_0.
  - apply IH. exact H.
Qed.

Lemma links_from_drop (groups : list LinkGroup) (i : nat) (g : LinkGroup) :
  groups !! i = Some g ->
  links_from (drop i groups)
  = Z.of_nat (length (group_links g)) + links_from (drop (S i) groups).
Proof.
  intros H. rewrite (drop_S _ _ _ H). reflexivity.
Qed.

Lemma links_from_alter (f : list DetailLink -> list DetailLink)
    (groups : list LinkGroup) (i k : nat) :
  (forall l, length (f l) = length l) ->
  links_from (drop k (alter (alter_links f) i groups))
  = links_from (drop k groups).
Proof.
  intros Hf. unfold alter. revert i k.
  induction groups as [|g groups IH]; intros i k.
  - destruct i, k; reflexivity.
  - destruct i as [|i], k as [|k]; cbn [list_alter drop links_from].
    + cbn [alter_links group_links]. rewrite Hf. reflexivity.
    + reflexivity.
    + specialize (IH i 0%nat). rewrite !drop_0 in IH.
      rewrite IH. reflexivity.
    + apply IH.
Qed.

Lemma live_removeListener (k : EventId -> bool) (e0 : EventId)
    (bus : list (EventId * Listener)) :
  (count_by (fun p => k (fst p)) (removeListener e0 bus)
   + (if k e0 then count_by (fun p => eid_eqb e0 (fst p)) bus else 0)
   = count_by (fun p => k (fst p)) bus)%nat.
Proof.
  induction bus as [|[e1 l1] bus IH].
  - cbn. destruct (k e0); reflexivity.
  - cbn [removeListener List.filter fst]. fold (removeListener e0 bus).
    rewrite !count_by_cons. cbn [fst].
    destruct (eid_eqb_spec e1 e0) as [->|Hne]; cbn [negb].
    + rewrite eid_eqb_refl. destruct (k e0); lia.
    + rewrite count_by_cons. cbn [fst].
      rewrite (eid_eqb_neq e0 e1) by congruence. destruct (k e0); lia.
Qed.

Lemma registered_elem (s : State) (p : EventId * Listener) :
  Inv s -> p ∈ listeners s ->
  eventId (snd p) = fst p /\ registered (fst p) s = 1%nat.
Proof.
  intros HI Hin. split.
  - destruct HI as [Hk _]. unfold keyed in Hk. rewrite Forall_forall in Hk.
    apply Hk, Hin.
  - pose proof (Inv_registered_once s (fst p) HI).
    pose proof (count_by_elem (fun q => eid_eqb (fst p) (fst q)) _ _ Hin
                  (eid_eqb_refl _)) as H1.
    unfold registered in *. lia.
Qed.

Ltac agg_norm :=
  unfold single, counted, placed, live, todo in *;
  proj_norm;
  rewrite ?count_by_app, ?count_by_cons, ?count_by_nil;
  cbn [is_page is_detail fst snd eventId].

Lemma on_updated_single (s : State) (p : EventId * Listener) (tabId : Z)
    (status : Status) :
  Inv s -> single s -> p ∈ listeners s ->
  single (on_updated (snd p) tabId status s).
Proof.
  intros HI Hs Hin.
  destruct (registered_elem s p HI Hin) as [Hid Hreg].
  destruct p as [e0 l]. cbn [fst snd] in *. subst e0.
  pose proof (live_removeListener is_page (eventId l) (listeners s)) as Hp.
  pose proof (live_removeListener is_detail (eventId l) (listeners s)) as Hd.
  unfold registered in Hreg. rewrite Hreg in Hp, Hd.
  destruct l; cbn [eventId is_page is_detail] in *;
    unfold on_updated; destruct (negb _); try exact Hs;
    destruct status; try exact Hs.
  all: agg_norm.
  all: destruct Hs as (Hlen & Hc & Hpl).
  all: split; [exact Hlen|].
  all: destruct (pc s); destruct_and?; repeat split; try lia; eauto.
Qed.

Lemma in_flight_elem (s : State) (k : nat) (l : Listener) :
  Inv s -> suspended s !! k = Some l -> registered (eventId l) s = 0%nat.
Proof.
  intros [_ Hs] Hl. destruct (Hs (eventId l)) as [[st Hst] _].
  pose proof (count_by_delete (fun l0 => eid_eqb (eventId l) (eventId l0))
                _ _ _ Hl) as Hdel.
  cbn beta in Hdel. rewrite eid_eqb_refl in Hdel.
  destruct st; unfold at_stage, in_flight in Hst; lia.
Qed.

Lemma placed_alter (groups : list LinkGroup) (i j a b : nat)
    (c : DetailLink -> DetailLink) :
  (exists g link, groups !! a = Some g /\ group_links g !! b = Some link) ->
  exists g link,
    alter (alter_links (alter c j)) i groups !! a = Some g
    /\ group_links g !! b = Some link.
Proof.
  intros (g & link & Hg & Hl).
  destruct (decide (i = a)) as [->|Hne].
  - exists (alter_links (alter c j) g).
    destruct (decide (j = b)) as [->|Hne'].
    + exists (c link). split.
      * rewrite list_lookup_alter, decide_True by reflexivity. rewrite Hg. reflexivity.
      * cbn [alter_links group_links].
        rewrite list_lookup_alter, decide_True by reflexivity. rewrite Hl. reflexivity.
    + exists link. split.
      * rewrite list_lookup_alter, decide_True by reflexivity. rewrite Hg. reflexivity.
      * cbn [alter_links group_links].
        rewrite list_lookup_alter_ne by exact Hne'. exact Hl.
  - exists g, link. split; [|exact Hl].
    rewrite list_lookup_alter_ne by exact Hne. exact Hg.
Qed.

Lemma resume_single (s : State) (k : nat) (l : Listener) (o : Outcome) :
  Inv s -> single s -> suspended s !! k = Some l ->
  single (resume l o (set_suspended (delete k (suspended s)) s)).
Proof.
  intros HI Hs Hl.
  pose proof (in_flight_elem s k l HI Hl) as Hreg.
  pose proof (live_removeListener is_page (eventId l) (listeners s)) as Hp.
  pose proof (live_removeListener is_detail (eventId l) (listeners s)) as Hd.
  unfold registered in Hreg. rewrite Hreg in Hp, Hd.
  pose proof (count_by_delete (fun l0 => is_page (eventId l0)) _ _ _ Hl)
    as Hdp.
  pose proof (count_by_delete (fun l0 => is_detail (eventId l0)) _ _ _ Hl)
    as Hdd.
  cbn beta in Hdp, Hdd.
  destruct Hs as (Hlen & Hc & Hpl).
  assert (Hgroups : forall a b,
             (exists g link, detailLinkGroups s !! a = Some g
                             /\ group_links g !! b = Some link) ->
             (1 <= length (detailLinkGroups s))%nat).
  { intros a b (g & link & Hg & _). apply lookup_lt_Some in Hg. lia. }
  destruct l, o as [| |[r|]]; cbn [resume eventId is_page is_detail] in *.
  all: agg_norm.
  all: split; [exact Hlen|].
  all: destruct (pc s) eqn:Hpc; destruct_and?;
       try (specialize (Hgroups _ _ Hpl)).
  all: rewrite ?length_app, ?length_alter.
  all: rewrite ?links_from_alter by (intros; apply length_alter).
  all: cbn [length].
  all: repeat split; try lia; eauto.
  all: try (apply placed_alter; assumption).
Qed.

Lemma content_loop_fields (groups : list LinkGroup) (i j : nat) (s : State) :
  let s' := content_loop groups i j s in
  listeners s' = listeners s /\ suspended s' = suspended s
  /\ detailLinkGroups s' = detailLinkGroups s
  /\ searchInfo s' = searchInfo s /\ searchs s' = searchs s.
Proof.
  revert i j s. induction groups as [|g groups IH]; intros i j s;
    cbn [content_loop].
  - repeat split; reflexivity.
  - destruct (group_links g !! j); [repeat split; reflexivity|apply IH].
Qed.

(** Where the loops of [doPageContent] stop next. *)
Lemma content_loop_place (all rest : list LinkGroup) (i j : nat) (s : State) :
  drop i all = rest ->
  (forall g, all !! i = Some g -> (j <= length (group_links g))%nat) ->
  match pc (content_loop rest i j s) with
  | AwaitTab2 i' j' =>
      (exists g link, all !! i' = Some g /\ group_links g !! j' = Some link)
      /\ links_from (drop i' all) - Z.of_nat j'
         <= links_from (drop i all) - Z.of_nat j
  | AwaitLatch2 => True
  | _ => False
  end.
Proof.
  revert i j. induction rest as [|g rest IH]; intros i j Hdrop Hj;
    cbn [content_loop].
  - exact I.
  - apply drop_lookup_cons in Hdrop as [Hg Hrest].
    destruct (group_links g !! j) as [link|] eqn:Hlink; cbn [pc set_pc emit].
    + split; [exists g, link; auto|lia].
    + specialize (IH (S i) 0%nat Hrest).
      apply lookup_ge_None in Hlink. specialize (Hj g Hg).
      rewrite (links_from_drop _ _ _ Hg).
      destruct (pc (content_loop rest (S i) 0 s)); try (apply IH; intros; lia).
      destruct IH as [Hw Hle]; [intros; lia|]. split; [exact Hw|lia].
Qed.

Lemma live_subscribe (k : EventId -> bool) (l : Listener)
    (bus : list (EventId * Listener)) :
  (count_by (fun p => k (fst p)) (addListener l (eventId l) bus)
   <= count_by (fun p => k (fst p)) bus + (if k (eventId l) then 1 else 0))%nat.
Proof.
  unfold addListener. rewrite count_by_app, count_by_cons, count_by_nil.
  cbn [fst].
  pose proof (live_removeListener k (eventId l) bus).
  destruct (k (eventId l)); lia.
Qed.

Lemma doPageContent_single (s : State) :
  single s -> pc s = AwaitLatch1 -> single (doPageContent s).
Proof.
  intros (Hlen & Hc & Hpl) Hpc. unfold doPageContent.
  match goal with
  | |- single (content_loop ?r ?i ?j ?s1) =>
      pose proof (content_loop_fields r i j s1) as (H1 & H2 & H3 & H4 & H5);
      pose proof (content_loop_place r r i j s1 (drop_0 _)) as Hp
  end.
  specialize (Hp ltac:(intros; lia)).
  unfold single, counted, placed, live, todo in *.
  rewrite H1, H2, H3, H4, H5. rewrite Hpc in Hpl. proj_norm.
  rewrite count_links_from, drop_0 in *.
  pose proof (links_from_nonneg (detailLinkGroups s)).
  split; [exact Hlen|].
  destruct (pc (content_loop _ _ _ _)); try contradiction;
    destruct_and?; repeat split; auto; lia.
Qed.

Lemma tab2_created_single (i j : nat) (r : option Z) (s : State) :
  single s -> pc s = AwaitTab2 i j -> single (tab2_created i j r s).
Proof.
  intros (Hlen & Hc & Hpl) Hpc. unfold tab2_created.
  unfold placed in Hpl. rewrite Hpc in Hpl.
  destruct Hpl as (g & link & Hg & Hlink).
  pose proof (links_from_drop _ _ _ Hg) as Hfrom.
  pose proof (links_from_nonneg (drop (S i) (detailLinkGroups s))).
  apply lookup_lt_Some in Hlink.
  destruct r as [tab|].
  - match goal with
    | |- single (content_loop ?r ?i ?j ?s1) =>
        pose proof (content_loop_fields r i j s1) as (H1 & H2 & H3 & H4 & H5);
        pose proof (content_loop_place (detailLinkGroups s) r i j s1 eq_refl)
          as Hp
    end.
    specialize (Hp ltac:(intros g' Hg'; rewrite Hg in Hg';
                         injection Hg' as <-; lia)).
    match type of H1 with
    | _ = listeners (subscribe ?l _) =>
        pose proof (live_subscribe is_page l (listeners s)) as Hsp;
        pose proof (live_subscribe is_detail l (listeners s)) as Hsd
    end.
    cbn [eventId is_page is_detail] in Hsp, Hsd.
    unfold single, counted, placed, live, todo in *.
    rewrite H1, H2, H3, H4, H5. rewrite Hpc in Hc. proj_norm.
    cbn [eventId] in *. 
    split; [exact Hlen|].
    destruct (pc (content_loop _ _ _ _)); try contradiction;
      destruct_and?; repeat split; auto; lia.
  - unfold single, counted, placed, live, todo in *. rewrite Hpc in Hc.
    proj_norm. split; [exact Hlen|]. destruct_and?. repeat split; auto; lia.
Qed.

Lemma tab1_created_single (i : nat) (f u : jstring) (r : option Z)
    (s : State) :
  single s -> pc s = AwaitTab1 i f u -> single (tab1_created i f u r s).
Proof.
  intros (Hlen & Hc & Hpl) Hpc. unfold tab1_created.
  unfold placed in Hpl. rewrite Hpc in Hpl. destruct Hpl as (-> & Hd & Hp & Hg).
  assert (Hrest : forall s1, searchs s1 = searchs s ->
                             drop 1 (searchs s1) = []).
  { intros s1 ->. apply drop_ge. exact Hlen. }
  destruct r as [tab|]; rewrite Hrest by reflexivity; cbn [discovery_loop].
  - pose proof (live_subscribe is_page (DetailLinks tab 0 f u) (listeners s))
      as Hsp.
    pose proof (live_subscribe is_detail (DetailLinks tab 0 f u) (listeners s))
      as Hsd.
    cbn [eventId is_page is_detail] in Hsp, Hsd.
    unfold single, counted, placed, live, todo in *. rewrite Hpc in Hc.
    proj_norm. cbn [eventId] in *. rewrite Hg in *. cbn [length] in *.
    split; [exact Hlen|]. destruct_and?. repeat split; auto; lia.
  - unfold single, counted, placed, live, todo in *. rewrite Hpc in Hc.
    proj_norm. split; [exact Hlen|]. destruct_and?. repeat split; auto; lia.
Qed.

Lemma doDetailLinkGroups_single (w : Z) (s : State) :
  single s -> pc s = AwaitWindow -> single (doDetailLinkGroups (set_window w s)).
Proof.
  intros (Hlen & Hc & Hpl) Hpc. unfold doDetailLinkGroups.
  unfold placed in Hpl. rewrite Hpc in Hpl. destruct Hpl as (Hd & Hp & Hg).
  cbn [searchs set_window].
  destruct (searchs s) as [|x [|y rest]] eqn:Hsearchs;
    [| |cbn in Hlen; lia]; cbn [discovery_loop].
  2: destruct (buildDeepSearchUrl _ _) as [[f u]|]; cbn [discovery_loop].
  all: unfold single, counted, placed, live, todo in *; rewrite Hpc in Hc;
    proj_norm; rewrite ?Hsearchs; cbn [length].
  all: split; [lia|]; destruct_and?; repeat split; auto; lia.
Qed.

Lemma set_pc_final_single (p : Pc) (s : State) :
  single s ->
  match p with Returned _ | Thrown _ => True | _ => False end ->
  match pc s with AwaitTab2 _ _ => False | _ => True end ->
  single (set_pc p s).
Proof.
  intros (Hlen & Hc & Hpl) Hp Hs.
  unfold single, counted, placed, live, todo in *. proj_norm.
  split; [exact Hlen|].
  destruct p; try contradiction; destruct (pc s); try contradiction;
    destruct_and?; repeat split; auto; lia.
Qed.

Lemma step_single (l : Label) (s : State) :
  Inv s -> single s -> single (step l s).
Proof.
  intros HI Hs. destruct l as [r|r|tabId status|k o| |]; cbn [step].
  - destruct (pc s) eqn:Hpc; try exact Hs. destruct r as [w|].
    + apply doDetailLinkGroups_single; assumption.
    + apply set_pc_final_single; [exact Hs|exact I|rewrite Hpc; exact I].
  - destruct (pc s) eqn:Hpc; try exact Hs.
    + apply tab1_created_single; assumption.
    + apply tab2_created_single; assumption.
  - apply (publish_preserves single tabId status); auto.
    intros s0 p HI0 Hs0 Hin. apply on_updated_single; assumption.
  - destruct (suspended s !! k) as [l|] eqn:Hl; [|exact Hs].
    apply resume_single; assumption.
  - destruct (pc s) eqn:Hpc; try exact Hs.
    + destruct (Nat.eqb _ _); [|exact Hs]. apply doPageContent_single; assumption.
    + destruct (Nat.eqb _ _); [|exact Hs]. unfold finish.
      apply set_pc_final_single; [|exact I|cbn; rewrite Hpc; exact I].
      exact Hs.
  - destruct (pc s) eqn:Hpc; try exact Hs.
    + apply doPageContent_single; assumption.
    + unfold finish.
      apply set_pc_final_single; [|exact I|cbn; rewrite Hpc; exact I].
      exact Hs.
Qed.

Lemma run_single (labels : list Label) (s : State) :
  Inv s -> single s -> Inv (run labels s) /\ single (run labels s).
Proof.
  revert s. induction labels as [|l labels IH]; intros s HI Hs;
    cbn [run fold_left].
  - split; assumption.
  - apply IH; [apply step_Inv, HI|apply step_single; assumption].
Qed.

Lemma throw_Inv (err : Error) : Inv (throw err).
Proof.
  split; [constructor|].
  intros e. split; [exists Idle|intros _]; cbn; repeat split; reflexivity.
Qed.

Lemma execute_Inv (params : JsValue) : Inv (execute params).
Proof.
  destruct params as [| |[u [q|] m]]; cbn [execute];
    try apply throw_Inv. apply deepSearch_Inv.
Qed.

Lemma execute_single (params : JsValue) : single (execute params).
Proof.
  destruct params as [| |[u [q|] m]]; cbn [execute];
    unfold single, counted, placed, live, todo; cbn; repeat split; lia.
Qed.

(** ** What no step undoes *)

Lemma publish_rel (R : State -> State -> Prop) (tabId : Z) (status : Status) :
  (forall s, R s s) -> (forall a b c, R a b -> R b c -> R a c) ->
  (forall l s, R s (on_updated l tabId status s)) ->
  forall s, R s (publish tabId status s).
Proof.
  intros Hrefl Htrans Hstep s. unfold publish.
  generalize (listeners s) as snapshot. intros snapshot. revert s.
  induction snapshot as [|p snapshot IH]; intros s; cbn [fold_left].
  - apply Hrefl.
  - eapply Htrans; [apply Hstep|apply IH].
Qed.

Lemma publish_pc (tabId : Z) (status : Status) (s : State) :
  pc (publish tabId status s) = pc s.
Proof.
  apply (publish_rel (fun a b => pc b = pc a)); try congruence.
  intros. apply on_updated_pc.
Qed.

Lemma resume_pc (l : Listener) (o : Outcome) (s : State) :
  pc (resume l o s) = pc s.
Proof. destruct l, o as [| |[r|]]; reflexivity. Qed.

(** An error reaches the caller from two places only. *)
Lemma step_thrown (l : Label) (s : State) (err : Error) :
  pc (step l s) = Thrown err ->
  pc s = Thrown err
  \/ (pc s = AwaitWindow /\ l = WindowCreated None
      /\ err = WindowsCreateRejected)
  \/ (exists i j, pc s = AwaitTab2 i j /\ l = TabCreated None
                  /\ err = TabsCreateRejected).
Proof.
  assert (Hd : forall r i s1, pc (discovery_loop r i s1) <> Thrown err).
  { intros r i s1.
    destruct (discovery_loop_pc r i s1) as [->|(k & f & u & _ & ->)];
      discriminate. }
  assert (Hc : forall r i j s1, pc (content_loop r i j s1) <> Thrown err).
  { intros r i j s1.
    destruct (content_loop_pc r i j s1) as [->|[->|(i' & j' & _ & ->)]];
      discriminate. }
  destruct l as [r|r|tabId status|k o| |]; cbn [step].
  - destruct (pc s) eqn:Hpc; try (intros ?; left; congruence).
    destruct r as [w|].
    + intros H. exfalso. exact (Hd _ _ _ H).
    + cbn. intros [= <-]. right. left. repeat split; reflexivity.
  - destruct (pc s) eqn:Hpc; try (intros ?; left; congruence).
    + intros H. exfalso. exact (Hd _ _ _ H).
    + unfold tab2_created. destruct r as [tab|].
      * intros H. exfalso. exact (Hc _ _ _ _ H).
      * cbn. intros [= <-]. right. right. exists i, j.
        repeat split; reflexivity.
  - rewrite publish_pc. auto.
  - destruct (suspended s !! k); [rewrite resume_pc; cbn [pc set_suspended]|]; auto.
  - destruct (pc s) eqn:Hpc; try (intros ?; left; congruence);
      destruct (Nat.eqb _ _); try (intros ?; left; congruence).
    + intros H. exfalso. exact (Hc _ _ _ _ H).
    + cbn. discriminate.
  - destruct (pc s) eqn:Hpc; try (intros ?; left; congruence).
    + intros H. exfalso. exact (Hc _ _ _ _ H).
    + cbn. discriminate.
Qed.

Lemma log_extends_refl (s : State) : log_extends s s.
Proof. exists []. reflexivity. Qed.

Lemma log_extends_trans (a b c : State) :
  log_extends a b -> log_extends b c -> log_extends a c.
Proof.
  intros [x Hx] [y Hy]. exists (y ++ x). rewrite Hy, Hx, app_assoc.
  reflexivity.
Qed.

Ltac log_ext :=
  unfold log_extends; proj_norm;
  match goal with
  | |- exists ext, ?l = _ => 
      first [ exists []; reflexivity
            | eexists [_]; reflexivity
            | eexists [_; _]; reflexivity
            | eexists [_; _; _]; reflexivity
            | eexists [_; _; _; _]; reflexivity
            | eexists [_; _; _; _; _]; reflexivity ]
  end.

Lemma on_updated_log (l : Listener) (tabId : Z) (status : Status) (s : State) :
  log_extends s (on_updated l tabId status s).
Proof.
  destruct l; unfold on_updated; destruct (negb _);
    try apply log_extends_refl; destruct status; log_ext.
Qed.

Lemma resume_log (l : Listener) (o : Outcome) (s : State) :
  log_extends s (resume l o s).
Proof. destruct l, o as [| |[r|]]; cbn [resume]; log_ext. Qed.

Lemma discovery_loop_log (rest : list SearchRequest) (i : nat) (s : State) :
  log_extends s (discovery_loop rest i s).
Proof.
  revert i s. induction rest as [|x rest IH]; intros i s;
    cbn [discovery_loop]; [log_ext|].
  destruct (buildDeepSearchUrl _ _) as [[f u]|]; [log_ext|].
  eapply log_extends_trans; [|apply IH]. log_ext.
Qed.

Lemma content_loop_log (groups : list LinkGroup) (i j : nat) (s : State) :
  log_extends s (content_loop groups i j s).
Proof.
  revert i j s. induction groups as [|g groups IH]; intros i j s;
    cbn [content_loop]; [log_ext|].
  destruct (group_links g !! j); [log_ext|apply IH].
Qed.

Lemma step_log (l : Label) (s : State) : log_extends s (step l s).
Proof.
  destruct l as [r|r|tabId status|k o| |]; cbn [step].
  - destruct (pc s); try apply log_extends_refl. destruct r; [|log_ext].
    unfold doDetailLinkGroups.
    eapply log_extends_trans; [|apply discovery_loop_log]. log_ext.
  - destruct (pc s); try apply log_extends_refl.
    + unfold tab1_created.
      eapply log_extends_trans; [|apply discovery_loop_log].
      destruct r; log_ext.
    + unfold tab2_created. destruct r; [|log_ext].
      eapply log_extends_trans; [|apply content_loop_log]. log_ext.
  - apply publish_rel;
      [apply log_extends_refl|apply log_extends_trans|].
    intros. apply on_updated_log.
  - destruct (suspended s !! k); [|apply log_extends_refl].
    eapply log_extends_trans; [|apply resume_log]. log_ext.
  - destruct (pc s); try apply log_extends_refl;
      destruct (Nat.eqb _ _); try apply log_extends_refl.
    + unfold doPageContent.
      eapply log_extends_trans; [|apply content_loop_log]. log_ext.
    + unfold finish. log_ext.
  - destruct (pc s); try apply log_extends_refl.
    + unfold doPageContent.
      eapply log_extends_trans; [|apply content_loop_log]. log_ext.
    + unfold finish. log_ext.
Qed.

Lemma run_log (labels : list Label) (s : State) : log_extends s (run labels s).
Proof.
  revert s. induction labels as [|l labels IH]; intros s;
    cbn [run fold_left]; [apply log_extends_refl|].
  eapply log_extends_trans; [apply step_log|apply IH].
Qed.

Lemma log_extends_count (p : Effect -> bool) (s s' : State) :
  log_extends s s' -> (count_by p (log s) <= count_by p (log s'))%nat.
Proof. intros [ext ->]. rewrite count_by_app. lia. Qed.

(** ** Truncation of the candidate links *)

Lemma slice0_nonneg {A} (l : list A) (n : Z) :
  0 <= n -> slice0 l n = take (Z.to_nat n) l.
Proof.
  intros H. unfold slice0. destruct (n <? 0) eqn:E; [lia|reflexivity].
Qed.

Lemma slice0_length {A} (l : list A) (n : Z) :
  0 <= n -> Z.of_nat (length (slice0 l n)) <= n.
Proof.
  intros H. rewrite slice0_nonneg by exact H. rewrite length_take. lia.
Qed.

Lemma slice0_nil {A} (n : Z) : slice0 (@nil A) n = [].
Proof. unfold slice0. destruct (n <? 0); apply take_nil. Qed.

Lemma same_groups_capped (s s' : State) :
  same_groups s s' -> capped s -> capped s'.
Proof. intros [Hg Hn]. unfold capped. rewrite Hg, Hn. auto. Qed.

Lemma on_updated_groups (l : Listener) (tabId : Z) (status : Status)
    (s : State) :
  same_groups s (on_updated l tabId status s).
Proof.
  destruct l; unfold on_updated; destruct (negb _); [split; reflexivity| |
    split; reflexivity|]; destruct status; split; reflexivity.
Qed.

Lemma discovery_loop_groups (rest : list SearchRequest) (i : nat) (s : State) :
  same_groups s (discovery_loop rest i s).
Proof.
  revert i s. induction rest as [|x rest IH]; intros i s;
    cbn [discovery_loop]; [split; reflexivity|].
  destruct (buildDeepSearchUrl _ _) as [[f u]|]; [split; reflexivity|].
  destruct (IH (S i) (countDown1 None s)) as [H1 H2].
  split; [rewrite H1|rewrite H2]; reflexivity.
Qed.

Lemma content_loop_groups (groups : list LinkGroup) (i j : nat) (s : State) :
  same_groups s (content_loop groups i j s).
Proof.
  revert i j s. induction groups as [|g groups IH]; intros i j s;
    cbn [content_loop]; [split; reflexivity|].
  destruct (group_links g !! j); [split; reflexivity|apply IH].
Qed.

Lemma discovery_loop_max (rest : list SearchRequest) (i : nat) (s : State) :
  detailsMaxNum (discovery_loop rest i s) = detailsMaxNum s.
Proof. apply discovery_loop_groups. Qed.

Lemma content_loop_max (groups : list LinkGroup) (i j : nat) (s : State) :
  detailsMaxNum (content_loop groups i j s) = detailsMaxNum s.
Proof. apply content_loop_groups. Qed.

Lemma step_max (l : Label) (s : State) :
  detailsMaxNum (step l s) = detailsMaxNum s.
Proof.
  destruct l as [r|r|tabId status|k o| |]; cbn [step].
  - destruct (pc s); try reflexivity. destruct r; [|reflexivity].
    unfold doDetailLinkGroups. rewrite discovery_loop_max. reflexivity.
  - destruct (pc s); try reflexivity.
    + unfold tab1_created. rewrite discovery_loop_max.
      destruct r; reflexivity.
    + unfold tab2_created. destruct r; [|reflexivity].
      rewrite content_loop_max. reflexivity.
  - apply (publish_rel (fun a b => detailsMaxNum b = detailsMaxNum a));
      try congruence.
    intros. apply on_updated_groups.
  - destruct (suspended s !! k) as [[]|]; [| |reflexivity];
      destruct o as [| |[?|]]; reflexivity.
  - destruct (pc s); try reflexivity; destruct (Nat.eqb _ _);
      try reflexivity.
    unfold doPageContent. rewrite content_loop_max. reflexivity.
  - destruct (pc s); try reflexivity.
    unfold doPageContent. rewrite content_loop_max. reflexivity.
Qed.

Lemma step_capped (l : Label) (s : State) :
  0 <= detailsMaxNum s -> capped s -> capped (step l s).
Proof.
  intros Hn Hc. destruct l as [r|r|tabId status|k o| |]; cbn [step].
  - destruct (pc s); try exact Hc. destruct r; [|exact Hc].
    unfold doDetailLinkGroups.
    eapply same_groups_capped; [apply discovery_loop_groups|].
    constructor.
  - destruct (pc s); try exact Hc.
    + unfold tab1_created.
      eapply same_groups_capped; [apply discovery_loop_groups|].
      destruct r; exact Hc.
    + unfold tab2_created. destruct r; [|exact Hc].
      eapply same_groups_capped; [apply content_loop_groups|]. exact Hc.
  - eapply same_groups_capped; [|exact Hc].
    apply publish_rel.
    + split; reflexivity.
    + intros a b c [H1 H2] [H3 H4]. split; congruence.
    + intros. apply on_updated_groups.
  - destruct (suspended s !! k) as [[tab i f u|tab i j f]|]; [| |exact Hc];
      destruct o as [| |[rep|]]; cbn [resume]; try exact Hc.
    + unfold capped in *. proj_norm. apply Forall_app. split; [exact Hc|].
      constructor; [|constructor]. cbn [group_links].
      apply slice0_length, Hn.
    + unfold capped in *. proj_norm. apply Forall_app. split; [exact Hc|].
      constructor; [|constructor]. cbn [group_links].
      apply slice0_length, Hn.
    + unfold capped in *. proj_norm. apply Forall_alter; [exact Hc|].
      intros g _ Hg. cbn [alter_links group_links].
      rewrite length_alter. exact Hg.
  - destruct (pc s); try exact Hc; destruct (Nat.eqb _ _); try exact Hc.
    unfold doPageContent.
    eapply same_groups_capped; [apply content_loop_groups|]. exact Hc.
  - destruct (pc s); try exact Hc.
    unfold doPageContent.
    eapply same_groups_capped; [apply content_loop_groups|]. exact Hc.
Qed.

Lemma run_capped (labels : list Label) (s : State) :
  0 <= detailsMaxNum s -> capped s -> capped (run labels s).
Proof.
  revert s. induction labels as [|l labels IH]; intros s Hn Hc;
    cbn [run fold_left]; [exact Hc|].
  apply IH; [rewrite step_max; exact Hn|apply step_capped; assumption].
Qed.

(** * The claims *)

(** C4. Adapter resolution is a function of the target URL alone: it walks
    the host table in order and takes the first host that equals the
    candidate or that the candidate ends with after a "." or a "/", and
    falls back to the default adapter; the candidate of [scheme://host/path]
    and of [scheme://host] is [scheme://host], the URL up to the first slash
    of the path.
    "https://www.google.com/x" and "https://google.com" resolve to the same
    (google) adapter and build the same search URL; "https://example.org"
    resolves to the default adapter, whose search URL contains
    "site%3Aexample.org". *)
Theorem adapter_resolution :
  (forall url, resolveInject url = resolve_spec url)
  /\ (forall scheme host path,
        Forall (fun c => c <> 47) scheme -> Forall (fun c => c <> 47) host ->
        baseUrl (scheme ++ js "://" ++ host ++ js "/" ++ path)
        = scheme ++ js "://" ++ host
        /\ baseUrl (scheme ++ js "://" ++ host) = scheme ++ js "://" ++ host)
  /\ resolveInject (js "https://www.google.com/x") = google
  /\ resolveInject (js "https://google.com") = google
  /\ resolveInject (js "https://example.org") = default
  /\ buildDeepSearchUrl (js "https://example.org") (js "ai")
     = Some (js "google.js",
             js "https://www.google.com/search?q=site%3Aexample.org%20ai")
  /\ forall keyword,
       buildDeepSearchUrl (js "https://www.google.com/x") keyword
       = buildDeepSearchUrl (js "https://google.com") keyword
       /\ match buildDeepSearchUrl (js "https://example.org") keyword with
          | Some (f, u) =>
              f = js "google.js"
              /\ includes u (js "site%3Aexample.org") = true
          | None => encodeURIComponent keyword = None
          end.
Proof.
  split; [exact resolveInject_spec|].
  split; [exact baseUrl_scheme_host|].
  split; [exact resolve_google_www|].
  split; [exact resolve_google_bare|].
  split; [exact resolve_example_org|].
  split; [vm_compute; reflexivity|].
  intros keyword. split; [|apply default_url_example].
  unfold buildDeepSearchUrl.
  rewrite resolve_google_www, resolve_google_bare. reflexivity.
Qed.

(** C10. A falsy [maxResults] (absent or 0) is replaced by 5, so the limit
    handed to the crawl is never 0; any other value is passed on. A falsy
    [url] (absent or empty) is replaced by "https://google.com". *)
Theorem execute_defaults (p : Props) (query : jstring)
    (Hq : prop_query p = Some query) :
  let s := execute (Object p) in
  (prop_maxResults p = None \/ prop_maxResults p = Some 0 ->
   detailsMaxNum s = 5)
  /\ (forall n, prop_maxResults p = Some n -> n <> 0 -> detailsMaxNum s = n)
  /\ detailsMaxNum s <> 0
  /\ (prop_url p = None \/ prop_url p = Some [] ->
      searchs s = [{| search_url := js "https://google.com";
                      search_keyword := query |}])
  /\ (forall u, prop_url p = Some u -> u <> [] ->
      searchs s = [{| search_url := u; search_keyword := query |}]).
Proof.
  destruct p as [u q m]. cbn [prop_query prop_url prop_maxResults] in *.
  subst q. cbn [execute]. cbn [detailsMaxNum searchs deepSearch].
  repeat split.
  - intros [->| ->]; reflexivity.
  - intros n -> Hn. destruct (Z.eqb_spec n 0); [contradiction|reflexivity].
  - destruct m as [n|]; [|discriminate].
    destruct (Z.eqb_spec n 0); [discriminate|assumption].
  - intros [->| ->]; reflexivity.
  - intros u' -> Hu. destruct u'; [contradiction|reflexivity].
Qed.

Lemma execute_defaults_witness :
  prop_query {| prop_url := Some []; prop_query := Some (js "ai");
                prop_maxResults := Some 0 |} = Some (js "ai")
  /\ detailsMaxNum
       (execute (Object {| prop_url := Some []; prop_query := Some (js "ai");
                           prop_maxResults := Some 0 |})) = 5.
Proof.
  split; [reflexivity|].
  destruct (execute_defaults
              {| prop_url := Some []; prop_query := Some (js "ai");
                 prop_maxResults := Some 0 |} (js "ai") eq_refl)
    as (H & _).
  apply H. right. reflexivity.
Defined.

Lemma step_throw (l : Label) (err : Error) : step l (throw err) = throw err.
Proof. destruct l as [r|r|tabId status|[|k] o| |]; reflexivity. Qed.

Lemma run_throw (labels : list Label) (err : Error) :
  run labels (throw err) = throw err.
Proof.
  induction labels as [|l labels IH]; cbn [run fold_left]; [reflexivity|].
  rewrite step_throw. exact IH.
Qed.

Lemma run_thrown_invalid (labels : list Label) (s : State) :
  pc (run labels s) = Thrown InvalidParameters ->
  pc s = Thrown InvalidParameters.
Proof.
  revert s. induction labels as [|l labels IH]; intros s H;
    cbn [run fold_left] in H; [exact H|].
  apply IH in H.
  destruct (step_thrown l s _ H) as [H'|[(_ & _ & H')|(i & j & _ & _ & H')]];
    [exact H'|discriminate..].
Qed.

Lemma execute_well_formed (params : JsValue) :
  well_formed params = true ->
  exists searchs n, execute params = deepSearch searchs n.
Proof.
  destruct params as [| |[u [q|] m]]; try discriminate. intros _.
  cbn [execute]. eauto.
Qed.

Lemma execute_malformed (params : JsValue) :
  well_formed params = false -> execute params = throw InvalidParameters.
Proof.
  destruct params as [| |[u [q|] m]]; try discriminate; reflexivity.
Qed.

(** C3, amended. [execute] throws the invalid-parameters error exactly
    when its argument is not a non-null object with a "query" property, and
    then before doing any work; no later step raises that error. It is not
    the only failure the caller sees: with a well-formed argument, a
    rejected [chrome.windows.create] is thrown to the caller as well. *)
Theorem invalid_parameters_iff (params : JsValue) :
  (pc (execute params) = Thrown InvalidParameters
   <-> well_formed params = false)
  /\ (well_formed params = false ->
      log (execute params) = []
      /\ forall labels, run labels (execute params) = execute params)
  /\ (forall labels,
        pc (run labels (execute params)) = Thrown InvalidParameters ->
        well_formed params = false)
  /\ (well_formed params = true ->
      pc (run [WindowCreated None] (execute params))
      = Thrown WindowsCreateRejected).
Proof.
  assert (Hiff : pc (execute params) = Thrown InvalidParameters
                 <-> well_formed params = false).
  { destruct (well_formed params) eqn:E.
    - destruct (execute_well_formed _ E) as (ss & n & ->).
      split; discriminate.
    - rewrite (execute_malformed _ E). split; reflexivity. }
  split; [exact Hiff|]. split; [|split].
  - intros E. rewrite (execute_malformed _ E).
    split; [reflexivity|]. intros labels. apply run_throw.
  - intros labels H. apply Hiff. apply (run_thrown_invalid labels). exact H.
  - intros E. destruct (execute_well_formed _ E) as (ss & n & ->).
    reflexivity.
Qed.

Lemma invalid_parameters_iff_witness :
  well_formed query_ai = true
  /\ pc (run [WindowCreated None] (execute query_ai))
     = Thrown WindowsCreateRejected.
Proof.
  split; [reflexivity|].
  destruct (invalid_parameters_iff query_ai) as (_ & _ & _ & H).
  apply H. reflexivity.
Defined.

(** C3 as stated fails: for the well-formed request [{ query: "ai" }]
    whose window cannot be created, the caller gets an error that is not
    the invalid-parameters error. *)
Lemma only_hard_failure_counterexample :
  well_formed query_ai = true
  /\ exists err,
       pc (run [WindowCreated None] (execute query_ai)) = Thrown err
       /\ err <> InvalidParameters.
Proof.
  split; [reflexivity|]. exists WindowsCreateRejected.
  split; [reflexivity|discriminate].
Qed.

(** C2, the code at the failing input. The request [{ query: "ai" }] is
    well formed; link discovery finds one link; [chrome.tabs.create]
    rejects for that link, and [execute] throws. In link discovery the
    same rejection is caught and counted on the latch. In general, a
    rejected tab creation of content extraction always throws and one of
    link discovery never does. *)
Theorem extraction_tab_open_rejects :
  well_formed query_ai = true
  /\ pc (run detail_tab_rejected (execute query_ai))
     = Thrown TabsCreateRejected
  /\ (let s := run [WindowCreated (Some 7); TabCreated None]
                   (execute query_ai) in
      pc s = AwaitLatch1 /\ discoveryLatch s = 0%nat)
  /\ (forall s i j, pc s = AwaitTab2 i j ->
                    pc (step (TabCreated None) s) = Thrown TabsCreateRejected)
  /\ (forall s i f u err, pc s = AwaitTab1 i f u ->
                          pc (step (TabCreated None) s) <> Thrown err).
Proof.
  split; [reflexivity|].
  split; [vm_compute; reflexivity|].
  split; [vm_compute; split; reflexivity|].
  split.
  - intros s i j H. cbn [step]. rewrite H. reflexivity.
  - intros s i f u err H Hthrown.
    destruct (step_thrown _ _ _ Hthrown)
      as [H'|[(H' & _)|(i' & j' & H' & _)]]; congruence.
Qed.

Lemma extraction_tab_open_rejects_witness :
  pc detail_tab_pending = AwaitTab2 0 0
  /\ pc (step (TabCreated None) detail_tab_pending)
     = Thrown TabsCreateRejected.
Proof.
  assert (H1 : pc detail_tab_pending = AwaitTab2 0 0)
    by (vm_compute; reflexivity).
  split; [exact H1|].
  destruct extraction_tab_open_rejects as (_ & _ & _ & H & _).
  exact (H _ _ _ H1).
Defined.

Lemma Inv_stage (s : State) (e : EventId) :
  Inv s -> exists st, at_stage e s st.
Proof. intros [_ Hs]. apply Hs. Qed.




Lemma single_bound (s : State) :
  single s ->
  succeed (searchInfo s) + failed (searchInfo s) <= total (searchInfo s)
  /\ Z.of_nat (length (failedLinks (searchInfo s))) = failed (searchInfo s).
Proof.
  intros (_ & Hc & Hp). unfold counted, placed, live, todo in *.
  destruct_and?. split; [|assumption].
  destruct (pc s); try lia.
  destruct Hp as (g & link & Hg & Hlink).
  pose proof (links_from_drop _ _ _ Hg).
  pose proof (links_from_nonneg (drop (S i) (detailLinkGroups s))).
  apply lookup_lt_Some in Hlink. lia.
Qed.

(** C5. In every state of a task started by [execute]:
    [succeed + failed <= total] and [failedLinks.length = failed]. Every
    listener enters a terminal branch at most once; one delivery to a
    listener changes [running] by 0 or -1 and no other counter; one
    resumption of a "complete" branch adds 1 to exactly one of [succeed]
    and [failed], or to neither, and changes [running] by 0 or -1. *)
Theorem searchInfo_counters (params : JsValue) (labels : list Label) :
  let s := run labels (execute params) in
  let si := searchInfo s in
  succeed si + failed si <= total si
  /\ Z.of_nat (length (failedLinks si)) = failed si
  /\ (forall e, (branches e s <= 1)%nat)
  /\ (forall l tabId status s0,
        let si0 := searchInfo s0 in
        let si1 := searchInfo (on_updated l tabId status s0) in
        total si1 = total si0 /\ succeed si1 = succeed si0
        /\ failed si1 = failed si0 /\ failedLinks si1 = failedLinks si0
        /\ (running si1 = running si0 \/ running si1 = running si0 - 1))
  /\ (forall l o s0,
        let si0 := searchInfo s0 in
        let si1 := searchInfo (resume l o s0) in
        total si1 = total si0
        /\ ((succeed si1 = succeed si0 /\ failed si1 = failed si0)
            \/ (succeed si1 = succeed si0 + 1 /\ failed si1 = failed si0)
            \/ (succeed si1 = succeed si0 /\ failed si1 = failed si0 + 1))
        /\ (running si1 = running si0 \/ running si1 = running si0 - 1)).
Proof.
  intros s si.
  destruct (run_single labels (execute params) (execute_Inv params)
              (execute_single params)) as [HI Hs].
  destruct (single_bound _ Hs) as [Hb Hf].
  split; [exact Hb|]. split; [exact Hf|]. split; [|split].
  - intros e. destruct (Inv_stage _ e HI) as [st Hst]. subst s.
    destruct st; unfold at_stage in Hst; destruct_and?; lia.
  - intros l tabId status s0.
    destruct l; unfold on_updated; destruct (negb _);
      try (cbn; repeat split; auto; fail);
      destruct status; cbn; repeat split; auto.
  - intros l o s0.
    destruct l, o as [| |[r|]]; cbn; repeat split; auto; lia.
Qed.

(** The bound on [succeed + failed] rests on [execute] passing a single
    search. With two searches a group that arrives after the timeout of
    link discovery is picked up by the loops of [doPageContent], whose
    [total] does not count its links. *)
Remark two_searches_exceed_total :
  total (searchInfo (run late_group (deepSearch two_searches 5))) = 1
  /\ succeed (searchInfo (run late_group (deepSearch two_searches 5))) = 3.
Proof. vm_compute. split; reflexivity. Qed.

(** C6. In link discovery, when the "complete" branch of a search gets no
    response object or one without links, the group is appended with an
    empty link sequence, the latch is decremented and the tab closed.
    Whatever happens inside the handler, injection and messaging errors
    included, [execute] stays where it is; and from a state of link
    discovery no step makes [execute] throw. *)
Theorem discovery_missing_response (s : State) (k : nat) (tab : Z) (i : nat)
    (f u : jstring)
    (Hk : suspended s !! k = Some (DetailLinks tab i f u)) :
  (forall r,
     (r = None \/ exists rep, r = Some rep /\ reply_links rep = None) ->
     let s' := step (Settled k (Replied r)) s in
     detailLinkGroups s'
     = detailLinkGroups s
       ++ [{| group_url := u; group_links := []; group_filename := f |}]
     /\ discoveryLatch s' = Nat.pred (discoveryLatch s)
     /\ countdowns (Ev1 i) s' = S (countdowns (Ev1 i) s)
     /\ closes (Ev1 i) s' = S (closes (Ev1 i) s))
  /\ (forall o, pc (step (Settled k o) s) = pc s)
  /\ (forall tabId status, pc (step (TabUpdated tabId status) s) = pc s)
  /\ (forall l err,
        (pc s = AwaitLatch1 \/ exists i' f' u', pc s = AwaitTab1 i' f' u') ->
        pc (step l s) <> Thrown err).
Proof.
  split; [|split; [|split]].
  - intros r Hr s'. subst s'. cbn [step]. rewrite Hk. cbn [resume].
    assert (Hlinks : match r with
                     | Some {| reply_links := Some links |} => links
                     | _ => []
                     end = []).
    { destruct Hr as [->|(rep & -> & Hrep)]; [reflexivity|].
      destruct rep as [l t c]. cbn in Hrep. subst l. reflexivity. }
    rewrite Hlinks. proj_norm. rewrite slice0_nil.
    unfold countdowns, closes. proj_norm.
    rewrite !count_by_cons. cbn [is_countdown is_close].
    rewrite eid_eqb_refl. repeat split; reflexivity.
  - intros o. cbn [step]. rewrite Hk, resume_pc. reflexivity.
  - intros tabId status. apply publish_pc.
  - intros l err Hpc Hthrown.
    destruct (step_thrown _ _ _ Hthrown)
      as [H'|[(H' & _)|(i' & j' & H' & _)]];
      destruct Hpc as [Hpc|(a & b & c & Hpc)]; congruence.
Qed.

Lemma discovery_missing_response_witness :
  suspended search_tab_loaded !! 0%nat
  = Some (DetailLinks 100 0 (js "google.js")
            (js "https://www.google.com/search?q=ai"))
  /\ detailLinkGroups (step (Settled 0 (Replied None)) search_tab_loaded)
     = [{| group_url := js "https://www.google.com/search?q=ai";
           group_links := []; group_filename := js "google.js" |}].
Proof.
  assert (Hk : suspended search_tab_loaded !! 0%nat
               = Some (DetailLinks 100 0 (js "google.js")
                         (js "https://www.google.com/search?q=ai")))
    by (vm_compute; reflexivity).
  split; [exact Hk|].
  destruct (discovery_missing_response search_tab_loaded 0 100 0 _ _ Hk)
    as (H & _).
  destruct (H None (or_introl eq_refl)) as (Hg & _).
  rewrite Hg. vm_compute. reflexivity.
Defined.




Lemma run_max (labels : list Label) (s : State) :
  detailsMaxNum (run labels s) = detailsMaxNum s.
Proof.
  revert s. induction labels as [|l labels IH]; intros s;
    cbn [run fold_left]; [reflexivity|].
  fold (run labels (step l s)). rewrite IH. apply step_max.
Qed.

(** C8, amended. For a non-negative [detailsMaxNum], every group ever held
    by a task has at most [detailsMaxNum] links: the group a discovery
    response appends holds the first [detailsMaxNum] candidate links, and
    nothing lengthens it later. With [maxResults = 2] a response of 10
    candidate links leaves exactly the first 2 in the group, before content
    extraction begins. *)
Theorem links_truncated (searchs : list SearchRequest) (n : Z) (labels : list Label)
    (Hn : 0 <= n) :
  Forall (fun g => Z.of_nat (length (group_links g)) <= n)
         (detailLinkGroups (run labels (deepSearch searchs n)))
  /\ (forall s k tab i f u links,
        detailsMaxNum s = n ->
        suspended s !! k = Some (DetailLinks tab i f u) ->
        detailLinkGroups (step (Settled k (links_reply links)) s)
        = detailLinkGroups s
          ++ [{| group_url := u; group_links := take (Z.to_nat n) links;
                 group_filename := f |}])
  /\ (let s := run (discovery candidates10) (execute (query_ai_max 2)) in
      pc s = AwaitLatch1
      /\ map group_links (detailLinkGroups s)
         = [[candidate "a"; candidate "b"]]).
Proof.
  split; [|split].
  - pose proof (run_capped labels (deepSearch searchs n)) as H.
    unfold capped in H. rewrite run_max in H. apply H; [exact Hn|].
    constructor.
  - intros s k tab i f u links Hmax Hk. unfold links_reply. cbn [step].
    rewrite Hk. cbn [resume]. proj_norm.
    rewrite Hmax. rewrite slice0_nonneg by exact Hn. reflexivity.
  - vm_compute. split; reflexivity.
Qed.

Lemma links_truncated_witness :
  0 <= 2
  /\ Forall (fun g => Z.of_nat (length (group_links g)) <= 2)
       (detailLinkGroups
          (run (discovery candidates10) (deepSearch search_ai 2))).
Proof.
  split; [lia|].
  apply (links_truncated search_ai 2 (discovery candidates10)). lia.
Defined.

(** C8 as stated fails: with [maxResults = -1] a response of 10 candidate
    links leaves 9 links in the group, more than [detailsMaxNum]. *)
Lemma negative_limit_keeps_nine :
  detailsMaxNum negative_limit = -1
  /\ exists g,
       detailLinkGroups negative_limit = [g]
       /\ length (group_links g) = 9%nat
       /\ ~ (Z.of_nat (length (group_links g))
             <= detailsMaxNum negative_limit).
Proof.
  split; [vm_compute; reflexivity|].
  eexists. split; [vm_compute; reflexivity|].
  split; [reflexivity|]. vm_compute. intros H. apply H. reflexivity.
Qed.

Lemma step_returned (l : Label) (s : State) (r : list DetailLink) :
  pc (step l s) = Returned r ->
  pc s = Returned r
  \/ (pc s = AwaitLatch2 /\ r = response (detailLinkGroups s)).
Proof.
  assert (Hd : forall x i s1, pc (discovery_loop x i s1) <> Returned r).
  { intros x i s1.
    destruct (discovery_loop_pc x i s1) as [->|(k & f & u & _ & ->)];
      discriminate. }
  assert (Hc : forall x i j s1, pc (content_loop x i j s1) <> Returned r).
  { intros x i j s1.
    destruct (content_loop_pc x i j s1) as [->|[->|(i' & j' & _ & ->)]];
      discriminate. }
  destruct l as [w|w|tabId status|k o| |]; cbn [step].
  - destruct (pc s) eqn:Hpc; try (intros ?; left; congruence).
    destruct w as [w|].
    + intros H. exfalso. exact (Hd _ _ _ H).
    + cbn. discriminate.
  - destruct (pc s) eqn:Hpc; try (intros ?; left; congruence).
    + intros H. exfalso. exact (Hd _ _ _ H).
    + unfold tab2_created. destruct w as [tab|].
      * intros H. exfalso. exact (Hc _ _ _ _ H).
      * cbn. discriminate.
  - rewrite publish_pc. auto.
  - destruct (suspended s !! k); [rewrite resume_pc; cbn [pc set_suspended]|];
      auto.
  - destruct (pc s) eqn:Hpc; try (intros ?; left; congruence);
      destruct (Nat.eqb _ _); try (intros ?; left; congruence).
    + intros H. exfalso. exact (Hc _ _ _ _ H).
    + cbn. intros [= <-]. right. split; reflexivity.
  - destruct (pc s) eqn:Hpc; try (intros ?; left; congruence).
    + intros H. exfalso. exact (Hc _ _ _ _ H).
    + cbn. intros [= <-]. right. split; reflexivity.
Qed.

Lemma filter_sublist {A} (f : A -> bool) (l : list A) :
  sublist (List.filter f l) l.
Proof.
  induction l as [|x l IH]; cbn [List.filter]; [constructor|].
  destruct (f x); [apply sublist_skip|apply sublist_cons]; exact IH.
Qed.

Lemma truthy_spec (v : option jstring) :
  truthy v = true <-> exists c cs, v = Some (c :: cs).
Proof.
  split.
  - destruct v as [[|c cs]|]; try discriminate. eauto.
  - intros (c & cs & ->). reflexivity.
Qed.

(** C9. When [execute] returns, it returns the links of the first group of
    [searchInfo.result] whose [content] is a non-empty string, in their
    order in the group and nothing else; with no group it returns the
    empty sequence. *)
Theorem execute_response (s : State) (l : Label) (r : list DetailLink)
    (Hrunning : forall r0, pc s <> Returned r0)
    (Hret : pc (step l s) = Returned r) :
  let links :=
    match detailLinkGroups s with
    | g :: _ => group_links g
    | [] => []
    end in
  r = List.filter (fun link => truthy (link_content link)) links
  /\ (forall link,
        In link r
        <-> In link links /\ exists c cs, link_content link = Some (c :: cs))
  /\ sublist r links
  /\ (detailLinkGroups s = [] -> r = []).
Proof.
  intros links.
  destruct (step_returned _ _ _ Hret) as [H|[_ ->]];
    [exfalso; exact (Hrunning _ H)|].
  assert (Hr : response (detailLinkGroups s)
               = List.filter (fun link => truthy (link_content link)) links).
  { unfold response. subst links. destruct (detailLinkGroups s); reflexivity. }
  rewrite Hr. split; [reflexivity|]. split; [|split].
  - intros link. rewrite List.filter_In, truthy_spec. reflexivity.
  - apply filter_sublist.
  - intros Hnil. subst links. rewrite Hnil. reflexivity.
Qed.

Lemma execute_response_witness :
  (forall r0, pc five_tabs_done <> Returned r0)
  /\ pc (step LatchReleased five_tabs_done)
     = Returned [fetched "a"; fetched "b"; fetched "d"; fetched "e"]
  /\ sublist [fetched "a"; fetched "b"; fetched "d"; fetched "e"]
       match detailLinkGroups five_tabs_done with
       | g :: _ => group_links g
       | [] => []
       end.
Proof.
  assert (H1 : forall r0, pc five_tabs_done <> Returned r0)
    by (intros r0; vm_compute; discriminate).
  assert (H2 : pc (step LatchReleased five_tabs_done)
               = Returned [fetched "a"; fetched "b"; fetched "d";
                           fetched "e"])
    by (vm_compute; reflexivity).
  split; [exact H1|]. split; [exact H2|].
  apply (execute_response five_tabs_done LatchReleased _ H1 H2).
Defined.
Import Accounting.

(** * Rules for invariants *)

Section Preservation.

Variable Q : State -> Prop.

Hypothesis on_updated_Q : forall s p tabId status,
  Inv s -> Q s -> p ∈ listeners s -> Q (on_updated (snd p) tabId status s).
Hypothesis resume_Q : forall s k l o,
  Inv s -> Q s -> suspended s !! k = Some l ->
  Q (resume l o (set_suspended (delete k (suspended s)) s)).
Hypothesis window_Q : forall s w,
  Inv s -> Q s -> pc s = AwaitWindow -> Q (doDetailLinkGroups (set_window w s)).
Hypothesis no_window_Q : forall s,
  Inv s -> Q s -> pc s = AwaitWindow -> Q (set_pc (Thrown WindowsCreateRejected) s).
Hypothesis tab1_Q : forall s i f u r,
  Inv s -> Q s -> pc s = AwaitTab1 i f u -> Q (tab1_created i f u r s).
Hypothesis tab2_Q : forall s i j r,
  Inv s -> Q s -> pc s = AwaitTab2 i j -> Q (tab2_created i j r s).
Hypothesis content_Q : forall s,
  Inv s -> Q s -> pc s = AwaitLatch1 -> Q (doPageContent s).
Hypothesis finish_Q : forall s,
  Inv s -> Q s -> pc s = AwaitLatch2 -> Q (finish s).

Lemma step_preserves (l : Label) (s : State) : Inv s -> Q s -> Q (step l s).
Proof.
  intros HI Hq. destruct l as [r|r|tabId status|k o| |]; cbn [step].
  - destruct (pc s) eqn:Hpc; try exact Hq. destruct r as [w|]; auto.
  - destruct (pc s) eqn:Hpc; try exact Hq; auto.
  - apply (publish_preserves Q tabId status); auto.
  - destruct (suspended s !! k) as [l|] eqn:Hl; [|exact Hq]. auto.
  - destruct (pc s) eqn:Hpc; try exact Hq;
      destruct (Nat.eqb _ _); try exact Hq; auto.
  - destruct (pc s) eqn:Hpc; try exact Hq; auto.
Qed.

Lemma run_preserves (labels : list Label) (s : State) :
  Inv s -> Q s -> Q (run labels s).
Proof.
  revert s. induction labels as [|l labels IH]; intros s HI Hq;
    cbn [run fold_left].
  - exact Hq.
  - apply IH; [apply step_Inv, HI|apply step_preserves; assumption].
Qed.

End Preservation.

(** * What the loops leave alone *)

Lemma count_by_none {A} (p q : A -> bool) (l : list A) :
  (forall x, q x = true -> p x = false) ->
  forallb q l = true -> count_by p l = 0%nat.
Proof.
  intros Hpq. induction l as [|x l IH]; intros Hl; [reflexivity|].
  cbn [forallb] in Hl. apply andb_true_iff in Hl as [Hx Hl].
  rewrite count_by_cons, (Hpq _ Hx), IH by exact Hl. reflexivity.
Qed.

Lemma count_by_zero {A} (p : A -> bool) (l : list A) (x : A) :
  count_by p l = 0%nat -> x ∈ l -> p x = false.
Proof.
  intros Hc Hin. destruct (p x) eqn:Hp; [|reflexivity].
  pose proof (count_by_elem p x l Hin Hp). lia.
Qed.

Lemma discovery_loop_frame (rest : list SearchRequest) (i : nat) (s : State) :
  let s' := discovery_loop rest i s in
  searchs s' = searchs s /\ window s' = window s
  /\ searchInfo s' = searchInfo s /\ contentLatch s' = contentLatch s
  /\ listeners s' = listeners s /\ suspended s' = suspended s
  /\ detailLinkGroups s' = detailLinkGroups s
  /\ exists ext, log s' = ext ++ log s /\ forallb loop_effect ext = true.
Proof.
  revert i s. induction rest as [|x rest IH]; intros i s; cbn [discovery_loop].
  - proj_norm. repeat split. exists []. split; reflexivity.
  - destruct (buildDeepSearchUrl _ _) as [[f u]|].
    + proj_norm. repeat split. eexists [_]. split; reflexivity.
    + cbn zeta in IH.
      destruct (IH (S i) (countDown1 None s))
        as (H1 & H2 & H3 & H4 & H5 & H6 & H7 & ext & H8 & H9).
      rewrite H1, H2, H3, H4, H5, H6, H7, H8. proj_norm. repeat split.
      exists (ext ++ [CountDown None]). rewrite <- app_assoc. split; [reflexivity|].
      rewrite forallb_app, H9. reflexivity.
Qed.

Lemma content_loop_frame (groups : list LinkGroup) (i j : nat) (s : State) :
  let s' := content_loop groups i j s in
  searchs s' = searchs s /\ window s' = window s
  /\ searchInfo s' = searchInfo s /\ contentLatch s' = contentLatch s
  /\ discoveryLatch s' = discoveryLatch s
  /\ listeners s' = listeners s /\ suspended s' = suspended s
  /\ detailLinkGroups s' = detailLinkGroups s
  /\ exists ext, log s' = ext ++ log s /\ forallb loop_effect ext = true.
Proof.
  revert i j s. induction groups as [|g groups IH]; intros i j s;
    cbn [content_loop].
  - proj_norm. repeat split. exists []. split; reflexivity.
  - destruct (group_links g !! j) as [link|].
    + proj_norm. repeat split. eexists [_]. split; reflexivity.
    + apply IH.
Qed.


Lemma loop_count (p : Effect -> bool) (s s' : State) :
  (forall x, loop_effect x = true -> p x = false) ->
  (exists ext, log s' = ext ++ log s /\ forallb loop_effect ext = true) ->
  count_by p (log s') = count_by p (log s).
Proof.
  intros Hp (ext & -> & Hext).
  rewrite count_by_app, (count_by_none p loop_effect) by assumption.
  reflexivity.
Qed.

(** * The window *)










(** * The latch of link discovery *)

Lemma count_by_all_false {A} (p : A -> bool) (l : list A) :
  (forall x, x ∈ l -> p x = false) -> count_by p l = 0%nat.
Proof.
  induction l as [|x l IH]; intros H; [reflexivity|].
  rewrite count_by_cons, (H x) by left. rewrite IH; [reflexivity|].
  intros y Hy. apply H. right. exact Hy.
Qed.

Lemma addListener_fresh (k : EventId -> bool) (l : Listener)
    (bus : list (EventId * Listener)) :
  count_by (fun p => eid_eqb (eventId l) (fst p)) bus = 0%nat ->
  count_by (fun p => k (fst p)) (addListener l (eventId l) bus)
  = (count_by (fun p => k (fst p)) bus + (if k (eventId l) then 1 else 0))%nat.
Proof.
  intros H0. unfold addListener.
  pose proof (live_removeListener k (eventId l) bus) as H.
  rewrite H0 in H. rewrite count_by_app, count_by_cons, count_by_nil.
  cbn [fst]. destruct (k (eventId l)); lia.
Qed.

Lemma addListener_other (k : EventId -> bool) (l : Listener)
    (bus : list (EventId * Listener)) :
  k (eventId l) = false ->
  count_by (fun p => k (fst p)) (addListener l (eventId l) bus)
  = count_by (fun p => k (fst p)) bus.
Proof.
  intros H0. unfold addListener.
  pose proof (live_removeListener k (eventId l) bus) as H.
  rewrite H0 in H. rewrite count_by_app, count_by_cons, count_by_nil.
  cbn [fst]. rewrite H0. lia.
Qed.

Lemma loop_quiet_rejected x : loop_effect x = true -> is_rejected x = false.
Proof. destruct x as [| | | | | |[e|]| | |]; cbn; congruence. Qed.

Lemma discovery_loop_latch (rest : list SearchRequest) (k : nat) (s : State) :
  (length rest <= discoveryLatch s)%nat ->
  let s' := discovery_loop rest k s in
  (pc s' = AwaitLatch1
   /\ Z.of_nat (discoveryLatch s')
      = Z.of_nat (discoveryLatch s) - Z.of_nat (length rest))
  \/ (exists k' f u,
        pc s' = AwaitTab1 k' f u /\ (k <= k' < k + length rest)%nat
        /\ Z.of_nat (discoveryLatch s')
           = Z.of_nat (discoveryLatch s) - (Z.of_nat k' - Z.of_nat k)).
Proof.
  revert k s. induction rest as [|x rest IH]; intros k s Hle;
    cbn [discovery_loop length] in *.
  - left. proj_norm. split; [reflexivity|lia].
  - destruct (buildDeepSearchUrl _ _) as [[f u]|].
    + right. exists k, f, u. proj_norm. repeat split; lia.
    + destruct (IH (S k) (countDown1 None s)) as [[Hp Hl]|(k' & f & u & Hp & Hk & Hl)].
      * proj_norm. lia.
      * left. split; [exact Hp|]. rewrite Hl. proj_norm. lia.
      * right. exists k', f, u. split; [exact Hp|]. split; [lia|].
        rewrite Hl. proj_norm. lia.
Qed.

Ltac proj_norm_all :=
  cbn [pc searchs detailsMaxNum window listeners suspended detailLinkGroups
       discoveryLatch contentLatch searchInfo log
       total running succeed failed failedLinks
       page_finally unsubscribe subscribe countDown1 countDown2
       add_running incr_succeed record_failure write_link
       emit set_pc set_window set_listeners set_suspended
       set_detailLinkGroups set_discoveryLatch set_contentLatch
       set_searchInfo] in *.

Ltac books_norm :=
  unfold discovery_books, running_books, content_books, remaining, rejected,
    unloaded, live, todo in *;
  proj_norm;
  rewrite ?count_by_app, ?count_by_cons, ?count_by_nil;
  cbn [is_window_remove is_window_create is_rejected is_page_unloaded
       is_foreign_remove is_page is_detail fst snd eventId started final].

Lemma on_updated_discovery_books (s : State) (p : EventId * Listener)
    (tabId : Z) (status : Status) :
  Inv s -> discovery_books s -> p ∈ listeners s ->
  discovery_books (on_updated (snd p) tabId status s).
Proof.
  intros HI Hs Hin.
  destruct (registered_elem s p HI Hin) as [Hid Hreg].
  destruct p as [e0 l]. cbn [fst snd] in *. subst e0.
  pose proof (live_removeListener is_detail (eventId l) (listeners s)) as Hd.
  unfold registered in Hreg. rewrite Hreg in Hd.
  destruct l; cbn [eventId is_page is_detail] in *;
    unfold on_updated; destruct (negb _); try exact Hs;
    destruct status; try exact Hs.
  all: books_norm.
  all: destruct (started (pc s));
    [|destruct Hs as (Hl & _); rewrite Hl in Hin; inversion Hin].
  all: destruct (pc s); destruct_and?; repeat split; try lia; auto.
Qed.

Lemma resume_discovery_books (s : State) (k : nat) (l : Listener)
    (o : Outcome) :
  Inv s -> discovery_books s -> suspended s !! k = Some l ->
  discovery_books (resume l o (set_suspended (delete k (suspended s)) s)).
Proof.
  intros HI Hs Hl.
  pose proof (count_by_delete (fun l0 => is_detail (eventId l0)) _ _ _ Hl)
    as Hdd.
  pose proof (live_removeListener is_detail (eventId l) (listeners s)) as Hd.
  pose proof (in_flight_elem s k l HI Hl) as Hreg.
  unfold registered in Hreg. rewrite Hreg in Hd.
  cbn beta in Hdd.
  destruct l, o as [| |[r|]]; cbn [resume eventId is_page is_detail] in *.
  all: books_norm.
  all: destruct (started (pc s));
    [|destruct Hs as (_ & Hl' & _); rewrite Hl' in Hl; discriminate].
  all: rewrite ?length_app, ?length_alter; cbn [length].
  all: destruct (pc s); destruct_and?; repeat split; try lia; auto.
Qed.

Lemma doDetailLinkGroups_discovery_books (s : State) (w : Z) :
  Inv s -> discovery_books s -> pc s = AwaitWindow ->
  discovery_books (doDetailLinkGroups (set_window w s)).
Proof.
  intros _ Hs Hpc. unfold discovery_books in Hs. rewrite Hpc in Hs.
  cbn [started] in Hs. destruct Hs as (Hl & Hsu & Hr).
  unfold doDetailLinkGroups.
  match goal with
  | |- context [discovery_loop ?r ?i ?s1] =>
      pose proof (discovery_loop_frame r i s1)
        as (H1 & _ & _ & _ & H5 & H6 & H7 & Hext);
      pose proof (discovery_loop_latch r i s1) as Hlatch
  end.
  specialize (Hlatch ltac:(proj_norm; lia)).
  pose proof (loop_count _ _ _ loop_quiet_rejected Hext) as Hrej.
  unfold discovery_books, remaining, rejected, live in *.
  rewrite H1, H5, H6, H7, Hrej.
  destruct Hlatch as [[Hp Hla]|(k' & f & u & Hp & Hk & Hla)];
    rewrite Hp, Hla; proj_norm; rewrite Hl, Hsu; cbn [started length];
    rewrite ?count_by_nil; proj_norm_all; repeat split; lia.
Qed.

Lemma staged_fresh (s : State) (e : EventId) :
  Inv s -> ~ created (pc s) e -> registered e s = 0%nat.
Proof.
  intros [_ Hs] Hn. destruct (Hs e) as [_ Hi]. specialize (Hi Hn).
  unfold at_stage in Hi. tauto.
Qed.

Lemma tab1_created_discovery_books (s : State) (i : nat) (f u : jstring)
    (r : option Z) :
  Inv s -> discovery_books s -> pc s = AwaitTab1 i f u ->
  discovery_books (tab1_created i f u r s).
Proof.
  intros HI Hs Hpc. unfold discovery_books, remaining in Hs.
  rewrite Hpc in Hs. cbn [started] in Hs. destruct Hs as (Hla & Hg & Hi).
  assert (Hfresh : registered (Ev1 i) s = 0%nat).
  { apply staged_fresh; [exact HI|]. rewrite Hpc. cbn. lia. }
  unfold registered in Hfresh.
  unfold tab1_created. destruct r as [tab|].
  1: pose proof (addListener_fresh is_detail (DetailLinks tab i f u)
                   (listeners s) Hfresh) as Hadd;
     cbn [eventId is_detail] in Hadd.
  all: match goal with
  | |- context [discovery_loop ?r ?i ?s1] =>
      pose proof (discovery_loop_frame r i s1)
        as (H1 & _ & _ & _ & H5 & H6 & H7 & Hext);
      pose proof (discovery_loop_latch r i s1) as Hlatch
  end.
  all: pose proof (loop_count _ _ _ loop_quiet_rejected Hext) as Hrej.
  all: unfold discovery_books, remaining, rejected, live in *.
  all: rewrite H1, H5, H6, H7, Hrej.
  all: proj_norm_all; rewrite ?length_drop in Hlatch.
  all: specialize (Hlatch ltac:(lia)).
  all: destruct Hlatch as [[Hp Hl]|(k' & f' & u' & Hp & Hk & Hl)];
    rewrite Hp, Hl; cbn [started eventId]; rewrite ?count_by_cons, ?Hadd;
    cbn [is_rejected]; repeat split; lia.
Qed.

Lemma tab2_created_discovery_books (s : State) (i j : nat) (r : option Z) :
  Inv s -> discovery_books s -> pc s = AwaitTab2 i j ->
  discovery_books (tab2_created i j r s).
Proof.
  intros _ Hs Hpc. unfold discovery_books, remaining in Hs.
  rewrite Hpc in Hs. cbn [started] in Hs.
  unfold tab2_created. destruct r as [tab|].
  - match goal with
    | |- context [content_loop ?r ?i ?j ?s1] =>
        pose proof (content_loop_frame r i j s1)
          as (H1 & _ & _ & _ & H4 & H5 & H6 & H7 & Hext);
        pose proof (content_loop_pc r i j s1) as Hp
    end.
    pose proof (loop_count _ _ _ loop_quiet_rejected Hext) as Hrej.
    match type of H5 with
    | _ = listeners (subscribe ?l _) =>
        pose proof (addListener_other is_detail l (listeners s) eq_refl)
          as Hadd
    end.
    unfold discovery_books, remaining, rejected, live in *.
    rewrite H1, H4, H5, H6, H7, Hrej. proj_norm_all. cbn [eventId] in *.
    rewrite Hadd.
    destruct Hp as [Hp|[Hp|(i' & j' & _ & Hp)]]; rewrite Hp; cbn [started];
      repeat split; lia.
  - books_norm. repeat split; lia.
Qed.

Lemma doPageContent_discovery_books (s : State) :
  Inv s -> discovery_books s -> pc s = AwaitLatch1 ->
  discovery_books (doPageContent s).
Proof.
  intros _ Hs Hpc. unfold discovery_books, remaining in Hs.
  rewrite Hpc in Hs. cbn [started] in Hs.
  unfold doPageContent.
  match goal with
  | |- context [content_loop ?r ?i ?j ?s1] =>
      pose proof (content_loop_frame r i j s1)
        as (H1 & _ & _ & _ & H4 & H5 & H6 & H7 & Hext);
      pose proof (content_loop_pc r i j s1) as Hp
  end.
  pose proof (loop_count _ _ _ loop_quiet_rejected Hext) as Hrej.
  unfold discovery_books, remaining, rejected, live in *.
  rewrite H1, H4, H5, H6, H7, Hrej. proj_norm_all.
  destruct Hp as [Hp|[Hp|(i' & j' & _ & Hp)]]; rewrite Hp; cbn [started];
    repeat split; lia.
Qed.

Lemma discovery_books_run (labels : list Label) (s : State) :
  Inv s -> discovery_books s -> discovery_books (run labels s).
Proof.
  apply run_preserves; clear s.
  - intros; apply on_updated_discovery_books; assumption.
  - intros; apply resume_discovery_books; assumption.
  - intros; apply doDetailLinkGroups_discovery_books; assumption.
  - intros s _ Hs Hpc. unfold discovery_books in *. rewrite Hpc in Hs.
    exact Hs.
  - intros; apply tab1_created_discovery_books; assumption.
  - intros; apply tab2_created_discovery_books; assumption.
  - intros; apply doPageContent_discovery_books; assumption.
  - intros s _ Hs Hpc. unfold discovery_books, remaining in *.
    rewrite Hpc in Hs. unfold finish. books_norm. exact Hs.
Qed.

Lemma deepSearch_discovery_books (searchs : list SearchRequest) (n : Z) :
  discovery_books (deepSearch searchs n).
Proof. unfold discovery_books. cbn. repeat split. Qed.

(** * [running] *)

Lemma live_not_created (k : EventId -> bool) (s : State) :
  Inv s -> (forall e, k e = true -> ~ created (pc s) e) -> live k s = 0.
Proof.
  intros HI Hk. unfold live.
  rewrite !count_by_all_false; [reflexivity| |].
  - intros l Hl. destruct (k (eventId l)) eqn:He; [|reflexivity].
    destruct HI as [_ Hs]. destruct (Hs (eventId l)) as [_ Hi].
    specialize (Hi (Hk _ He)). unfold at_stage, in_flight in Hi.
    pose proof (count_by_elem (fun l0 => eid_eqb (eventId l) (eventId l0))
                  l (suspended s) Hl (eid_eqb_refl _)). lia.
  - intros p Hp. destruct (k (fst p)) eqn:He; [|reflexivity].
    pose proof (staged_fresh s (fst p) HI (Hk _ He)) as H0.
    unfold registered in H0.
    pose proof (count_by_elem (fun p0 => eid_eqb (fst p) (fst p0))
                  p (listeners s) Hp (eid_eqb_refl _)). lia.
Qed.

Lemma running_books_run (labels : list Label) (s : State) :
  Inv s -> running_books s -> running_books (run labels s).
Proof.
  apply run_preserves; clear s.
  - intros s p tabId status HI Hs Hin.
    destruct (registered_elem s p HI Hin) as [Hid Hreg].
    destruct p as [e0 l]. cbn [fst snd] in *. subst e0.
    pose proof (live_removeListener is_page (eventId l) (listeners s)) as Hd.
    unfold registered in Hreg. rewrite Hreg in Hd.
    destruct l; cbn [eventId is_page is_detail] in *;
      unfold on_updated; destruct (negb _); try exact Hs;
      destruct status; try exact Hs.
    all: books_norm; lia.
  - intros s k l o HI Hs Hl.
    pose proof (count_by_delete (fun l0 => is_page (eventId l0)) _ _ _ Hl)
      as Hdd.
    pose proof (live_removeListener is_page (eventId l) (listeners s)) as Hd.
    pose proof (in_flight_elem s k l HI Hl) as Hreg.
    unfold registered in Hreg. rewrite Hreg in Hd.
    cbn beta in Hdd.
    destruct l, o as [| |[r|]]; cbn [resume eventId is_page is_detail] in *.
    all: books_norm; lia.
  - intros s w _ Hs _. unfold doDetailLinkGroups.
    match goal with
    | |- context [discovery_loop ?r ?i ?s1] =>
        pose proof (discovery_loop_frame r i s1)
          as (_ & _ & H3 & _ & H5 & H6 & _ & _)
    end.
    unfold running_books, live in *. rewrite H3, H5, H6. proj_norm. exact Hs.
  - intros s _ Hs _. exact Hs.
  - intros s i f u r _ Hs _. unfold tab1_created.
    match goal with
    | |- context [discovery_loop ?r ?i ?s1] =>
        pose proof (discovery_loop_frame r i s1)
          as (_ & _ & H3 & _ & H5 & H6 & _ & _)
    end.
    unfold running_books, live in *. rewrite H3, H5, H6.
    destruct r as [tab|]; proj_norm; [|exact Hs].
    rewrite (addListener_other is_page (DetailLinks tab i f u)) by reflexivity.
    exact Hs.
  - intros s i j r HI Hs Hpc. unfold tab2_created.
    destruct r as [tab|]; [|exact Hs].
    assert (Hfresh : registered (Ev2 i j) s = 0%nat).
    { apply staged_fresh; [exact HI|]. rewrite Hpc. cbn. lia. }
    match goal with
    | |- context [content_loop ?r ?i ?j ?s1] =>
        pose proof (content_loop_frame r i j s1)
          as (_ & _ & H3 & _ & _ & H5 & H6 & _ & _)
    end.
    match type of H5 with
    | _ = listeners (subscribe ?l _) =>
        pose proof (addListener_fresh is_page l (listeners s) Hfresh) as Hadd
    end.
    unfold running_books, live in *. rewrite H3, H5, H6. proj_norm.
    cbn [eventId is_page] in *. rewrite Hadd. lia.
  - intros s HI _ Hpc. unfold doPageContent.
    match goal with
    | |- context [content_loop ?r ?i ?j ?s1] =>
        pose proof (content_loop_frame r i j s1)
          as (_ & _ & H3 & _ & _ & H5 & H6 & _ & _)
    end.
    pose proof (live_not_created is_page s HI) as H0.
    rewrite Hpc in H0. specialize (H0 ltac:(intros [i|i j]; cbn; auto; discriminate)).
    unfold running_books, live in *. rewrite H3, H5, H6. proj_norm. lia.
  - intros s _ Hs _. exact Hs.
Qed.

Lemma deepSearch_running_books (searchs : list SearchRequest) (n : Z) :
  running_books (deepSearch searchs n).
Proof. reflexivity. Qed.

(** * The books of content extraction *)

Lemma content_loop_todo (all rest : list LinkGroup) (i j : nat) (s : State) :
  drop i all = rest ->
  (forall g, all !! i = Some g -> (j <= length (group_links g))%nat) ->
  (rest = [] -> j = 0%nat) ->
  match pc (content_loop rest i j s) with
  | AwaitTab2 i' j' =>
      links_from (drop i' all) - Z.of_nat j'
      = links_from (drop i all) - Z.of_nat j
  | AwaitLatch2 => links_from (drop i all) - Z.of_nat j = 0
  | _ => False
  end.
Proof.
  revert i j. induction rest as [|g rest IH]; intros i j Hdrop Hj H0;
    cbn [content_loop].
  - cbn [pc set_pc]. rewrite Hdrop, (H0 eq_refl). reflexivity.
  - apply drop_lookup_cons in Hdrop as [Hg Hrest].
    destruct (group_links g !! j) as [link|] eqn:Hlink; cbn [pc set_pc emit].
    + reflexivity.
    + specialize (IH (S i) 0%nat Hrest).
      apply lookup_ge_None in Hlink. specialize (Hj g Hg).
      rewrite (links_from_drop _ _ _ Hg).
      specialize (IH ltac:(intros; lia) ltac:(reflexivity)).
      destruct (pc (content_loop rest (S i) 0 s)); try contradiction; lia.
Qed.

Lemma loop_quiet_page_unloaded x :
  loop_effect x = true -> is_page_unloaded x = false.
Proof. destruct x as [| | | | | |[e|]| | |]; cbn; congruence. Qed.

Lemma unloaded_not_created (s : State) :
  Inv s -> (forall i j, ~ created (pc s) (Ev2 i j)) -> unloaded s = 0.
Proof.
  intros [_ Hs] Hn. unfold unloaded.
  rewrite count_by_all_false; [reflexivity|].
  intros x Hx. destruct x as [| | | | | | | |[i|i j] [| |]|]; try reflexivity.
  destruct (Hs (Ev2 i j)) as [_ Hi]. specialize (Hi (Hn i j)).
  unfold at_stage, branches in Hi.
  pose proof (count_by_elem (is_branch (Ev2 i j)) _ _ Hx) as H1.
  cbn [is_branch] in H1. rewrite eid_eqb_refl in H1. specialize (H1 eq_refl).
  lia.
Qed.

Lemma on_updated_running_books (s : State) (p : EventId * Listener)
    (tabId : Z) (status : Status) :
  Inv s -> running_books s -> p ∈ listeners s ->
  running_books (on_updated (snd p) tabId status s).
Proof.
  intros HI Hs Hin.
  destruct (registered_elem s p HI Hin) as [Hid Hreg].
  destruct p as [e0 l]. cbn [fst snd] in *. subst e0.
  pose proof (live_removeListener is_page (eventId l) (listeners s)) as Hd.
  unfold registered in Hreg. rewrite Hreg in Hd.
  destruct l; cbn [eventId is_page is_detail] in *;
    unfold on_updated; destruct (negb _); try exact Hs;
    destruct status; try exact Hs.
  all: books_norm; lia.
Qed.

Lemma running_books_step (l : Label) (s : State) :
  Inv s -> running_books s -> running_books (step l s).
Proof. intros HI Hs. apply (running_books_run [l]); assumption. Qed.

Lemma todo_nonneg (s : State) : placed s -> 0 <= todo s.
Proof.
  unfold placed, todo. destruct (pc s); try lia.
  intros (g & link & Hg & Hl). rewrite (links_from_drop _ _ _ Hg).
  apply lookup_lt_Some in Hl.
  pose proof (links_from_nonneg (drop (S i) (detailLinkGroups s))). lia.
Qed.

Lemma on_updated_content_books (s : State) (p : EventId * Listener)
    (tabId : Z) (status : Status) :
  Inv s -> books s -> p ∈ listeners s ->
  content_books (on_updated (snd p) tabId status s).
Proof.
  intros HI (Hsi & Hr & Hs) Hin.
  destruct (registered_elem s p HI Hin) as [Hid Hreg].
  destruct p as [e0 l]. cbn [fst snd] in *. subst e0.
  pose proof (live_removeListener is_page (eventId l) (listeners s)) as Hd.
  unfold registered in Hreg. rewrite Hreg in Hd.
  pose proof (todo_nonneg s ltac:(apply Hsi)) as Ht.
  destruct l; cbn [eventId is_page is_detail] in *;
    unfold on_updated; destruct (negb _); try exact Hs;
    destruct status; try exact Hs.
  all: books_norm.
  all: destruct (pc s); auto; destruct_and?; split; lia.
Qed.

Lemma resume_content_books (s : State) (k : nat) (l : Listener) (o : Outcome) :
  Inv s -> books s -> suspended s !! k = Some l ->
  content_books (resume l o (set_suspended (delete k (suspended s)) s)).
Proof.
  intros HI (Hsi & Hr & Hs) Hl.
  pose proof (count_by_delete (fun l0 => is_page (eventId l0)) _ _ _ Hl)
    as Hdp.
  pose proof (count_by_delete (fun l0 => is_detail (eventId l0)) _ _ _ Hl)
    as Hdd.
  cbn beta in Hdp, Hdd.
  pose proof (todo_nonneg s ltac:(apply Hsi)) as Ht.
  destruct Hsi as (Hlen & Hc & Hpl).
  assert (Hgroups : forall a b,
             (exists g link, detailLinkGroups s !! a = Some g
                             /\ group_links g !! b = Some link) ->
             (1 <= length (detailLinkGroups s))%nat).
  { intros a b (g & link & Hg & _). apply lookup_lt_Some in Hg. lia. }
  destruct l, o as [| |[r|]]; cbn [resume eventId is_page is_detail] in *.
  all: books_norm. all: unfold counted, placed, live, todo in *.
  all: destruct (pc s) eqn:Hpc; auto; destruct_and?;
       try (specialize (Hgroups _ _ Hpl)).
  all: rewrite ?links_from_alter by (intros; apply length_alter).
  all: try (split; lia).
Qed.

Lemma tab2_created_content_books (s : State) (i j : nat) (r : option Z) :
  books s -> pc s = AwaitTab2 i j -> content_books (tab2_created i j r s).
Proof.
  intros ((Hlen & Hc & Hpl) & Hr & Hs) Hpc. unfold tab2_created.
  destruct r as [tab|]; [|exact I].
  unfold placed in Hpl. rewrite Hpc in Hpl.
  destruct Hpl as (g & link & Hg & Hlink).
  apply lookup_lt_Some in Hlink.
  match goal with
  | |- context [content_loop ?r ?i ?j ?s1] =>
      pose proof (content_loop_frame r i j s1)
        as (_ & _ & H3 & H4 & _ & _ & _ & H7 & Hext);
      pose proof (content_loop_todo (detailLinkGroups s) r i j s1 eq_refl)
        as Hp
  end.
  specialize (Hp ltac:(intros g' Hg'; rewrite Hg in Hg';
                       injection Hg' as <-; lia)).
  specialize (Hp ltac:(intros Hnil; apply (f_equal length) in Hnil;
                       rewrite length_drop in Hnil;
                       apply lookup_lt_Some in Hg; cbn in Hnil; lia)).
  pose proof (loop_count _ _ _ loop_quiet_page_unloaded Hext) as Hun.
  unfold content_books, unloaded, todo in *.
  rewrite H3, H4, H7, Hun. rewrite Hpc in Hs. proj_norm_all.
  destruct (pc (content_loop _ _ _ _)); try contradiction;
    destruct_and?; split; lia.
Qed.

Lemma doPageContent_content_books (s : State) :
  Inv s -> pc s = AwaitLatch1 -> content_books (doPageContent s).
Proof.
  intros HI Hpc. unfold doPageContent.
  match goal with
  | |- context [content_loop ?r ?i ?j ?s1] =>
      pose proof (content_loop_frame r i j s1)
        as (_ & _ & H3 & H4 & _ & _ & _ & H7 & Hext);
      pose proof (content_loop_todo r r i j s1 (drop_0 _)) as Hp
  end.
  specialize (Hp ltac:(intros; lia) ltac:(reflexivity)).
  pose proof (loop_count _ _ _ loop_quiet_page_unloaded Hext) as Hun.
  pose proof (unloaded_not_created s HI) as H0. rewrite Hpc in H0.
  specialize (H0 ltac:(cbn; auto)).
  pose proof (links_from_nonneg (detailLinkGroups s)).
  unfold content_books, unloaded, todo in *.
  rewrite H3, H4, H7, Hun. proj_norm_all.
  rewrite count_links_from, drop_0 in *.
  destruct (pc (content_loop _ _ _ _)); try contradiction; split; lia.
Qed.

Lemma content_books_same (s s' : State) :
  pc s' = pc s -> searchInfo s' = searchInfo s ->
  contentLatch s' = contentLatch s ->
  detailLinkGroups s' = detailLinkGroups s -> unloaded s' = unloaded s ->
  content_books s -> content_books s'.
Proof.
  unfold content_books, todo. intros -> -> -> -> ->. auto.
Qed.

Lemma discovery_loop_content_books (rest : list SearchRequest) (i : nat)
    (s : State) :
  match pc s with AwaitTab2 _ _ => False | _ => True end ->
  content_books s -> final (pc s) = false ->
  content_books (discovery_loop rest i s).
Proof.
  intros Hpc Hs Hf.
  pose proof (discovery_loop_frame rest i s)
    as (_ & _ & H3 & H4 & _ & _ & _ & Hext).
  pose proof (loop_count _ _ _ loop_quiet_page_unloaded Hext) as Hun.
  pose proof (discovery_loop_pc rest i s) as Hp.
  unfold content_books, unloaded, todo in *. cbn zeta in *.
  rewrite H3, H4, Hun.
  destruct Hp as [Hp|(k & f & u & _ & Hp)]; rewrite Hp;
    destruct (pc s); try contradiction; try discriminate; exact Hs.
Qed.

Lemma books_step (l : Label) (s : State) : Inv s -> books s -> books (step l s).
Proof.
  intros HI Hb. revert l s HI Hb.
  apply (step_preserves books).
  - intros s p tabId status HI Hb Hin. split; [|split].
    + apply on_updated_single; [exact HI|apply Hb|exact Hin].
    + apply on_updated_running_books; [exact HI|apply Hb|exact Hin].
    + apply on_updated_content_books; assumption.
  - intros s k l o HI Hb Hl. split; [|split].
    + apply resume_single; [exact HI|apply Hb|exact Hl].
    + replace (resume _ _ _) with (step (Settled k o) s)
        by (cbn [step]; rewrite Hl; reflexivity).
      apply running_books_step; [exact HI|apply Hb].
    + apply resume_content_books; assumption.
  - intros s w HI Hb Hpc. split; [|split].
    + apply doDetailLinkGroups_single; [apply Hb|exact Hpc].
    + replace (doDetailLinkGroups _) with (step (WindowCreated (Some w)) s)
        by (cbn [step]; rewrite Hpc; reflexivity).
      apply running_books_step; [exact HI|apply Hb].
    + unfold doDetailLinkGroups. apply discovery_loop_content_books.
      * proj_norm. rewrite Hpc. exact I.
      * destruct Hb as (_ & _ & Hc). unfold content_books, unloaded, todo in *.
        proj_norm. rewrite Hpc in *. exact Hc.
      * proj_norm. rewrite Hpc. reflexivity.
  - intros s HI Hb Hpc. split; [|split].
    + apply set_pc_final_single; [apply Hb|exact I|rewrite Hpc; exact I].
    + apply Hb.
    + exact I.
  - intros s i f u r HI Hb Hpc. split; [|split].
    + apply tab1_created_single; [apply Hb|exact Hpc].
    + replace (tab1_created _ _ _ _ _) with (step (TabCreated r) s)
        by (cbn [step]; rewrite Hpc; reflexivity).
      apply running_books_step; [exact HI|apply Hb].
    + unfold tab1_created. apply discovery_loop_content_books.
      * destruct r; proj_norm; rewrite Hpc; exact I.
      * destruct Hb as (_ & _ & Hc).
        destruct r; (eapply content_books_same; [..|exact Hc]); reflexivity.
      * destruct r; proj_norm; rewrite Hpc; reflexivity.
  - intros s i j r HI Hb Hpc. split; [|split].
    + apply tab2_created_single; [apply Hb|exact Hpc].
    + replace (tab2_created _ _ _ _) with (step (TabCreated r) s)
        by (cbn [step]; rewrite Hpc; reflexivity).
      apply running_books_step; [exact HI|apply Hb].
    + apply tab2_created_content_books; assumption.
  - intros s HI Hb Hpc. split; [|split].
    + apply doPageContent_single; [apply Hb|exact Hpc].
    + replace (doPageContent _) with (step TimedOut s)
        by (cbn [step]; rewrite Hpc; reflexivity).
      apply running_books_step; [exact HI|apply Hb].
    + apply doPageContent_content_books; assumption.
  - intros s HI Hb Hpc. split; [|split].
    + unfold finish.
      apply set_pc_final_single; [apply Hb|exact I|cbn; rewrite Hpc; exact I].
    + apply Hb.
    + destruct Hb as (_ & _ & Hc). unfold content_books, unloaded, todo in *.
      rewrite Hpc in Hc. unfold finish. books_norm. exact Hc.
Qed.

Lemma books_run (labels : list Label) (s : State) :
  Inv s -> books s -> books (run labels s).
Proof.
  revert s. induction labels as [|l labels IH]; intros s HI Hb;
    cbn [run fold_left]; [exact Hb|].
  apply IH; [apply step_Inv, HI|apply books_step; assumption].
Qed.

Lemma execute_books (params : JsValue) : books (execute params).
Proof.
  split; [apply execute_single|].
  destruct params as [| |[u [q|] m]]; cbn [execute]; split;
    try reflexivity; try exact I.
  unfold content_books, unloaded, todo. cbn. split; reflexivity.
Qed.

(** * [failedLinks] *)








(** * The groups *)

Lemma link_key_set_content (c t : option jstring) (l : DetailLink) :
  link_key (set_content c t l) = link_key l.
Proof. reflexivity. Qed.

Lemma map_alter_same {A B} (f : A -> B) (g : A -> A) (i : nat) (l : list A) :
  (forall x, f (g x) = f x) -> map f (alter g i l) = map f l.
Proof.
  intros H. revert i. induction l as [|x l IH]; intros [|i]; cbn;
    try reflexivity.
  - rewrite H. reflexivity.
  - f_equal. apply IH.
Qed.

Lemma group_key_write (groups : list LinkGroup) (i j : nat)
    (c t : option jstring) :
  map group_key (alter (alter_links (alter (set_content c t) j)) i groups)
  = map group_key groups.
Proof.
  apply map_alter_same. intros g. unfold group_key. cbn [alter_links group_url
    group_filename group_links]. f_equal.
  apply map_alter_same. intros l. apply link_key_set_content.
Qed.

Lemma groups_extend_refl (s : State) : groups_extend s s.
Proof. exists []. rewrite app_nil_r. reflexivity. Qed.

Lemma groups_extend_trans (a b c : State) :
  groups_extend a b -> groups_extend b c -> groups_extend a c.
Proof.
  intros [e1 H1] [e2 H2]. exists (e1 ++ e2). rewrite H2, H1, app_assoc.
  reflexivity.
Qed.

Lemma groups_extend_same (s s' : State) :
  detailLinkGroups s' = detailLinkGroups s -> groups_extend s s'.
Proof. intros H. exists []. rewrite H, app_nil_r. reflexivity. Qed.

Lemma groups_extend_step (l : Label) (s : State) :
  (pc s = AwaitWindow -> detailLinkGroups s = []) ->
  groups_extend s (step l s).
Proof.
  intros H0.
  assert (Hd : forall r i s1,
             detailLinkGroups (discovery_loop r i s1) = detailLinkGroups s1).
  { intros. apply discovery_loop_frame. }
  assert (Hc : forall r i j s1,
             detailLinkGroups (content_loop r i j s1) = detailLinkGroups s1).
  { intros. apply content_loop_frame. }
  destruct l as [r|r|tabId status|k o| |]; cbn [step].
  - destruct (pc s) eqn:Hpc; try apply groups_extend_refl.
    destruct r; [|apply groups_extend_same; reflexivity].
    apply groups_extend_same. unfold doDetailLinkGroups. rewrite Hd.
    proj_norm. rewrite H0; reflexivity.
  - destruct (pc s); try apply groups_extend_refl; apply groups_extend_same.
    + unfold tab1_created. rewrite Hd. destruct r; reflexivity.
    + unfold tab2_created. destruct r; [|reflexivity]. rewrite Hc. reflexivity.
  - apply publish_rel.
    + apply groups_extend_refl.
    + apply groups_extend_trans.
    + intros l s0. apply groups_extend_same, on_updated_groups.
  - destruct (suspended s !! k) as [l|]; [|apply groups_extend_refl].
    destruct l as [tab a f u|tab a b f], o as [| |[r|]]; cbn [resume];
      try (apply groups_extend_same; reflexivity).
    + eexists [_]. proj_norm. rewrite map_app. reflexivity.
    + eexists [_]. proj_norm. rewrite map_app. reflexivity.
    + exists []. proj_norm. rewrite group_key_write, app_nil_r. reflexivity.
  - destruct (pc s); try apply groups_extend_refl;
      destruct (Nat.eqb _ _); try apply groups_extend_refl;
      apply groups_extend_same; [|reflexivity].
    unfold doPageContent. rewrite Hc. reflexivity.
  - destruct (pc s); try apply groups_extend_refl;
      apply groups_extend_same; [|reflexivity].
    unfold doPageContent. rewrite Hc. reflexivity.
Qed.

Lemma pristine_step (l : Label) (s : State) : pristine s -> pristine (step l s).
Proof.
  intros H. unfold pristine in *.
  destruct l as [r|r|tabId status|k o| |]; cbn [step].
  - destruct (pc s) eqn:Hpc; try (intros ?; first [congruence|apply H; reflexivity]).
    destruct r; [|discriminate]. unfold doDetailLinkGroups.
    match goal with
    | |- context [discovery_loop ?r ?i ?s1] =>
        destruct (discovery_loop_pc r i s1) as [Hp|(k & f & u & _ & Hp)]
    end; rewrite Hp; discriminate.
  - destruct (pc s) eqn:Hpc; try (intros ?; first [congruence|apply H; reflexivity]).
    + unfold tab1_created.
      match goal with
      | |- context [discovery_loop ?r ?i ?s1] =>
          destruct (discovery_loop_pc r i s1) as [Hp|(k & f' & u' & _ & Hp)]
      end; rewrite Hp; discriminate.
    + unfold tab2_created. destruct r; [|discriminate].
      match goal with
      | |- context [content_loop ?r ?i ?j ?s1] =>
          destruct (content_loop_pc r i j s1) as [Hp|[Hp|(i' & j' & _ & Hp)]]
      end; rewrite Hp; discriminate.
  - rewrite publish_pc. intros Hpc. specialize (H Hpc).
    destruct H as (Hg & Hs & Hl). unfold publish. rewrite Hl. cbn. auto.
  - destruct (suspended s !! k) as [l|] eqn:Hl; [|exact H].
    rewrite resume_pc. proj_norm. intros Hpc. specialize (H Hpc).
    destruct H as (_ & Hs & _). rewrite Hs in Hl. discriminate.
  - destruct (pc s) eqn:Hpc; try (intros ?; first [congruence|apply H; reflexivity]);
      destruct (Nat.eqb _ _); try (intros ?; first [congruence|apply H; reflexivity]).
    + unfold doPageContent.
      match goal with
      | |- context [content_loop ?r ?i ?j ?s1] =>
          destruct (content_loop_pc r i j s1) as [Hp|[Hp|(i' & j' & _ & Hp)]]
      end; rewrite Hp; discriminate.
    + discriminate.
  - destruct (pc s) eqn:Hpc; try (intros ?; first [congruence|apply H; reflexivity]).
    + unfold doPageContent.
      match goal with
      | |- context [content_loop ?r ?i ?j ?s1] =>
          destruct (content_loop_pc r i j s1) as [Hp|[Hp|(i' & j' & _ & Hp)]]
      end; rewrite Hp; discriminate.
    + discriminate.
Qed.

Lemma pristine_run (labels : list Label) (s : State) :
  pristine s -> pristine (run labels s).
Proof.
  revert s. induction labels as [|l labels IH]; intros s H;
    cbn [run fold_left]; [exact H|].
  apply IH, pristine_step, H.
Qed.

Lemma groups_extend_run (labels : list Label) (s : State) :
  pristine s -> groups_extend s (run labels s).
Proof.
  revert s. induction labels as [|l labels IH]; intros s H;
    cbn [run fold_left]; [apply groups_extend_refl|].
  eapply groups_extend_trans.
  - apply groups_extend_step. intros Hpc. apply H, Hpc.
  - apply IH, pristine_step, H.
Qed.

Lemma run_app (l1 l2 : list Label) (s : State) :
  run (l1 ++ l2) s = run l2 (run l1 s).
Proof. unfold run. apply fold_left_app. Qed.

(** * The window, the latches and the counters *)

Lemma deepSearch_pristine (searchs : list SearchRequest) (n : Z) :
  pristine (deepSearch searchs n).
Proof. intros _. cbn. auto. Qed.


Lemma live_nonneg (k : EventId -> bool) (s : State) : 0 <= live k s.
Proof. unfold live. lia. Qed.

Lemma run_searchs (labels : list Label) (s : State) :
  searchs (run labels s) = searchs s.
Proof.
  revert s. induction labels as [|l labels IH]; intros s0; cbn [run fold_left];
    [reflexivity|].
  fold (run labels (step l s0)). rewrite IH.
  destruct l as [r|r|tabId status|k o| |]; cbn [step].
  - destruct (pc s0); try reflexivity. destruct r; [|reflexivity].
    unfold doDetailLinkGroups.
    match goal with
    | |- context [discovery_loop ?r ?i ?s1] =>
        pose proof (discovery_loop_frame r i s1) as (-> & _)
    end. reflexivity.
  - destruct (pc s0); try reflexivity.
    + unfold tab1_created.
      match goal with
      | |- context [discovery_loop ?r ?i ?s1] =>
          pose proof (discovery_loop_frame r i s1) as (-> & _)
      end. destruct r; reflexivity.
    + unfold tab2_created. destruct r; [|reflexivity].
      match goal with
      | |- context [content_loop ?r ?i ?j ?s1] =>
          pose proof (content_loop_frame r i j s1) as (-> & _)
      end. reflexivity.
  - apply (publish_rel (fun a b => searchs b = searchs a));
      [reflexivity|congruence|].
    intros l s1. destruct l; unfold on_updated; destruct (negb _);
      try reflexivity; destruct status; reflexivity.
  - destruct (suspended s0 !! k) as [l|]; [|reflexivity].
    destruct l, o as [| |[r|]]; reflexivity.
  - destruct (pc s0); try reflexivity; destruct (Nat.eqb _ _);
      try reflexivity.
    unfold doPageContent.
    match goal with
    | |- context [content_loop ?r ?i ?j ?s1] =>
        pose proof (content_loop_frame r i j s1) as (-> & _)
    end. reflexivity.
  - destruct (pc s0); try reflexivity.
    unfold doPageContent.
    match goal with
    | |- context [content_loop ?r ?i ?j ?s1] =>
        pose proof (content_loop_frame r i j s1) as (-> & _)
    end. reflexivity.
Qed.


(** X2. From the moment link discovery starts, its latch counts the
    searches not yet settled: those the loop has yet to get past (the one
    whose tab is being opened included), those whose listener is registered
    or inside its "complete" branch, and those whose handler rejected.
    Every group pushed has taken one count off the latch. *)
Theorem discovery_latch_accounts (searchs : list SearchRequest) (n : Z)
    (labels : list Label) :
  let s := run labels (deepSearch searchs n) in
  started (pc s) = true ->
  Z.of_nat (discoveryLatch s) = remaining s + live is_detail s + rejected s
  /\ Z.of_nat (length (detailLinkGroups s)) + Z.of_nat (discoveryLatch s)
     <= Z.of_nat (length searchs)
  /\ 0 <= remaining s.
Proof.
  intros s Hst.
  pose proof (discovery_books_run labels _ (deepSearch_Inv searchs n)
                (deepSearch_discovery_books searchs n)) as Hb.
  fold s in Hb. unfold discovery_books in Hb. rewrite Hst in Hb.
  destruct Hb as (H1 & H2 & H3).
  assert (Hs : Crawl.searchs s = searchs) by apply run_searchs.
  rewrite Hs in H2. repeat split; try assumption.
  unfold remaining. destruct (pc s); lia.
Qed.

Lemma discovery_latch_accounts_witness :
  started (pc (run [WindowCreated (Some 7); TabCreated (Some 100)]
                 (deepSearch search_ai 5))) = true
  /\ Z.of_nat (discoveryLatch
                 (run [WindowCreated (Some 7); TabCreated (Some 100)]
                    (deepSearch search_ai 5))) = 1.
Proof.
  assert (H0 : started (pc (run [WindowCreated (Some 7); TabCreated (Some 100)]
                              (deepSearch search_ai 5))) = true)
    by (vm_compute; reflexivity).
  split; [exact H0|].
  etransitivity;
    [exact (proj1 (discovery_latch_accounts search_ai 5
                     [WindowCreated (Some 7); TabCreated (Some 100)] H0))|].
  vm_compute. reflexivity.
Defined.

(** X3. Once a handler of link discovery has rejected (an injection or
    messaging error), the latch of link discovery never reaches zero again:
    while [execute] waits for it, the release of the latch does nothing, and
    only the timeout lets the task go on. *)
Theorem rejected_handler_blocks_latch (searchs : list SearchRequest) (n : Z)
    (labels more : list Label) :
  let s := run labels (deepSearch searchs n) in
  let s' := run more s in
  0 < rejected s ->
  (0 < discoveryLatch s')%nat
  /\ (pc s' = AwaitLatch1 -> step LatchReleased s' = s').
Proof.
  intros s s' Hrej.
  assert (Hrej' : 0 < rejected s').
  { pose proof (log_extends_count is_rejected s s' (run_log more s)).
    unfold rejected in *. lia. }
  assert (Hb : discovery_books s').
  { unfold s', s. rewrite <- run_app.
    apply discovery_books_run;
      [apply deepSearch_Inv|apply deepSearch_discovery_books]. }
  assert (Hl : (0 < discoveryLatch s')%nat).
  { unfold discovery_books in Hb. destruct (started (pc s')).
    - destruct Hb as (H1 & _ & H3).
      pose proof (live_nonneg is_detail s').
      unfold remaining in H1. destruct (pc s'); lia.
    - destruct Hb as (_ & _ & H0). lia. }
  split; [exact Hl|].
  intros Hpc. cbn [step]. rewrite Hpc.
  destruct (Nat.eqb_spec (discoveryLatch s') 0); [lia|reflexivity].
Qed.

Lemma rejected_handler_blocks_latch_witness :
  0 < rejected (run injection_fails (deepSearch search_ai 5))
  /\ (0 < discoveryLatch
            (run [TabUpdated 100 Complete; LatchReleased]
               (run injection_fails (deepSearch search_ai 5))))%nat.
Proof.
  assert (H0 : 0 < rejected (run injection_fails (deepSearch search_ai 5)))
    by (vm_compute; reflexivity).
  split; [exact H0|].
  exact (proj1 (rejected_handler_blocks_latch search_ai 5 injection_fails
                  [TabUpdated 100 Complete; LatchReleased] H0)).
Defined.

(** X4. For every search list, [searchInfo.running] is the number of
    listeners of content extraction that are registered or inside their
    "complete" branch; it is never negative, and it is zero exactly when no
    such listener is left. *)
Theorem running_counts_live_listeners (searchs : list SearchRequest) (n : Z)
    (labels : list Label) :
  let s := run labels (deepSearch searchs n) in
  running (searchInfo s) = live is_page s
  /\ 0 <= running (searchInfo s)
  /\ (running (searchInfo s) = 0 <->
      (forall p, p ∈ listeners s -> is_page (fst p) = false)
      /\ (forall l, l ∈ suspended s -> is_page (eventId l) = false)).
Proof.
  intros s.
  pose proof (running_books_run labels _ (deepSearch_Inv searchs n)
                (deepSearch_running_books searchs n)) as Hr.
  fold s in Hr. unfold running_books in Hr.
  split; [exact Hr|]. split; [rewrite Hr; apply live_nonneg|].
  rewrite Hr. unfold live. split.
  - intros H0. split.
    + intros p Hp.
      apply (count_by_zero (fun p => is_page (fst p)) (listeners s) p);
        [lia|exact Hp].
    + intros l Hl.
      apply (count_by_zero (fun l => is_page (eventId l)) (suspended s) l);
        [lia|exact Hl].
  - intros [H1 H2]. rewrite !count_by_all_false by assumption. reflexivity.
Qed.

(** X5. The books of content extraction of a task started by [execute],
    as long as it has not thrown: every link counted in [total] is a
    success, a failure, an unloaded tab, a running tab or a tab yet to be
    opened, and the latch of content extraction counts the last two. So
    when the latch is released, no tab is running and
    [succeed + failed + unloaded = total]. *)
Theorem extraction_accounts (params : JsValue) (labels : list Label) :
  let s := run labels (execute params) in
  let si := searchInfo s in
  (forall err, pc s <> Thrown err) ->
  succeed si + failed si + unloaded s + running si + todo s = total si
  /\ Z.of_nat (contentLatch s) = running si + todo s
  /\ 0 <= running si /\ 0 <= todo s
  /\ (forall r, pc s = AwaitLatch2 ->
                pc (step LatchReleased s) = Returned r ->
                running si = 0 /\ succeed si + failed si + unloaded s = total si).
Proof.
  intros s si Hpc.
  pose proof (books_run labels _ (execute_Inv params) (execute_books params))
    as ((_ & _ & Hpl) & Hr & Hc).
  fold s in Hpl, Hr, Hc.
  pose proof (todo_nonneg s Hpl) as Ht.
  unfold running_books in Hr. pose proof (live_nonneg is_page s) as Hlive.
  assert (Hc' : succeed si + failed si + unloaded s + running si + todo s
                = total si
                /\ Z.of_nat (contentLatch s) = running si + todo s).
  { unfold content_books in Hc. destruct (pc s) eqn:E; try exact Hc.
    destruct (Hpc err eq_refl). }
  destruct Hc' as (H1 & H2). fold si in Hr.
  split; [exact H1|]. split; [exact H2|]. split; [lia|]. split; [exact Ht|].
  intros r Hp Hret. cbn [step] in Hret. rewrite Hp in Hret.
  unfold todo in *. rewrite Hp in *.
  destruct (Nat.eqb_spec (contentLatch s) 0); [lia|congruence].
Qed.

Lemma extraction_accounts_witness :
  (forall err, pc (run five_tabs_one_missing (execute query_ai)) <> Thrown err)
  /\ Z.of_nat (contentLatch (run five_tabs_one_missing (execute query_ai)))
     = running (searchInfo (run five_tabs_one_missing (execute query_ai)))
       + todo (run five_tabs_one_missing (execute query_ai)).
Proof.
  assert (H : forall err,
             pc (run five_tabs_one_missing (execute query_ai)) <> Thrown err).
  { intros err. vm_compute. discriminate. }
  split; [exact H|].
  exact (proj1 (proj2 (extraction_accounts query_ai five_tabs_one_missing H))).
Defined.


(** X7. Content extraction fills in links and changes nothing else of what
    link discovery found: from any state of a task on, every group stays at
    its index with its [url], its [filename] and the titles and URLs of its
    links, in their order; groups are only ever appended. *)
Theorem groups_only_grow (searchs : list SearchRequest) (n : Z)
    (labels more : list Label) :
  let s := run labels (deepSearch searchs n) in
  let s' := run more s in
  (length (detailLinkGroups s) <= length (detailLinkGroups s'))%nat
  /\ (forall i g, detailLinkGroups s !! i = Some g ->
        exists g',
          detailLinkGroups s' !! i = Some g'
          /\ group_url g' = group_url g
          /\ group_filename g' = group_filename g
          /\ map link_title (group_links g') = map link_title (group_links g)
          /\ map link_url (group_links g') = map link_url (group_links g)).
Proof.
  intros s s'.
  assert (Hp : pristine s).
  { apply pristine_run, deepSearch_pristine. }
  destruct (groups_extend_run more s Hp) as [ext Hext]. fold s' in Hext.
  split.
  - apply (f_equal length) in Hext.
    rewrite length_app, !length_map in Hext. lia.
  - intros i g Hg.
    assert (Hk : map group_key (detailLinkGroups s') !! i = Some (group_key g)).
    { rewrite Hext. apply lookup_app_l_Some. rewrite list_lookup_fmap, Hg.
      reflexivity. }
    rewrite list_lookup_fmap in Hk.
    destruct (detailLinkGroups s' !! i) as [g'|]; [|discriminate].
    exists g'. split; [reflexivity|]. cbn in Hk. injection Hk as H1 H2 H3.
    repeat split; try assumption.
    + apply (f_equal (map fst)) in H3. rewrite !map_map in H3. exact H3.
    + apply (f_equal (map snd)) in H3. rewrite !map_map in H3. exact H3.
Qed.

Lemma groups_only_grow_witness :
  detailLinkGroups (run (discovery candidates5) (deepSearch search_ai 5))
    !! 0%nat
  = Some {| group_url := js "https://www.google.com/search?q=ai";
            group_links := candidates5;
            group_filename := js "google.js" |}
  /\ exists g',
       detailLinkGroups
         (run [LatchReleased; TabCreated (Some 1); TabUpdated 1 Complete;
               Settled 0 (page_reply "a")]
            (run (discovery candidates5) (deepSearch search_ai 5))) !! 0%nat
       = Some g'
       /\ map link_url (group_links g') = map link_url candidates5.
Proof.
  assert (H0 : detailLinkGroups
                 (run (discovery candidates5) (deepSearch search_ai 5))
                 !! 0%nat
               = Some {| group_url := js "https://www.google.com/search?q=ai";
                         group_links := candidates5;
                         group_filename := js "google.js" |})
    by (vm_compute; reflexivity).
  split; [exact H0|].
  destruct (proj2 (groups_only_grow search_ai 5 (discovery candidates5)
                     [LatchReleased; TabCreated (Some 1); TabUpdated 1 Complete;
                      Settled 0 (page_reply "a")]) _ _ H0)
    as (g' & H1 & _ & _ & _ & H2).
  exists g'. split; [exact H1|exact H2].
Defined.

Import UrlShape.

(** * The alphabet of a search URL *)

Lemma eqb_eq (a b : jstring) : eqb a b = true <-> a = b.
Proof.
  revert b. induction a as [|x a IH]; intros [|y b]; cbn [eqb];
    try (split; [discriminate|congruence]); [tauto|].
  rewrite andb_true_iff, Z.eqb_eq, IH. split.
  - intros [-> ->]. reflexivity.
  - intros H. injection H as -> ->. split; reflexivity.
Qed.

Lemma endsWith_spec (s suffix : jstring) :
  endsWith s suffix = true <-> exists x, s = x ++ suffix.
Proof.
  unfold endsWith. rewrite andb_true_iff, Nat.leb_le, eqb_eq. split.
  - intros [Hle Hd]. set (n := (length s - length suffix)%nat) in *.
    exists (take n s). rewrite <- Hd. symmetry. apply take_drop.
  - intros [x ->]. rewrite length_app. split; [lia|].
    replace (length x + length suffix - length suffix)%nat with (length x)
      by lia.
    apply drop_app_length.
Qed.

Lemma lor_bound (a b k : Z) :
  0 <= k -> 0 <= a < 2 ^ k -> 0 <= b < 2 ^ k -> 0 <= Z.lor a b < 2 ^ k.
Proof.
  intros Hk Ha Hb. split; [apply Z.lor_nonneg; lia|].
  destruct (Z.eq_dec a 0) as [->|Ha0]; [rewrite Z.lor_0_l; lia|].
  destruct (Z.eq_dec b 0) as [->|Hb0]; [rewrite Z.lor_0_r; lia|].
  assert (0 <= Z.lor a b) by (apply Z.lor_nonneg; lia).
  destruct (Z.eq_dec (Z.lor a b) 0) as [->|Hne]; [lia|].
  apply Z.log2_lt_pow2; [lia|].
  rewrite Z.log2_lor by lia.
  apply Z.max_lub_lt; apply Z.log2_lt_pow2; lia.
Qed.

Lemma land63_bound (a : Z) : 0 <= a -> 0 <= Z.land a 63 < 64.
Proof.
  intros Ha. change 63 with (Z.ones 6). rewrite Z.land_ones by lia.
  apply Z.mod_pos_bound. lia.
Qed.

Lemma utf8_bytes (cp : Z) :
  0 <= cp < 1114112 -> forallb is_byte (utf8 cp) = true.
Proof.
  intros Hcp.
  assert (Hb : forall a b, 0 <= a < 256 -> 0 <= b < 256 ->
                           is_byte (Z.lor a b) = true).
  { intros a b Ha Hb. pose proof (lor_bound a b 8 ltac:(lia) Ha Hb).
    unfold is_byte. apply andb_true_iff.
    split; [apply Z.leb_le|apply Z.ltb_lt]; lia. }
  assert (Hs : forall n, 0 <= n -> 0 <= Z.shiftr cp n).
  { intros n Hn. apply Z.shiftr_nonneg. lia. }
  assert (H6 : Z.shiftr cp 6 = cp / 64).
  { rewrite Z.shiftr_div_pow2 by lia. reflexivity. }
  assert (H12 : Z.shiftr cp 12 = cp / 4096).
  { rewrite Z.shiftr_div_pow2 by lia. reflexivity. }
  assert (H18 : Z.shiftr cp 18 = cp / 262144).
  { rewrite Z.shiftr_div_pow2 by lia. reflexivity. }
  pose proof (land63_bound cp ltac:(lia)).
  pose proof (land63_bound (Z.shiftr cp 6) (Hs 6 ltac:(lia))).
  pose proof (land63_bound (Z.shiftr cp 12) (Hs 12 ltac:(lia))).
  unfold utf8.
  destruct (Z.ltb_spec cp 128); [|destruct (Z.ltb_spec cp 2048);
    [|destruct (Z.ltb_spec cp 65536)]]; cbn [forallb];
    rewrite ?andb_true_r, ?andb_true_iff; repeat split;
    try (apply Hb; lia).
  - unfold is_byte. apply andb_true_iff.
    split; [apply Z.leb_le|apply Z.ltb_lt]; lia.
  - apply Hb; [lia|]. rewrite H6.
    pose proof (Z.div_lt_upper_bound cp 64 32). 
    pose proof (Z.div_pos cp 64). lia.
  - apply Hb; [lia|]. rewrite H12.
    pose proof (Z.div_lt_upper_bound cp 4096 16). 
    pose proof (Z.div_pos cp 4096). lia.
  - apply Hb; [lia|]. rewrite H18.
    pose proof (Z.div_lt_upper_bound cp 262144 8). 
    pose proof (Z.div_pos cp 262144). lia.
Qed.

Lemma forallb_Forall {A} (f : A -> bool) (l : list A) :
  forallb f l = true <-> Forall (fun x => f x = true) l.
Proof.
  induction l as [|x l IH]; cbn [forallb].
  - split; [constructor|reflexivity].
  - rewrite andb_true_iff, IH, Forall_cons. reflexivity.
Qed.

Lemma hex_digit_hex (d : Z) : 0 <= d < 16 -> is_hex (hex_digit d) = true.
Proof.
  intros Hd. unfold hex_digit, is_hex, is_digit.
  destruct (Z.ltb_spec d 10); apply orb_true_iff; [left|right];
    apply andb_true_iff; split; apply Z.leb_le; lia.
Qed.

Lemma percent_chars (b : Z) :
  is_byte b = true ->
  Forall (fun c => c = 37 \/ is_hex c = true) (percent b).
Proof.
  intros Hb. unfold is_byte in Hb. apply andb_true_iff in Hb as [H0 H1].
  apply Z.leb_le in H0. apply Z.ltb_lt in H1. unfold percent.
  apply Forall_cons. split; [left; reflexivity|].
  apply Forall_cons. split; [|apply Forall_cons; split; [|constructor]].
  - right. apply hex_digit_hex.
    pose proof (Z.div_lt_upper_bound b 16 16). pose proof (Z.div_pos b 16). lia.
  - right. apply hex_digit_hex. apply Z.mod_pos_bound. lia.
Qed.

Lemma escape_chars (cp : Z) :
  0 <= cp < 1114112 ->
  Forall (fun c => c = 37 \/ is_hex c = true) (escape cp).
Proof.
  intros Hcp. unfold escape. pose proof (utf8_bytes cp Hcp) as Hb.
  apply forallb_Forall in Hb. induction Hb as [|b bs Hb _ IH]; cbn [map concat].
  - constructor.
  - apply Forall_app. split; [apply percent_chars, Hb|exact IH].
Qed.

Lemma encode_chars (f : Z -> bool) (s : jstring) :
  forall out,
  Forall (fun c => code_unit c = true) s ->
  encode f s = Some out ->
  Forall (fun c => f c = true \/ c = 37 \/ is_hex c = true) out.
Proof.
  assert (Hesc : forall cp, 0 <= cp < 1114112 ->
            Forall (fun c => f c = true \/ c = 37 \/ is_hex c = true)
                   (escape cp)).
  { intros cp Hcp. eapply Forall_impl; [apply escape_chars, Hcp|].
    cbn. tauto. }
  remember (length s) as n eqn:Hn.
  assert (Hle : (length s <= n)%nat) by lia. clear Hn.
  revert s Hle. induction n as [|n IH]; intros s Hle out Hs He.
  - destruct s; [|cbn in Hle; lia]. cbn in He. injection He as <-. constructor.
  - destruct s as [|c rest]; [cbn in He; injection He as <-; constructor|].
    cbn [length] in Hle. apply Forall_cons in Hs as [Hc Hrest].
    unfold code_unit in Hc. apply andb_true_iff in Hc as [Hc0 Hc1].
    apply Z.leb_le in Hc0. apply Z.ltb_lt in Hc1.
    cbn [encode] in He. destruct (f c) eqn:Hf.
    + destruct (encode f rest) as [o|] eqn:Ho; [|discriminate].
      cbn in He. injection He as <-. constructor; [left; exact Hf|].
      apply (IH rest); [lia|exact Hrest|exact Ho].
    + destruct (is_trail c); [discriminate|].
      destruct (is_lead c) eqn:Hlead.
      * destruct rest as [|d rest']; [discriminate|].
        destruct (is_trail d) eqn:Htrail; [|discriminate].
        destruct (encode f rest') as [o|] eqn:Ho; [|discriminate].
        cbn in He. injection He as <-.
        apply Forall_cons in Hrest as [_ Hrest'].
        unfold is_lead in Hlead. unfold is_trail in Htrail.
        apply andb_true_iff in Hlead as [Hl0 Hl1].
        apply andb_true_iff in Htrail as [Ht0 Ht1].
        apply Z.leb_le in Hl0, Hl1, Ht0, Ht1.
        apply Forall_app. split; [apply Hesc; lia|].
        apply (IH rest'); [cbn [length] in Hle; lia|exact Hrest'|exact Ho].
      * destruct (encode f rest) as [o|] eqn:Ho; [|discriminate].
        cbn in He. injection He as <-.
        apply Forall_app. split; [apply Hesc; lia|].
        apply (IH rest); [lia|exact Hrest|exact Ho].
Qed.

(** Without surrogates the encoding does not throw. *)
Lemma encode_total (f : Z -> bool) (s : jstring) :
  Forall (fun c => is_surrogate c = false) s -> exists out, encode f s = Some out.
Proof.
  induction 1 as [|c rest Hc _ [o Ho]]; [exists []; reflexivity|].
  unfold is_surrogate in Hc. apply orb_false_iff in Hc as [Hl Ht].
  cbn [encode]. rewrite Ho, Hl, Ht. destruct (f c); cbn; eauto.
Qed.

Lemma trim_start_Forall (P : Z -> Prop) (s : jstring) :
  Forall P s -> Forall P (trim_start s).
Proof.
  induction 1 as [|c s Hc Hs IH]; cbn [trim_start]; [constructor|].
  destruct (is_space c); [exact IH|constructor; assumption].
Qed.

Lemma trim_Forall (P : Z -> Prop) (s : jstring) :
  Forall P s -> Forall P (trim s).
Proof.
  intros H. unfold trim.
  apply Forall_rev, trim_start_Forall, Forall_rev, trim_start_Forall, H.
Qed.

Lemma substring_Forall (P : Z -> Prop) (s : jstring) (a b : Z) :
  Forall P s -> Forall P (substring s a b).
Proof. intros H. unfold substring. apply Forall_take, Forall_drop, H. Qed.

Lemma default_host_Forall (P : Z -> Prop) (url : jstring) :
  Forall P url -> Forall P (default_host url).
Proof.
  intros H. unfold default_host.
  repeat match goal with
         | |- context [if ?b then _ else _] => destruct b
         end;
    repeat first [apply substring_Forall | apply trim_Forall]; exact H.
Qed.

Lemma resolveInject_cases (url : jstring) :
  resolveInject url = bing \/ resolveInject url = duckduckgo
  \/ resolveInject url = google \/ resolveInject url = default.
Proof.
  unfold resolveInject, deepSearchInjects. cbn [find_inject].
  repeat match goal with
         | |- context [if ?b then _ else _] => destruct b
         end; tauto.
Qed.

Lemma is_hex_unreserved (c : Z) : is_hex c = true -> uri_unreserved c = true.
Proof.
  unfold is_hex, uri_unreserved, is_alpha. intros H.
  apply orb_true_iff in H as [H|H]; [rewrite H, orb_true_r; reflexivity|].
  apply andb_true_iff in H as [H1 H2]. apply Z.leb_le in H1, H2.
  replace (65 <=? c) with true by (symmetry; apply Z.leb_le; lia).
  replace (c <=? 90) with true by (symmetry; apply Z.leb_le; lia).
  reflexivity.
Qed.

Lemma uri_char_printable (c : Z) : uri_char c = true -> 32 < c < 127.
Proof.
  unfold uri_char, uri_unreserved, uri_reserved_hash, is_alpha, is_digit,
    one_of. cbn [js list_ascii_of_string map existsb N_of_ascii N_of_digits
                 Z.of_N]. cbn.
  rewrite !orb_true_iff, !andb_true_iff, !Z.leb_le, !Z.eqb_eq. lia.
Qed.

Lemma forallb_false_witness {A} (f : A -> bool) (l : list A) :
  forallb f l = false -> exists x, In x l /\ f x = false.
Proof.
  induction l as [|x l IH]; cbn [forallb]; [discriminate|].
  destruct (f x) eqn:Hx; cbn [andb].
  - intros H. destruct (IH H) as (y & Hy & Hf). exists y. split; [right|]; auto.
  - intros _. exists x. split; [left|]; auto.
Qed.

Lemma encode_none_surrogate (f : Z -> bool) (s : jstring) :
  encode f s = None -> exists c, In c s /\ is_surrogate c = true.
Proof.
  intros He.
  destruct (forallb (fun c => negb (is_surrogate c)) s) eqn:Hs.
  - apply forallb_Forall in Hs.
    destruct (encode_total f s) as [o Ho]; [|congruence].
    eapply Forall_impl; [exact Hs|]. cbn. intros c Hc.
    apply negb_true_iff. exact Hc.
  - apply forallb_false_witness in Hs as (c & Hin & Hc).
    exists c. split; [exact Hin|]. apply negb_false_iff. exact Hc.
Qed.

Lemma encoded_query_chars (f : Z -> bool) (s out : jstring) :
  (forall c, f c = true -> uri_char c = true) ->
  Forall (fun c => code_unit c = true) s ->
  encode f s = Some out ->
  forallb uri_char out = true.
Proof.
  intros Hf Hs He. apply forallb_Forall.
  eapply Forall_impl; [apply (encode_chars f s out Hs He)|].
  cbn. intros c [H|[->|H]]; [auto|reflexivity|].
  unfold uri_char. rewrite (is_hex_unreserved c H). reflexivity.
Qed.

Lemma site_keyword_Forall (P : Z -> Prop) (url keyword : jstring) :
  Forall P (js "site: ") -> Forall P url -> Forall P keyword ->
  Forall P (js "site:" ++ default_host url ++ js " " ++ keyword).
Proof.
  intros Hc Hu Hk.
  apply Forall_app. split.
  { apply (Forall_take _ 5) in Hc. exact Hc. }
  apply Forall_app. split; [apply default_host_Forall, Hu|].
  apply Forall_app. split; [|exact Hk].
  apply (Forall_drop _ 5) in Hc. exact Hc.
Qed.

(** X8. Whatever the target URL and the keyword (sequences of UTF-16 code
    units), the tab of a search is opened on one of three engines: the
    script is bing.js, duckduckgo.js or google.js and the URL is the
    engine's search prefix followed by a query made of unreserved and
    reserved URI characters and percent escapes only, so it is printable
    ASCII without spaces. [buildDeepSearchUrl] throws only when the URL or
    the keyword holds a surrogate code unit. *)
Theorem search_url_shape (url keyword : jstring)
    (Hunits : forallb code_unit (url ++ keyword) = true) :
  match buildDeepSearchUrl url keyword with
  | Some (f, u) =>
      exists prefix q,
        In (f, prefix) engines /\ u = prefix ++ q
        /\ forallb uri_char q = true
        /\ forallb (fun c => (32 <? c) && (c <? 127)) u = true
  | None => exists c, In c (url ++ keyword) /\ is_surrogate c = true
  end.
Proof.
  apply forallb_Forall, Forall_app in Hunits as [Hu Hk].
  assert (Hascii : forall prefix q,
             forallb (fun c => (32 <? c) && (c <? 127)) prefix = true ->
             forallb uri_char q = true ->
             forallb (fun c => (32 <? c) && (c <? 127)) (prefix ++ q) = true).
  { intros prefix q Hp Hq. rewrite forallb_app, Hp. cbn [andb].
    apply forallb_Forall. apply forallb_Forall in Hq.
    eapply Forall_impl; [exact Hq|]. cbn. intros c Hc.
    apply uri_char_printable in Hc. apply andb_true_iff.
    split; apply Z.ltb_lt; lia. }
  assert (Huri : forall c, uri_unreserved c || uri_reserved_hash c = true ->
                           uri_char c = true).
  { intros c Hc. unfold uri_char. rewrite Hc. reflexivity. }
  assert (Hcomp : forall c, uri_unreserved c = true -> uri_char c = true).
  { intros c Hc. unfold uri_char. rewrite Hc. reflexivity. }
  unfold buildDeepSearchUrl.
  destruct (resolveInject_cases url) as [-> | [-> | [-> | ->]]];
    cbn [filename buildSearchUrl bing duckduckgo google default].
  1-3: unfold encodeURI.
  1-3: destruct (encode _ keyword) as [q|] eqn:Hq; cbn [option_map].
  1,3,5: pose proof (encoded_query_chars _ _ _ Huri Hk Hq) as Hchars.
  1-3: eexists _, q; split; [|split; [reflexivity|split; [exact Hchars|]]].
  1,3,5: unfold engines; cbn [In]; tauto.
  1-3: apply Hascii; [vm_compute; reflexivity|exact Hchars].
  1-3: destruct (encode_none_surrogate _ _ Hq) as (c & Hin & Hc);
       exists c; split; [apply in_or_app; right; exact Hin|exact Hc].
  unfold encodeURIComponent.
  destruct (encode _ _) as [q|] eqn:Hq; cbn [option_map].
  - assert (Hall : Forall (fun c => code_unit c = true)
                     (js "site:" ++ default_host url ++ js " " ++ keyword)).
    { apply site_keyword_Forall; [|exact Hu|exact Hk].
      apply forallb_Forall. vm_compute. reflexivity. }
    pose proof (encoded_query_chars _ _ _ Hcomp Hall Hq) as Hchars.
    eexists _, q; split; [|split; [reflexivity|split; [exact Hchars|]]].
    + unfold engines; cbn [In]; tauto.
    + apply Hascii; [vm_compute; reflexivity|exact Hchars].
  - destruct (forallb (fun c => negb (is_surrogate c)) (url ++ keyword))
      eqn:Hs.
    + exfalso. apply forallb_Forall in Hs. apply Forall_app in Hs as [Hsu Hsk].
      assert (Hall : Forall (fun c => negb (is_surrogate c) = true)
                       (js "site:" ++ default_host url ++ js " " ++ keyword)).
      { apply site_keyword_Forall; [|exact Hsu|exact Hsk].
        apply forallb_Forall. vm_compute. reflexivity. }
      destruct (encode_total uri_unreserved _
                  (Forall_impl _ _ _ Hall
                     (fun c Hc => proj1 (negb_true_iff _) Hc)))
        as [o Ho].
      congruence.
    + apply forallb_false_witness in Hs as (c & Hin & Hc).
      exists c. split; [exact Hin|]. apply negb_false_iff. exact Hc.
Qed.

Lemma search_url_shape_witness :
  forallb code_unit (js "https://example.org" ++ js "ai") = true
  /\ match buildDeepSearchUrl (js "https://example.org") (js "ai") with
     | Some (f, u) =>
         exists prefix q,
           In (f, prefix) engines /\ u = prefix ++ q
           /\ forallb uri_char q = true
           /\ forallb (fun c => (32 <? c) && (c <? 127)) u = true
     | None =>
         exists c, In c (js "https://example.org" ++ js "ai")
                   /\ is_surrogate c = true
     end.
Proof.
  assert (H : forallb code_unit (js "https://example.org" ++ js "ai") = true)
    by (vm_compute; reflexivity).
  exact (conj H (search_url_shape (js "https://example.org") (js "ai") H)).
Defined.

(** * Which adapter a host gets *)

Lemma matches_spec (b d : jstring) :
  matches b d = true
  <-> b = d \/ (exists x, b = x ++ js "." ++ d)
      \/ (exists x, b = x ++ js "/" ++ d).
Proof.
  unfold matches. rewrite !orb_true_iff, eqb_eq, !endsWith_spec. tauto.
Qed.

Lemma tail_mismatch (y t z t' : jstring) :
  length t = length t' -> t <> t' -> y ++ t <> z ++ t'.
Proof.
  intros Hlen Hne Heq. apply app_inj_2 in Heq as [_ Heq]; auto.
Qed.

Lemma matches_tail (b d y t d0 t' : jstring) :
  b = y ++ t -> d = d0 ++ t' -> length t = length t' -> t <> t' ->
  matches b d = false.
Proof.
  intros -> -> Hlen Hne. destruct (matches _ _) eqn:Hm; [|reflexivity].
  apply matches_spec in Hm as [H|[[x H]|[x H]]]; exfalso.
  - exact (tail_mismatch _ _ _ _ Hlen Hne H).
  - rewrite !app_assoc in H. rewrite <- !app_assoc in H.
    rewrite !app_assoc in H.
    exact (tail_mismatch _ _ _ _ Hlen Hne H).
  - rewrite !app_assoc in H.
    exact (tail_mismatch _ _ _ _ Hlen Hne H).
Qed.

Lemma matches_host (pre d : jstring) :
  pre = [] \/ (exists x, pre = x ++ js ".") \/ (exists x, pre = x ++ js "/") ->
  matches (pre ++ d) d = true.
Proof.
  intros H. apply matches_spec.
  destruct H as [->|[[x ->]|[x ->]]]; [left; reflexivity|right; left|right; right];
    exists x; rewrite <- app_assoc; reflexivity.
Qed.

Lemma matches_lookalike (pre d : jstring) (c : Z) :
  c <> 46 -> c <> 47 -> matches (pre ++ [c] ++ d) d = false.
Proof.
  intros H46 H47. destruct (matches _ _) eqn:Hm; [|reflexivity].
  apply matches_spec in Hm as [H|[[x H]|[x H]]]; exfalso.
  - apply (f_equal length) in H. rewrite !length_app in H. cbn in H. lia.
  - change (js "." ++ d) with ([46] ++ d) in H.
    rewrite !app_assoc in H. apply app_inj_2 in H as [H _]; [|reflexivity].
    apply app_inj_2 in H as [_ H]; [|reflexivity]. congruence.
  - change (js "/" ++ d) with ([47] ++ d) in H.
    rewrite !app_assoc in H. apply app_inj_2 in H as [H _]; [|reflexivity].
    apply app_inj_2 in H as [_ H]; [|reflexivity]. congruence.
Qed.

Lemma resolve_by_candidate (url b : jstring) (inject : Inject) :
  baseUrl url = b -> find_inject deepSearchInjects b = Some inject ->
  resolveInject url = inject.
Proof. intros Hb Hf. unfold resolveInject. rewrite Hb, Hf. reflexivity. Qed.

Lemma resolve_default_by_candidate (url b : jstring) :
  baseUrl url = b ->
  Forall (fun e => matches b (fst e) = false) known_hosts ->
  resolveInject url = default.
Proof.
  intros Hb Hm. unfold resolveInject. rewrite Hb.
  unfold known_hosts in Hm. 
  apply Forall_cons in Hm as [H1 Hm]. apply Forall_cons in Hm as [H2 Hm].
  apply Forall_cons in Hm as [H3 _]. cbn [fst] in *.
  unfold deepSearchInjects. cbn [find_inject]. rewrite H1, H2, H3.
  destruct (matches b (js "default")); reflexivity.
Qed.

(** The last five code units tell the three hosts apart. *)
Lemma other_engine (pre h d : jstring) :
  In h (map fst known_hosts) -> In d (map fst known_hosts) -> h <> d ->
  matches (pre ++ h) d = false.
Proof.
  intros Hh Hd Hne. cbn in Hh, Hd.
  destruct Hh as [<-|[<-|[<-|[]]]], Hd as [<-|[<-|[<-|[]]]];
    try congruence.
  - apply (matches_tail _ _ (pre ++ js "bin") (js "g.com")
             (js "duckduckg") (js "o.com")); try reflexivity;
      [rewrite <- app_assoc; reflexivity|discriminate].
  - apply (matches_tail _ _ (pre ++ js "bin") (js "g.com")
             (js "googl") (js "e.com")); try reflexivity;
      [rewrite <- app_assoc; reflexivity|discriminate].
  - apply (matches_tail _ _ (pre ++ js "duckduckg") (js "o.com")
             (js "bin") (js "g.com")); try reflexivity;
      [rewrite <- app_assoc; reflexivity|discriminate].
  - apply (matches_tail _ _ (pre ++ js "duckduckg") (js "o.com")
             (js "googl") (js "e.com")); try reflexivity;
      [rewrite <- app_assoc; reflexivity|discriminate].
  - apply (matches_tail _ _ (pre ++ js "googl") (js "e.com")
             (js "bin") (js "g.com")); try reflexivity;
      [rewrite <- app_assoc; reflexivity|discriminate].
  - apply (matches_tail _ _ (pre ++ js "googl") (js "e.com")
             (js "duckduckg") (js "o.com")); try reflexivity;
      [rewrite <- app_assoc; reflexivity|discriminate].
Qed.

Lemma find_engine (pre : jstring) (e : jstring * Inject) :
  In e known_hosts ->
  matches (pre ++ fst e) (fst e) = true ->
  find_inject deepSearchInjects (pre ++ fst e) = Some (snd e).
Proof.
  intros He Hm. unfold deepSearchInjects. cbn [find_inject].
  assert (Ho : forall d, In d (map fst known_hosts) -> fst e <> d ->
                         matches (pre ++ fst e) d = false).
  { intros d Hd Hne. apply other_engine; [|exact Hd|exact Hne].
    apply in_map. exact He. }
  unfold known_hosts in He. cbn [In] in He.
  destruct He as [<-|[<-|[<-|[]]]]; cbn [fst snd] in *.
  - rewrite Hm. reflexivity.
  - rewrite (Ho (js "bing.com")) by (cbn; intuition discriminate).
    rewrite Hm. reflexivity.
  - rewrite (Ho (js "bing.com")) by (cbn; intuition discriminate).
    rewrite (Ho (js "duckduckgo.com")) by (cbn; intuition discriminate).
    rewrite Hm. reflexivity.
Qed.

Lemma no_slash_forallb (l : jstring) :
  forallb (fun c => negb (c =? 47)) l = true -> Forall (fun c => c <> 47) l.
Proof.
  intros H. apply forallb_Forall in H. eapply Forall_impl; [exact H|].
  cbn. intros c Hc. apply negb_true_iff, Z.eqb_neq in Hc. exact Hc.
Qed.

Lemma host_no_slash (e : jstring * Inject) :
  In e known_hosts -> Forall (fun c => c <> 47) (fst e).
Proof.
  unfold known_hosts. cbn [In]. intros [<-|[<-|[<-|[]]]]; cbn [fst];
    apply no_slash_forallb; vm_compute; reflexivity.
Qed.

Lemma engine_resolves (e : jstring * Inject) (scheme sub path : jstring) :
  In e known_hosts ->
  Forall (fun c => c <> 47) scheme -> Forall (fun c => c <> 47) sub ->
  resolveInject (scheme ++ js "://" ++ fst e) = snd e
  /\ resolveInject (scheme ++ js "://" ++ fst e ++ js "/" ++ path) = snd e
  /\ resolveInject (scheme ++ js "://" ++ sub ++ js "." ++ fst e) = snd e
  /\ resolveInject (scheme ++ js "://" ++ sub ++ js "." ++ fst e
                    ++ js "/" ++ path) = snd e
  /\ (forall c, c <> 46 -> c <> 47 ->
      resolveInject (scheme ++ js "://" ++ sub ++ [c] ++ fst e
                     ++ js "/" ++ path) = default).
Proof.
  intros He Hscheme Hsub. pose proof (host_no_slash e He) as Hh.
  assert (Hbare : find_inject deepSearchInjects (scheme ++ js "://" ++ fst e)
                  = Some (snd e)).
  { rewrite app_assoc. apply find_engine; [exact He|]. apply matches_host.
    right. right. exists (scheme ++ js ":/"). rewrite <- app_assoc.
    reflexivity. }
  assert (Hdot : find_inject deepSearchInjects
                   (scheme ++ js "://" ++ (sub ++ js "." ++ fst e))
                 = Some (snd e)).
  { rewrite !app_assoc. apply find_engine; [exact He|]. apply matches_host.
    right. left. eexists. reflexivity. }
  assert (Hhost : Forall (fun c => c <> 47) (sub ++ js "." ++ fst e)).
  { apply Forall_app. split; [exact Hsub|]. apply Forall_app. split; [|exact Hh].
    apply no_slash_forallb. reflexivity. }
  destruct (baseUrl_scheme_host scheme (fst e) path Hscheme Hh) as [B1 B2].
  destruct (baseUrl_scheme_host scheme _ path Hscheme Hhost) as [B3 B4].
  split; [eapply resolve_by_candidate; [exact B2|exact Hbare]|].
  split; [eapply resolve_by_candidate; [exact B1|exact Hbare]|].
  split; [eapply resolve_by_candidate; [exact B4|exact Hdot]|].
  split.
  { rewrite <- !app_assoc in B3.
    eapply resolve_by_candidate; [exact B3|exact Hdot]. }
  intros c H46 H47.
  assert (Hhost' : Forall (fun c => c <> 47) (sub ++ [c] ++ fst e)).
  { apply Forall_app. split; [exact Hsub|]. apply Forall_app. split; [|exact Hh].
    constructor; [exact H47|constructor]. }
  destruct (baseUrl_scheme_host scheme _ path Hscheme Hhost') as [B5 _].
  rewrite <- !app_assoc in B5.
  eapply resolve_default_by_candidate; [exact B5|].
  apply Forall_forall. intros e' He'. apply list_elem_of_In in He'.
  destruct (decide (fst e = fst e')) as [Heq|Hne].
  - rewrite <- Heq. rewrite !app_assoc. rewrite <- (app_assoc _ [c]).
    apply matches_lookalike; assumption.
  - rewrite !app_assoc.
    apply other_engine; [apply in_map; exact He|apply in_map; exact He'|exact Hne].
Qed.

(** X9. Each of the three hosts of the adapter table gets its own adapter
    for every URL [scheme://host] or [scheme://sub.host], with or without a
    path. A host that merely ends with the name of one of them, after a
    character other than "." and "/", gets the default adapter. *)
Theorem engine_hosts_resolve :
  Forall (fun e =>
    forall scheme sub path,
      Forall (fun c => c <> 47) scheme -> Forall (fun c => c <> 47) sub ->
      resolveInject (scheme ++ js "://" ++ fst e) = snd e
      /\ resolveInject (scheme ++ js "://" ++ fst e ++ js "/" ++ path) = snd e
      /\ resolveInject (scheme ++ js "://" ++ sub ++ js "." ++ fst e) = snd e
      /\ resolveInject (scheme ++ js "://" ++ sub ++ js "." ++ fst e
                        ++ js "/" ++ path) = snd e
      /\ (forall c, c <> 46 -> c <> 47 ->
          resolveInject (scheme ++ js "://" ++ sub ++ [c] ++ fst e
                         ++ js "/" ++ path) = default))
    known_hosts.
Proof.
  apply Forall_forall. intros e He. apply list_elem_of_In in He.
  intros scheme sub path. apply engine_resolves. exact He.
Qed.

(** * The host of the default adapter *)

Lemma trim_start_spaces (ws s : jstring) :
  forallb is_space ws = true -> trim_start (ws ++ s) = trim_start s.
Proof.
  induction ws as [|c ws IH]; cbn [forallb app trim_start]; [reflexivity|].
  intros H. apply andb_true_iff in H as [Hc Hws]. rewrite Hc. auto.
Qed.

Lemma trim_start_none (s : jstring) :
  forallb (fun c => negb (is_space c)) s = true -> trim_start s = s.
Proof.
  destruct s as [|c s]; cbn [forallb trim_start]; [reflexivity|].
  intros H. apply andb_true_iff in H as [Hc _].
  apply negb_true_iff in Hc. rewrite Hc. reflexivity.
Qed.

Lemma forallb_rev {A} (f : A -> bool) (l : list A) :
  forallb f (rev l) = forallb f l.
Proof.
  induction l as [|x l IH]; [reflexivity|].
  cbn [rev forallb]. rewrite forallb_app, IH. cbn [forallb].
  rewrite andb_true_r. apply andb_comm.
Qed.

(** [trim] strips the white space around a string that holds none. *)
Lemma trim_spaces (ws1 core ws2 : jstring) :
  forallb is_space ws1 = true -> forallb is_space ws2 = true ->
  forallb (fun c => negb (is_space c)) core = true ->
  trim (ws1 ++ core ++ ws2) = core.
Proof.
  intros H1 H2 Hc. unfold trim.
  rewrite trim_start_spaces by exact H1.
  destruct core as [|c core].
  - cbn [app]. rewrite <- (app_nil_r ws2), trim_start_spaces by exact H2.
    reflexivity.
  - assert (Hstart : trim_start ((c :: core) ++ ws2) = (c :: core) ++ ws2).
    { cbn [forallb] in Hc. apply andb_true_iff in Hc as [Hc0 _].
      apply negb_true_iff in Hc0. cbn [app trim_start]. rewrite Hc0.
      reflexivity. }
    rewrite Hstart, rev_app_distr.
    rewrite trim_start_spaces by (rewrite forallb_rev; exact H2).
    rewrite trim_start_none by (rewrite forallb_rev; exact Hc).
    apply rev_involutive.
Qed.

Lemma substring_from_suffix (a b : jstring) :
  substring_from (a ++ b) (len a) = b.
Proof.
  unfold substring_from, substring, clamp, len. rewrite length_app.
  replace (Z.min (Z.max (Z.of_nat (length a)) 0)
             (Z.of_nat (length a + length b)))
    with (Z.of_nat (length a)) by lia.
  replace (Z.min (Z.max (Z.of_nat (length a + length b)) 0)
             (Z.of_nat (length a + length b)))
    with (Z.of_nat (length a + length b)) by lia.
  rewrite Z.min_l, Z.max_r by lia.
  rewrite Nat2Z.id, drop_app_length.
  replace (Z.to_nat (Z.of_nat (length a + length b) - Z.of_nat (length a)))
    with (length b) by lia.
  apply firstn_all.
Qed.

(** After the scheme, the host is what precedes the first "/" found from
    index 2 on. *)
Lemma host_end (a rest : jstring) :
  len a = 2 ->
  (forall seg tail,
     Forall (fun c => c <> 47) seg ->
     rest = seg ++ [47] ++ tail ->
     indexOf (a ++ rest) [47] 2 = 2 + len seg)
  /\ (Forall (fun c => c <> 47) rest -> indexOf (a ++ rest) [47] 2 = -1).
Proof.
  intros Ha. split.
  - intros seg tail Hseg ->. rewrite <- Ha.
    rewrite (indexOf_at _ _ a _ eq_refl), index_from_skip by exact Hseg.
    apply index_from_here. reflexivity.
  - intros Hrest. rewrite <- Ha.
    rewrite (indexOf_at _ _ a _ eq_refl).
    rewrite <- (app_nil_r rest), index_from_skip by exact Hrest.
    reflexivity.
Qed.

Lemma default_host_core (scheme rest : jstring) :
  Forall (fun c => c <> 47) scheme ->
  let url := scheme ++ js "://" ++ rest in
  trim url = url ->
  (forall a seg tail,
     len a = 2 -> Forall (fun c => c <> 47) seg ->
     rest = a ++ seg ++ [47] ++ tail -> default_host url = a ++ seg)
  /\ (forall a seg,
        len a = 2 -> Forall (fun c => c <> 47) seg ->
        rest = a ++ seg -> default_host url = rest).
Proof.
  intros Hs url Htrim. unfold default_host. fold url. rewrite Htrim.
  assert (Hsep : indexOf url (js "//") 0 = len scheme + 1).
  { unfold url. change (js "://") with [58; 47; 47].
    change (js "//") with [47; 47].
    rewrite indexOf_0, index_from_skip by exact Hs.
    cbn [app index_from starts_with Z.eqb andb Pos.eqb]. lia. }
  rewrite Hsep.
  replace (-1 <? len scheme + 1) with true
    by (symmetry; apply Z.ltb_lt; unfold len; lia).
  assert (Hrest : substring_from url (len scheme + 1 + 2) = rest).
  { unfold url. rewrite app_assoc.
    replace (len scheme + 1 + 2) with (len (scheme ++ js "://"))
      by (unfold len; rewrite length_app; cbn [length js map
            list_ascii_of_string]; lia).
    apply substring_from_suffix. }
  rewrite Hrest. split.
  - intros a seg tail Ha Hseg ->.
    destruct (host_end a (seg ++ [47] ++ tail) Ha) as [H _].
    change (js "/") with [47].
    rewrite (H seg tail Hseg eq_refl).
    replace (-1 <? 2 + len seg) with true
      by (symmetry; apply Z.ltb_lt; unfold len; lia).
    replace (2 + len seg) with (len (a ++ seg))
      by (unfold len in *; rewrite length_app; lia).
    rewrite app_assoc. apply substring_prefix.
  - intros a seg Ha Hseg ->.
    destruct (host_end a seg Ha) as [_ H].
    change (js "/") with [47]. rewrite (H Hseg). reflexivity.
Qed.

Lemma default_host_trim (u u' : jstring) :
  trim u = trim u' -> default_host u = default_host u'.
Proof. intros H. unfold default_host. rewrite H. reflexivity. Qed.

Lemma default_host_padded (ws1 ws2 core : jstring) :
  forallb is_space (ws1 ++ ws2) = true ->
  forallb (fun c => negb (is_space c)) core = true ->
  default_host (ws1 ++ core ++ ws2) = default_host core /\ trim core = core.
Proof.
  intros Hws Hcore. rewrite forallb_app in Hws.
  apply andb_true_iff in Hws as [H1 H2].
  assert (Hc : trim core = core).
  { rewrite <- (app_nil_r core) at 1.
    apply (trim_spaces [] core []); auto. }
  split; [|exact Hc]. apply default_host_trim.
  rewrite Hc. apply trim_spaces; assumption.
Qed.

(** X10. The default adapter scopes the query to the host of the target
    URL: for [scheme://host/path] and [scheme://host], white space around
    them or not, with a host of two characters or more, the search is
    "site:host keyword" on Google, percent-encoded as a URI component. The
    end of the host is looked for from index 2 of what follows the scheme:
    behind a host of one character the first segment of the path is taken
    along. *)
Theorem default_adapter_host (ws1 ws2 scheme host path keyword : jstring)
    (Hspace : forallb is_space (ws1 ++ ws2) = true)
    (Hurl : forallb (fun c => negb (is_space c)) (scheme ++ host ++ path)
            = true)
    (Hslash : forallb (fun c => negb (c =? 47)) (scheme ++ host) = true)
    (Hhost : (2 <= length host)%nat) :
  default_host (ws1 ++ (scheme ++ js "://" ++ host ++ js "/" ++ path) ++ ws2)
  = host
  /\ default_host (ws1 ++ (scheme ++ js "://" ++ host) ++ ws2) = host
  /\ buildSearchUrl default
       (ws1 ++ (scheme ++ js "://" ++ host ++ js "/" ++ path) ++ ws2) keyword
     = option_map (app (js "https://www.google.com/search?q="))
         (encodeURIComponent (js "site:" ++ host ++ js " " ++ keyword))
  /\ (forall h seg tail,
        forallb (fun c => negb (is_space c)) (h :: seg ++ tail) = true ->
        forallb (fun c => negb (c =? 47)) seg = true ->
        default_host
          (ws1 ++ (scheme ++ js "://" ++ [h] ++ js "/" ++ seg ++ js "/"
                   ++ tail) ++ ws2)
        = [h] ++ js "/" ++ seg).
Proof.
  rewrite forallb_app in Hurl. apply andb_true_iff in Hurl as [Hu1 Hu23].
  rewrite forallb_app in Hu23. apply andb_true_iff in Hu23 as [Hu2 Hu3].
  rewrite forallb_app in Hslash. apply andb_true_iff in Hslash as [Hs1 Hs2].
  apply no_slash_forallb in Hs1, Hs2.
  assert (Hsplit : host = take 2 host ++ drop 2 host)
    by (symmetry; apply take_drop).
  assert (Ha : len (take 2 host) = 2).
  { unfold len. rewrite length_take. lia. }
  assert (Hseg : Forall (fun c => c <> 47) (drop 2 host))
    by (apply Forall_drop, Hs2).
  assert (H1 : default_host
                 (ws1 ++ (scheme ++ js "://" ++ host ++ js "/" ++ path) ++ ws2)
               = host).
  { destruct (default_host_padded ws1 ws2
                (scheme ++ js "://" ++ host ++ js "/" ++ path) Hspace)
      as [-> Htrim].
    { rewrite !forallb_app, Hu1, Hu2, Hu3. reflexivity. }
    destruct (default_host_core scheme (host ++ js "/" ++ path) Hs1 Htrim)
      as [H _].
    rewrite (H (take 2 host) (drop 2 host) path Ha Hseg).
    - symmetry. exact Hsplit.
    - rewrite Hsplit at 1. rewrite <- app_assoc. reflexivity. }
  split; [exact H1|]. split; [|split].
  - destruct (default_host_padded ws1 ws2 (scheme ++ js "://" ++ host) Hspace)
      as [-> Htrim].
    { rewrite !forallb_app, Hu1, Hu2. reflexivity. }
    destruct (default_host_core scheme host Hs1 Htrim) as [_ H].
    apply (H (take 2 host) (drop 2 host) Ha Hseg Hsplit).
  - cbn [buildSearchUrl default]. rewrite H1. reflexivity.
  - intros h seg tail Hns Hnsl. cbn [forallb] in Hns.
    rewrite forallb_app in Hns.
    apply andb_true_iff in Hns as [Hh Hns].
    apply andb_true_iff in Hns as [Hseg' Htail].
    apply no_slash_forallb in Hnsl.
    destruct (default_host_padded ws1 ws2
                (scheme ++ js "://" ++ [h] ++ js "/" ++ seg ++ js "/" ++ tail)
                Hspace) as [-> Htrim].
    { rewrite !forallb_app, Hu1, Hseg', Htail. cbn [forallb]. rewrite Hh.
      reflexivity. }
    destruct (default_host_core scheme
                ([h] ++ js "/" ++ seg ++ js "/" ++ tail) Hs1 Htrim)
      as [H _].
    apply (H ([h] ++ js "/") seg tail); [reflexivity|exact Hnsl|].
    rewrite <- !app_assoc. reflexivity.
Qed.

Lemma default_adapter_host_witness :
  default_host (js "  https://example.org/docs/intro ") = js "example.org".
Proof.
  assert (H1 : forallb is_space (js "  " ++ js " ") = true)
    by (vm_compute; reflexivity).
  assert (H2 : forallb (fun c => negb (is_space c))
                 (js "https" ++ js "example.org" ++ js "docs/intro") = true)
    by (vm_compute; reflexivity).
  assert (H3 : forallb (fun c => negb (c =? 47))
                 (js "https" ++ js "example.org") = true)
    by (vm_compute; reflexivity).
  assert (H4 : (2 <= length (js "example.org"))%nat)
    by (vm_compute; lia).
  exact (proj1 (default_adapter_host (js "  ") (js " ") (js "https")
                  (js "example.org") (js "docs/intro") (js "ai")
                  H1 H2 H3 H4)).
Defined.

(** X11. A search whose URL cannot be built, because [encodeURI] or
    [encodeURIComponent] throws on the keyword, does not make the task
    fail: no tab is opened for it, the latch of link discovery is counted
    down in the [catch], and once the window exists the task runs through
    both phases without waiting and returns no link. *)
Theorem unencodable_search_returns_empty (search : SearchRequest) (n w : Z)
    (Hthrows : buildDeepSearchUrl (search_url search) (search_keyword search)
               = None) :
  let s := run [WindowCreated (Some w); LatchReleased; LatchReleased]
               (deepSearch [search] n) in
  pc s = Returned []
  /\ log s = [WindowsRemove w; CountDown None; WindowsCreate]
  /\ discoveryLatch s = 0%nat /\ total (searchInfo s) = 0.
Proof.
  assert (H1 : step (WindowCreated (Some w)) (deepSearch [search] n)
               = {| pc := AwaitLatch1; searchs := [search];
                    detailsMaxNum := n; window := w; listeners := [];
                    suspended := []; detailLinkGroups := [];
                    discoveryLatch := 0; contentLatch := 0;
                    searchInfo := {| total := 0; running := 0; succeed := 0;
                                     failed := 0; failedLinks := [] |};
                    log := [CountDown None; WindowsCreate] |}).
  { unfold deepSearch. cbn [step pc]. unfold doDetailLinkGroups.
    proj_norm. cbn [discovery_loop]. rewrite Hthrows. reflexivity. }
  intros s. unfold s, run. cbn [fold_left]. rewrite H1.
  vm_compute. repeat split; reflexivity.
Qed.

Lemma unencodable_search_returns_empty_witness :
  buildDeepSearchUrl (js "https://google.com") [55296] = None
  /\ pc (run [WindowCreated (Some 7); LatchReleased; LatchReleased]
           (deepSearch [{| search_url := js "https://google.com";
                           search_keyword := [55296] |}] 5))
     = Returned [].
Proof.
  assert (H : buildDeepSearchUrl (js "https://google.com") [55296] = None)
    by (vm_compute; reflexivity).
  exact (conj H (proj1 (unencodable_search_returns_empty
                          {| search_url := js "https://google.com";
                             search_keyword := [55296] |} 5 7 H))).
Defined.
Import ComputerUse.

(** * Screenshots *)

Lemma starts_with_lookup (body : jstring) (l : Z) (s : jstring) :
  starts_with (body ++ [l]) s = true -> s !! length body = Some l.
Proof.
  revert s. induction body as [|b body IH]; intros [|c s]; cbn;
    try discriminate.
  - intros H. apply andb_true_iff in H as [H _]. apply Z.eqb_eq in H.
    congruence.
  - intros H. apply andb_true_iff in H as [_ H]. apply IH. exact H.
Qed.

Lemma starts_with_app_self (pat rest : jstring) :
  starts_with pat (pat ++ rest) = true.
Proof.
  induction pat as [|p pat IH]; [reflexivity|].
  cbn. rewrite Z.eqb_refl. exact IH.
Qed.

(** A pattern whose last character occurs nowhere before is found where
    it stands. *)
Lemma index_from_last (a body rest : jstring) (l k : Z) :
  Forall (fun c => c <> l) (a ++ body) ->
  index_from (body ++ [l]) (a ++ (body ++ [l]) ++ rest) k = k + len a.
Proof.
  revert k. induction a as [|c a IH]; intros k Hno.
  - cbn [app]. rewrite index_from_here by apply starts_with_app_self.
    unfold len. cbn. lia.
  - cbn [app index_from].
    destruct (starts_with (body ++ [l]) (c :: a ++ (body ++ [l]) ++ rest))
      eqn:Hs.
    + exfalso. apply starts_with_lookup in Hs.
      assert (Heq : c :: a ++ (body ++ [l]) ++ rest
                    = ((c :: a) ++ body) ++ [l] ++ rest)
        by (rewrite <- !app_assoc; reflexivity).
      rewrite Heq in Hs. unfold jstring in *.
      rewrite lookup_app_l in Hs
        by (rewrite length_app; cbn [length]; lia).
      rewrite Forall_forall in Hno.
      apply (Hno l); [|reflexivity].
      eapply list_elem_of_lookup_2. exact Hs.
    + rewrite IH.
      * unfold len. cbn [length]. lia.
      * cbn [app] in Hno. apply Forall_cons in Hno as [_ Hno]. exact Hno.
Qed.

Lemma index_from_shift (pat s : jstring) (k k' : Z) :
  0 <= k -> 0 <= k' -> 0 <= index_from pat s k -> 0 <= index_from pat s k'.
Proof.
  revert k k'. induction s as [|c s IH]; intros k k' Hk Hk';
    cbn [index_from]; destruct (starts_with pat _); try lia.
  apply IH; lia.
Qed.

Lemma index_from_suffix (pat a b : jstring) (k k' : Z) :
  0 <= k -> 0 <= k' -> 0 <= index_from pat b k' ->
  0 <= index_from pat (a ++ b) k.
Proof.
  revert k. induction a as [|c a IH]; intros k Hk Hk' Hb; cbn [app].
  - apply (index_from_shift pat b k' k); assumption.
  - cbn [index_from]. destruct (starts_with pat _); [lia|].
    apply IH; [lia|lia|exact Hb].
Qed.

Lemma includes_suffix (a b pat : jstring) :
  includes b pat = true -> includes (a ++ b) pat = true.
Proof.
  unfold includes. rewrite !indexOf_0. intros H. apply Z.leb_le in H.
  apply Z.leb_le. apply (index_from_suffix pat a b 0 0); lia.
Qed.

Lemma includes_found (s pat : jstring) :
  (-1 <? indexOf s pat 0) = includes s pat.
Proof.
  unfold includes. destruct (Z.ltb_spec (-1) (indexOf s pat 0)),
    (Z.leb_spec 0 (indexOf s pat 0)); try reflexivity; lia.
Qed.

Lemma neq_forallb (p : Z) (l : jstring) :
  forallb (fun c => negb (c =? p)) l = true -> Forall (fun c => c <> p) l.
Proof.
  intros H. apply forallb_Forall in H. eapply Forall_impl; [exact H|].
  cbn. intros c Hc. apply negb_true_iff, Z.eqb_neq in Hc. exact Hc.
Qed.

Lemma data_after_marker (header payload : jstring) :
  Forall (fun c => c <> 44) header ->
  substring_from (header ++ js "base64," ++ payload)
    (indexOf (header ++ js "base64," ++ payload) (js "base64,") 0 + 7)
  = payload.
Proof.
  intros Hh. rewrite indexOf_0.
  change (js "base64,") with (js "base64" ++ [44]).
  rewrite (index_from_last header (js "base64") payload 44 0).
  - rewrite app_assoc.
    replace (0 + len header + 7) with (len (header ++ js "base64" ++ [44]))
      by (unfold len; rewrite length_app; cbn; lia).
    apply substring_from_suffix.
  - apply Forall_app. split; [exact Hh|].
    apply neq_forallb. reflexivity.
Qed.

(** X12. The image of a screenshot. A result that is not a data URL is
    taken as the base64 data of a PNG, unchanged. Of a data URL whose
    header holds no comma the data is what follows "base64,". The media
    type is "image/png" as soon as "png" occurs anywhere in the data URL,
    in the base64 data as well, whatever type the header names; it is
    "image/jpeg" in every other case. *)
Theorem screenshot_image_data :
  (forall raw,
     starts_with (js "data:") raw = false ->
     screenshot_image raw = {| media_type := js "image/png"; data := raw |})
  /\ (forall mime payload,
        forallb (fun c => negb (c =? 44)) mime = true ->
        let url := js "data:" ++ mime ++ js ";base64," ++ payload in
        data (screenshot_image url) = payload
        /\ (includes mime (js "png") = true
            \/ includes payload (js "png") = true ->
            media_type (screenshot_image url) = js "image/png")
        /\ (includes url (js "png") = false ->
            media_type (screenshot_image url) = js "image/jpeg")).
Proof.
  split.
  - intros raw Hraw. unfold screenshot_image. rewrite Hraw.
    rewrite includes_found.
    rewrite (includes_app (js "data:image/png;base64,") raw (js "png"))
      by reflexivity.
    f_equal.
    change (js "data:image/png;base64," ++ raw)
      with (js "data:image/png;" ++ js "base64," ++ raw).
    apply data_after_marker. apply neq_forallb. reflexivity.
  - intros mime payload Hmime url.
    assert (Hurl : starts_with (js "data:") url = true).
    { unfold url. apply starts_with_app_self. }
    unfold screenshot_image. rewrite Hurl. cbn [media_type data].
    rewrite includes_found. split; [|split].
    + unfold url.
      change (js ";base64," ++ payload)
        with (js ";" ++ js "base64," ++ payload).
      rewrite !app_assoc. rewrite <- (app_assoc _ (js "base64,")).
      apply data_after_marker.
      rewrite <- app_assoc. apply Forall_app. split; [|apply Forall_app; split].
      * apply neq_forallb. reflexivity.
      * apply neq_forallb. exact Hmime.
      * apply neq_forallb. reflexivity.
    + intros [H|H].
      * unfold url. rewrite app_assoc.
        rewrite (includes_app _ _ (js "png")); [reflexivity|].
        apply includes_suffix. exact H.
      * unfold url. rewrite !app_assoc.
        rewrite (includes_suffix _ _ (js "png") H). reflexivity.
    + intros ->. reflexivity.
Qed.

Lemma screenshot_image_data_witness :
  media_type (screenshot_image (js "data:image/jpeg;base64,/9j/4pngAA"))
  = js "image/png"
  /\ data (screenshot_image (js "data:image/jpeg;base64,/9j/4pngAA"))
     = js "/9j/4pngAA".
Proof.
  assert (H : forallb (fun c => negb (c =? 44)) (js "image/jpeg") = true)
    by (vm_compute; reflexivity).
  destruct (proj2 screenshot_image_data (js "image/jpeg") (js "/9j/4pngAA") H)
    as (H1 & H2 & _).
  split; [|exact H1].
  apply H2. right. vm_compute. reflexivity.
Defined.

(** * What [key] sends *)

Section Sends.

Context (P : Command -> bool).

Lemma sends_ret {A} (a : A) : sends P (mret a).
Proof. intros relay sent H. exact H. Qed.

Lemma sends_throw {A} (e : Failure) : sends P (@throw A e).
Proof. intros relay sent H. exact H. Qed.

Lemma sends_bind {A B} (m : M A) (k : A -> M B) :
  sends P m -> (forall a, sends P (k a)) -> sends P (m ≫= k).
Proof.
  intros Hm Hk relay sent H. unfold mbind, M_bind.
  specialize (Hm relay sent H).
  destruct (m relay sent) as [sent' [e|a]]; cbn [fst] in *; [exact Hm|].
  apply Hk. exact Hm.
Qed.

Lemma sends_command (f : jstring) (a : option (list Arg)) :
  P {| func := f; args := a |} = true -> sends P (runComputeruseCommand f a).
Proof.
  intros Hc relay sent H. unfold runComputeruseCommand. cbn zeta.
  destruct (relay _); cbn [fst forallb]; rewrite Hc, H; reflexivity.
Qed.

End Sends.

Lemma own_None (table : list (jstring * jstring)) (k : jstring) :
  own table k = None -> existsb (eqb k) (map fst table) = false.
Proof.
  induction table as [|[k' v] table IH]; cbn [own map fst existsb];
    [reflexivity|].
  destruct (eqb k k'); [discriminate|]. exact IH.
Qed.

Lemma own_In (table : list (jstring * jstring)) (k v : jstring) :
  own table k = Some v -> In v (map snd table).
Proof.
  induction table as [|[k' v'] table IH]; cbn [own map snd In];
    [discriminate|].
  destruct (eqb k k'); [intros [= ->]; left; reflexivity|].
  intros H. right. apply IH, H.
Qed.

(** A key name without white space and without "+" is mapped to a key
    name. *)
Lemma mapped_key_name (k : jstring) :
  forallb (fun c => negb (is_space c) && negb (c =? 43)) k = true ->
  key_name (mapped k) = true.
Proof.
  intros Hk. unfold mapped.
  destruct (own mapping k) as [[|c v]|] eqn:Ho.
  - apply own_In in Ho. cbn in Ho. intuition discriminate.
  - apply own_In in Ho. unfold mapping in Ho. cbn [map snd In] in Ho.
    destruct Ho as [<-|[<-|[<-|[<-|[<-|[<-|[]]]]]]]; vm_compute; reflexivity.
  - destruct (existsb (eqb k) object_prototype); [reflexivity|].
    cbn [key_name]. rewrite Hk, (own_None _ _ Ho). apply orb_true_r.
Qed.

Lemma collapse_spaces (in_run : bool) (s : jstring) :
  Forall (fun c => is_space c = true -> c = 32) (collapse in_run s).
Proof.
  revert in_run. induction s as [|c s IH]; intros in_run; cbn [collapse];
    [constructor|].
  destruct (is_space c) eqn:Hc; [destruct in_run|]; try apply IH;
    constructor; auto; congruence.
Qed.

Lemma split_Forall (P : Z -> Prop) (sep : Z) (s : jstring) :
  Forall P s -> Forall (Forall (fun c => P c /\ c <> sep)) (split sep s).
Proof.
  induction 1 as [|c s Hc Hs IH]; cbn [split]; [repeat constructor|].
  destruct (Z.eqb_spec c sep) as [->|Hne].
  - constructor; [constructor|exact IH].
  - destruct (split sep s) as [|piece pieces]; [repeat constructor; auto|].
    apply Forall_cons in IH as [Hp Hps].
    constructor; [constructor; auto|exact Hps].
Qed.


Lemma index_from_absent (p : Z) (s : jstring) (k : Z) :
  0 <= k -> index_from [p] s k = -1 -> Forall (fun c => c <> p) s.
Proof.
  revert k. induction s as [|c s IH]; intros k Hk; [constructor|].
  cbn [index_from starts_with]. rewrite andb_true_r.
  destruct (Z.eqb_spec p c) as [->|Hne]; [lia|].
  intros H. constructor; [congruence|]. apply (IH (k + 1)); [lia|exact H].
Qed.

Lemma index_from_range (pat s : jstring) (k : Z) :
  0 <= k -> index_from pat s k = -1 \/ 0 <= index_from pat s k.
Proof.
  revert k. induction s as [|c s IH]; intros k Hk; cbn [index_from];
    destruct (starts_with pat _); try lia.
  apply IH. lia.
Qed.

(** The tokens of [key]: no white space is left in them. *)
Lemma tokens_no_space (text : jstring) :
  Forall (Forall (fun c => is_space c = false))
         (split 32 (collapse false text)).
Proof.
  pose proof (split_Forall _ 32 _ (collapse_spaces false text)) as H.
  eapply Forall_impl; [exact H|]. cbn. intros token Ht.
  eapply Forall_impl; [exact Ht|]. cbn. intros c [Hc Hne].
  destruct (is_space c); [|reflexivity]. destruct Hne. auto.
Qed.

Lemma press_key_names (k : jstring) :
  Forall (fun c => is_space c = false) k -> sends key_names (press_key k).
Proof.
  intros Hk. unfold press_key. apply sends_bind; [|intros; apply sends_ret].
  destruct (Z.ltb_spec (-1) (indexOf k (js "+") 0)) as [Hplus|Hplus];
    apply sends_command; unfold key_names; cbn [args].
  - pose proof (split_Forall _ 43 _ Hk) as Hparts.
    apply forallb_Forall. rewrite Forall_map.
    eapply Forall_impl; [exact Hparts|]. cbn. intros part Hpart.
    apply mapped_key_name. apply forallb_Forall.
    eapply Forall_impl; [exact Hpart|]. cbn. intros c [Hc Hne].
    rewrite Hc. cbn. apply negb_true_iff, Z.eqb_neq. exact Hne.
  - cbn [forallb]. rewrite andb_true_r. apply mapped_key_name.
    rewrite indexOf_0 in Hplus.
    destruct (index_from_range (js "+") k 0 ltac:(lia)) as [Hm|Hm]; [|lia].
    apply index_from_absent in Hm; [|lia].
    apply forallb_Forall. rewrite Forall_forall in *. intros c Hc.
    rewrite (Hk c Hc). cbn. apply negb_true_iff, Z.eqb_neq.
    apply Hm. exact Hc.
Qed.

Lemma press_keys_names (keys : list jstring) :
  Forall (Forall (fun c => is_space c = false)) keys ->
  sends key_names (press_keys keys).
Proof.
  induction 1 as [|k keys Hk _ IH]; cbn [press_keys]; [apply sends_ret|].
  apply sends_bind; [apply press_key_names, Hk|intros _; exact IH].
Qed.

Lemma nums_key_names (f : jstring) (c : option (list Z)) :
  key_names {| func := f; args := option_map (map Num) c |} = true.
Proof.
  unfold key_names. destruct c as [c|]; cbn [args option_map]; [|reflexivity].
  induction c as [|n c IH]; [reflexivity|exact IH].
Qed.

Lemma or_position_names (tabId : Z) (c : option (list Z)) :
  sends key_names (or_position tabId c).
Proof.
  destruct c as [c|]; cbn [or_position]; [apply sends_ret|].
  unfold position_coordinate, cursor_position.
  apply sends_bind.
  - apply sends_bind; [apply sends_command; reflexivity|].
    intros [r|]; [apply sends_ret|apply sends_throw].
  - intros [|s|c]; first [apply sends_ret|apply sends_throw].
Qed.

(** X13. [key] never sends the relay a raw alias, white space or a
    combination: every string among the arguments of every message it
    sends, whatever the text, the coordinate and the answers of the
    relay, is a single space or a name that holds no white space and no
    "+" and is none of "space", "escape", "return", "page_up", "page_down"
    and "back_space". *)
Theorem key_sends_key_names (relay : Relay) (tabId : Z)
    (text : option jstring) (coordinate : option (list Z)) :
  forallb key_names (fst (key tabId text coordinate relay [])) = true.
Proof.
  assert (H : sends key_names (key tabId text coordinate)).
  { unfold key. apply sends_bind; [apply or_position_names|].
    intros c. apply sends_bind.
    - unfold mouse_move. apply sends_bind; [|intros; apply sends_ret].
      apply sends_command, nums_key_names.
    - intros _. destruct text as [k|]; [|apply sends_throw].
      apply press_keys_names, tokens_no_space. }
  apply H. reflexivity.
Qed.

(** * What [key] and [execute] do when the relay answers *)






Lemma not_an_action (a : jstring) :
  existsb (eqb a) actions = false ->
  Forall (fun name => eqb a name = false) actions.
Proof.
  intros H. apply Forall_forall. intros name Hin.
  destruct (eqb a name) eqn:He; [|reflexivity].
  apply list_elem_of_In in Hin.
  assert (existsb (eqb a) actions = true)
    by (apply existsb_exists; eauto).
  congruence.
Qed.

(** X15. [ComputerUse.execute] throws the invalid-parameters error for an
    argument that is not an object with an "action" property, before it
    asks for the tab; for an action outside the enumeration it throws once
    the tab is known. In both cases, and when the tab cannot be found, no
    message is sent to the relay. *)
Theorem computer_use_rejects (own_tab current : option Z) (relay : Relay) :
  (forall params,
     match params with Object p => action p = None | _ => True end ->
     execute own_tab current params relay [] = ([], inl InvalidParameters))
  /\ (forall p a,
        action p = Some a -> existsb (eqb a) actions = false ->
        execute own_tab current (Object p) relay []
        = ([], inl (match getTabId own_tab current relay [] with
                    | (_, inl e) => e
                    | (_, inr _) => InvalidAction a
                    end)))
  /\ (forall p a,
        action p = Some a ->
        snd (getTabId own_tab current relay []) = inl TabIdRejected ->
        execute own_tab current (Object p) relay [] = ([], inl TabIdRejected)).
Proof.
  split; [|split].
  - intros [| |[[a|] c t]]; cbn [action]; try reflexivity. discriminate.
  - intros [a' c t] a Ha Hno. cbn [action] in Ha. subst a'.
    apply not_an_action in Hno. unfold actions in Hno. cbn [map] in Hno.
    repeat (apply Forall_cons in Hno as [? Hno]).
    unfold execute, mbind, M_bind.
    destruct own_tab as [t0|], current as [c0|]; cbn [getTabId];
      try destruct (t0 =? 0); cbn [mret M_ret throw];
      repeat match goal with H : eqb a _ = false |- _ => rewrite H; clear H end;
      reflexivity.
  - intros [a' c t] a Ha Hrej. cbn [action] in Ha. subst a'.
    unfold execute, mbind, M_bind.
    destruct own_tab as [t0|], current as [c0|]; cbn [getTabId] in *;
      try destruct (t0 =? 0); cbn [mret M_ret throw snd] in *;
      try discriminate; reflexivity.
Qed.

Lemma computer_use_rejects_witness :
  execute None (Some 3)
    (Object {| action := Some (js "triple_click"); coordinate := None;
               text := None |}) (fun _ => NoResponse) []
  = ([], inl (InvalidAction (js "triple_click"))).
Proof.
  assert (H : existsb (eqb (js "triple_click")) actions = false)
    by (vm_compute; reflexivity).
  exact (proj1 (proj2 (computer_use_rejects None (Some 3) (fun _ => NoResponse)))
           {| action := Some (js "triple_click"); coordinate := None;
              text := None |} (js "triple_click") eq_refl H).
Defined.

(** X16. A click without a coordinate asks the relay for the position of
    the cursor first and clicks exactly there. When the relay gives no
    response, no result or a result without coordinate, the click throws
    a TypeError and no click message is sent; when the relay rejects, so
    does the click. *)
Theorem click_at_cursor (relay : Relay) (tabId clicks : Z) (button : string) :
  let position := {| func := js "position"; args := None |} in
  match relay [position] with
  | Response (Position (Some c)) =>
      fst (click clicks button tabId None relay [])
      = [ {| func := js "click";
             args := Some [at_index c 0; at_index c 1; Num clicks; Num 0;
                           Str (js button)] |};
          position ]
      /\ (relay (fst (click clicks button tabId None relay [])) <> Rejects ->
          snd (click clicks button tabId None relay []) = inr tt)
  | Rejects =>
      click clicks button tabId None relay [] = ([position], inl SendRejected)
  | _ => click clicks button tabId None relay [] = ([position], inl TypeError)
  end.
Proof.
  intros position. unfold click, or_position, position_coordinate,
    cursor_position, result_of, runComputeruseCommand, mbind, M_bind, mret,
    M_ret, throw. cbn zeta. fold position.
  destruct (relay [position]) as [| |[|s|[c|]]]; try reflexivity.
  cbn [fst snd].
  match goal with
  | |- context [relay (?cmd :: [position])] =>
      destruct (relay (cmd :: [position])) eqn:Hr
  end; cbn [fst snd]; split; try reflexivity; intros H; try reflexivity;
    rewrite Hr in H; contradiction.
Qed.

Lemma click_at_cursor_witness :
  left_click 1 None
    (fun sent => match sent with
                 | [_] => Response (Position (Some [30; 40]))
                 | _ => NoResponse
                 end) []
  = ([ {| func := js "click";
          args := Some [Num 30; Num 40; Num 1; Num 0; Str (js "left")] |};
       {| func := js "position"; args := None |} ], inr tt).
Proof.
  pose proof (click_at_cursor
                (fun sent => match sent with
                             | [_] => Response (Position (Some [30; 40]))
                             | _ => NoResponse
                             end) 1 1 "left") as H.
  cbn zeta in H. cbn iota in H. destruct H as [H1 H2].
  unfold left_click. apply injective_projections; cbn [fst snd].
  - exact H1.
  - apply H2. rewrite H1. discriminate.
Defined.
